(** * Citation renumbering and image correlation of the chat-with-pdfs engine

    Shallow embedding of the post-processing logic of
    [src/core/chat_engine.py] and [src/utils/image.py]:
    - [ChatEngine.process_query] with its citation renumbering block,
    - [ChatEngine._extract_images_from_sources] (the image correlator),
    - [process_source_for_images] and [get_document_images],
    and of the page label of [display_document_images] in
    [src/ui/components.py].

    Conventions of the model.
    - A Python [str] is a [string]; a character is a code point below 256.
      On that range the regex class [\d] is exactly ['0'..'9'].
    - A Python [int] is a [Z] (unbounded).  The interpreter (CPython 3.11
      and later, with its default settings) refuses to read an [int] from,
      or to write it to, a decimal string of more than 4300 digits:
      [int(s)], [str(n)], an f-string that writes an [int], and
      [json.loads] raise [ValueError] there.  The model has the limit where
      the code converts values of its input: the digits of a marker
      ([py_int]), the [page] of a passage in the f-strings of log lines and
      captions ([py_writable], [int_writable]), and [json.loads], which is a
      parameter that can raise.
    - [os.path] is the POSIX one.  What the disk answers ([os.path.exists],
      [os.path.abspath], [glob.glob]) is a parameter, and so are
      [json.loads] and the constant [IMAGES_PATH].
    - Python values that flow through [metadata] and through [json.loads]
      are values of [pyval]: [None], [bool], [int], [str], [list], [dict]
      with string keys.  Floats and byte strings are not represented.
    - Code that can raise returns [result]; [Raise e] is an exception that
      leaves the function.
    - Logging calls have no effect on the results.  The f-string of a log
      line is evaluated all the same, and it can raise when it writes a
      value of the data: this is modelled for the [page] of a passage
      ([image.py] line 41, [chat_engine.py] line 120).  The other values log
      lines write are strings, lengths, the source object itself
      ([image.py] line 27, taken not to raise), the citation indices the
      helper returns ([chat_engine.py] line 228) and the paths of decoded
      metadata entries (line 267), which are [int]s or values built by
      [int()] and [json.loads], and so are within the limit of digits. *)

From Stdlib Require Import ZArith List Ascii String Bool Lia.
From Stdlib Require Import DecimalString DecimalPos DecimalZ.
From stdpp Require Import base option list gmap strings fin_maps.

Local Open Scope Z_scope.

#[local] Set Warnings "-clear-no-such-hyp".

(** ** Exceptions and results *)

Inductive exn : Type :=
  | AttributeError
  | TypeError
  | IndexError
  | ValueError
  | RecursionError
  | JSONDecodeError.

Inductive result (A : Type) : Type :=
  | Ok (a : A)
  | Raise (e : exn).
Arguments Ok {A} a.
Arguments Raise {A} e.

#[global] Instance result_ret : MRet result := fun A a => Ok a.

#[global] Instance result_bind : MBind result := fun A B k r =>
  match r with
  | Ok a => k a
  | Raise e => Raise e
  end.

(** [try: body except Exception: handler] *)
Definition try_except {A : Type} (body : result A) (handler : exn → A) : A :=
  match body with
  | Ok a => a
  | Raise e => handler e
  end.

(** ** Characters and decimal numerals *)

Definition is_digit (c : ascii) : bool :=
  ((48 <=? N_of_ascii c) && (N_of_ascii c <=? 57))%N.

Fixpoint all_digits (s : string) : bool :=
  match s with
  | EmptyString => true
  | String c r => is_digit c && all_digits r
  end.

(** The integer a string of decimal digits stands for. *)
Definition digit_value (c : ascii) : Z := Z.of_N (N_of_ascii c) - 48.

Fixpoint int_acc (acc : Z) (s : string) : Z :=
  match s with
  | EmptyString => acc
  | String c r => int_acc (10 * acc + digit_value c) r
  end.

Definition decimal_value (s : string) : Z := int_acc 0 s.

(** The decimal numeral of [n]: what [str(n)] and [f"{n}"] return when they
    return. *)
Definition py_str (n : Z) : string := NilEmpty.string_of_int (Z.to_int n).

(** [sys.int_info.default_max_str_digits]: the most digits an [int] may have
    when it is read from a string or written to one. *)
Definition int_max_str_digits : nat := 4300.

(** [int(s)] for the digits [s] of a marker (group 1 of the citation
    pattern: one or more decimal digits). *)
Definition py_int (s : string) : result Z :=
  if (String.length s <=? int_max_str_digits)%nat then Ok (decimal_value s)
  else Raise ValueError.

(** [str(n)] and [f"{n}"] return for [n]: the numeral of its absolute value
    is within the limit of digits.  Otherwise they raise [ValueError]. *)
Definition int_writable (n : Z) : bool :=
  (String.length (py_str (Z.abs n)) <=? int_max_str_digits)%nat.

(** ** The regular expression [\[(\d+)\]]

    [re.sub] and [re.findall] scan the text from the left; at each position
    the pattern either matches (an opening bracket, one or more digits, a
    closing bracket) and the scan resumes after the match, or the scan moves
    one character on.  The greedy [\d+] never has to give a digit back: the
    character after the digits must be the closing bracket. *)

Fixpoint span_digits (s : string) : string * string :=
  match s with
  | String c r =>
      if is_digit c then
        let '(ds, rest) := span_digits r in (String c ds, rest)
      else (EmptyString, s)
  | EmptyString => (EmptyString, EmptyString)
  end.

(** The pattern anchored at the head of [s]: the digits of group 1 and the
    text after the match. *)
Definition match_citation (s : string) : option (string * string) :=
  match s with
  | String c r =>
      if Ascii.eqb c "[" then
        match span_digits r with
        | (String d ds, String c' rest) =>
            if Ascii.eqb c' "]" then Some (String d ds, rest) else None
        | _ => None
        end
      else None
  | EmptyString => None
  end.

Inductive token : Type :=
  | TLit (c : ascii)
  | TCite (digits : string).

Fixpoint tokenize_fuel (fuel : nat) (s : string) : list token :=
  match fuel with
  | O => []
  | S fuel' =>
      match s with
      | EmptyString => []
      | String c r =>
          match match_citation s with
          | Some (ds, rest) => TCite ds :: tokenize_fuel fuel' rest
          | None => TLit c :: tokenize_fuel fuel' r
          end
      end
  end.

(** Every step consumes at least one character, so the length of the text
    is enough fuel (lemma [tokenize_fuel_enough]). *)
Definition tokenize (s : string) : list token :=
  tokenize_fuel (String.length s) s.

(** The integers of the markers of a text, in order of occurrence. *)
Definition cited_numbers (s : string) : list Z :=
  omap (fun t => match t with TCite ds => Some (decimal_value ds) | TLit _ => None end)
       (tokenize s).

(** ** [src/utils/source.py] *)

Module Source.

(** The list [l] is scanned from the left; [seen] holds the distinct values
    met so far, in order of first occurrence. *)
Definition first_occurrences_from (seen l : list Z) : list Z :=
  fold_left (fun acc x => if decide (x ∈ acc) then acc else acc ++ [x]) l seen.

(** Modelled from the spec: [extract_citation_indices] of
    [src/utils/source.py], which is imported by [chat_engine.py] but is not
    part of the sources at hand.  Section 4.1: find every substring matching
    an integer enclosed in square brackets; produce the ordered list of
    distinct integers in first-occurrence order. *)
Definition extract_citation_indices (text : string) : list Z :=
  first_occurrences_from [] (cited_numbers text).

End Source.

(** ** Citation renumbering ([process_query], lines 127-142) *)

Section Renumbering.

(** The helper of [src/utils/source.py] is a parameter of the block; it is
    taken to return a list of [int]s for every text. *)
Variable extract_citation_indices : string → list Z.

(** [[
    citation_map = {}
    for idx in citation_indices:
        if idx not in citation_map:
            citation_map[idx] = len(citation_map) + 1
    ]] *)
Definition citation_map_step (citation_map : gmap Z Z) (idx : Z) : gmap Z Z :=
  match citation_map !! idx with
  | Some _ => citation_map
  | None => <[idx := Z.of_nat (size citation_map) + 1]> citation_map
  end.

Definition build_citation_map (citation_indices : list Z) : gmap Z Z :=
  fold_left citation_map_step citation_indices ∅.

(** [[
    def replace_citation(match):
        orig_num = int(match.group(1))
        new_num = citation_map.get(orig_num, orig_num)
        return f"[{new_num}]"
    ]]
    [int] raises [ValueError] for more than 4300 digits.  The f-string
    writes [new_num] within the limit: it is [orig_num], which [int] has
    just read from at most 4300 digits, or a value of the map built above,
    which is at most [len(citation_map)]. *)
Definition replace_citation (citation_map : gmap Z Z) (group1 : string)
  : result string :=
  orig_num ← py_int group1;
  let new_num := default orig_num (citation_map !! orig_num) in
  Ok ("[" +:+ py_str new_num +:+ "]").

(** The text [re.sub] builds from the tokens: the matches are replaced from
    left to right, and the first exception of [repl] leaves [re.sub]. *)
Fixpoint render (repl : string → result string) (ts : list token) : result string :=
  match ts with
  | [] => Ok EmptyString
  | TLit c :: ts' => rest ← render repl ts'; Ok (String c rest)
  | TCite ds :: ts' =>
      replacement ← repl ds;
      rest ← render repl ts';
      Ok (replacement +:+ rest)
  end.

(** [re.sub(r"\[(\d+)\]", repl, text)] *)
Definition re_sub (repl : string → result string) (text : string) : result string :=
  render repl (tokenize text).

(** The block as a whole: the rewritten answer and the citation map. *)
Definition renumber_citations (synthesized_answer : string)
  : result (string * gmap Z Z) :=
  let citation_indices := extract_citation_indices synthesized_answer in
  let citation_map := build_citation_map citation_indices in
  synthesized_answer ← re_sub (replace_citation citation_map) synthesized_answer;
  Ok (synthesized_answer, citation_map).

End Renumbering.

(** ** Python values *)

#[local] Set Warnings "-register-all".

Inductive pyval : Type :=
  | VNone
  | VBool (b : bool)
  | VInt (n : Z)
  | VStr (s : string)
  | VList (l : list pyval)
  | VDict (d : list (string * pyval)).

(** A [dict] with string keys, as the list of its items; the first item
    with a given key is the one a lookup finds. *)
Abbreviation pydict := (list (string * pyval)).

Fixpoint dict_lookup {V : Type} (k : string) (d : list (string * V)) : option V :=
  match d with
  | [] => None
  | (k', v) :: r => if String.eqb k k' then Some v else dict_lookup k r
  end.

(** [d.get(k)] and [d.get(k, dflt)] *)
Definition dict_get (d : pydict) (k : string) : pyval :=
  default VNone (dict_lookup k d).

Definition dict_get_default (d : pydict) (k : string) (dflt : pyval) : pyval :=
  default dflt (dict_lookup k d).

(** [k in d] *)
Definition dict_has (d : pydict) (k : string) : bool :=
  bool_decide (is_Some (dict_lookup k d)).

(** [bool(v)] *)
Definition py_truthy (v : pyval) : bool :=
  match v with
  | VNone => false
  | VBool b => b
  | VInt n => negb (n =? 0)
  | VStr s => negb (String.eqb s EmptyString)
  | VList l => negb (bool_decide (l = []))
  | VDict d => negb (bool_decide (d = []))
  end.

(** [a == b]; [bool] is a subclass of [int], so [True == 1]. *)
Fixpoint py_eq (a b : pyval) {struct a} : bool :=
  match a, b with
  | VNone, VNone => true
  | VBool x, VBool y => Bool.eqb x y
  | VBool x, VInt y => Z.b2z x =? y
  | VInt x, VBool y => x =? Z.b2z y
  | VInt x, VInt y => x =? y
  | VStr x, VStr y => String.eqb x y
  | VList l1, VList l2 =>
      (fix list_eq (l1 l2 : list pyval) {struct l1} : bool :=
         match l1, l2 with
         | [], [] => true
         | x :: r1, y :: r2 => py_eq x y && list_eq r1 r2
         | _, _ => false
         end) l1 l2
  | VDict d1, VDict d2 =>
      (length d1 =? length d2)%nat &&
      (fix items_in (d : pydict) {struct d} : bool :=
         match d with
         | [] => true
         | (k, v) :: r =>
             match dict_lookup k d2 with
             | Some w => py_eq v w
             | None => false
             end && items_in r
         end) d1
  | _, _ => false
  end.

(** [a or b] *)
Definition py_or (a b : pyval) : pyval := if py_truthy a then a else b.

(** [isinstance(v, int)] and the integer a value then stands for. *)
Definition as_int (v : pyval) : option Z :=
  match v with
  | VInt n => Some n
  | VBool b => Some (Z.b2z b)
  | _ => None
  end.

(** An f-string can write [v]: no [int] inside [v] is beyond the limit of
    digits.  Otherwise [f"{v}"] raises [ValueError]. *)
Fixpoint py_writable (v : pyval) : bool :=
  match v with
  | VInt n => int_writable n
  | VList l => forallb py_writable l
  | VDict d => forallb (fun kv => py_writable (snd kv)) d
  | _ => true
  end.

(** [v in l] for a list [l] of strings. *)
Definition py_in_strs (v : pyval) (l : list string) : bool :=
  existsb (fun e => py_eq v (VStr e)) l.

(** The items a [for] loop over [v] visits. *)
Fixpoint chars_of (s : string) : list pyval :=
  match s with
  | EmptyString => []
  | String c r => VStr (String c EmptyString) :: chars_of r
  end.

Definition py_iter (v : pyval) : result (list pyval) :=
  match v with
  | VList l => Ok l
  | VDict d => Ok (map (fun kv => VStr (fst kv)) d)
  | VStr s => Ok (chars_of s)
  | _ => Raise TypeError
  end.

(** [l[k]] with Python's negative indices. *)
Definition py_index {A : Type} (l : list A) (k : Z) : result A :=
  let n := Z.of_nat (length l) in
  let i := if k <? 0 then k + n else k in
  if (0 <=? i) && (i <? n) then
    match l !! Z.to_nat i with
    | Some x => Ok x
    | None => Raise IndexError
    end
  else Raise IndexError.

(** A [for] loop whose body can raise: the state reached, and the exception
    that ended the loop early, if any.  The state is mutated in place, so
    what was done before the exception stays done. *)
Fixpoint for_each {A S : Type} (body : S → A → result S) (l : list A) (s : S)
  : S * option exn :=
  match l with
  | [] => (s, None)
  | x :: r =>
      match body s x with
      | Ok s' => for_each body r s'
      | Raise e => (s, Some e)
      end
  end.

(** ** String helpers of the Python library *)

(** [str.isspace] on code points below 256. *)
Definition is_space (c : ascii) : bool :=
  let n := N_of_ascii c in
  (((9 <=? n) && (n <=? 13)) || ((28 <=? n) && (n <=? 32))
   || (n =? 133) || (n =? 160))%N.

Fixpoint lstrip (s : string) : string :=
  match s with
  | String c r => if is_space c then lstrip r else s
  | EmptyString => EmptyString
  end.

Fixpoint rstrip (s : string) : string :=
  match s with
  | String c r =>
      match rstrip r with
      | EmptyString => if is_space c then EmptyString else String c EmptyString
      | r' => String c r'
      end
  | EmptyString => EmptyString
  end.

(** [s.strip()] *)
Definition strip (s : string) : string := rstrip (lstrip s).

(** The white space [int(s)] skips around the digits of [s], on code points
    below 256: the ASCII white space, and the two white-space characters
    above 127.  [int] does not skip the separators 28 to 31, which
    [str.strip] strips. *)
Definition is_int_space (c : ascii) : bool :=
  let n := N_of_ascii c in
  (((9 <=? n) && (n <=? 13)) || (n =? 32) || (n =? 133) || (n =? 160))%N.

Fixpoint int_lstrip (s : string) : string :=
  match s with
  | String c r => if is_int_space c then int_lstrip r else s
  | EmptyString => EmptyString
  end.

Fixpoint int_rstrip (s : string) : string :=
  match s with
  | String c r =>
      match int_rstrip r with
      | EmptyString => if is_int_space c then EmptyString else String c EmptyString
      | r' => String c r'
      end
  | EmptyString => EmptyString
  end.

(** [needle in hay] on strings. *)
Fixpoint py_contains (hay needle : string) : bool :=
  String.prefix needle hay ||
  match hay with
  | String _ r => py_contains r needle
  | EmptyString => false
  end.

(** POSIX [os.path.basename]: what follows the last slash. *)
Fixpoint basename_from (cur s : string) : string :=
  match s with
  | EmptyString => cur
  | String c r =>
      if Ascii.eqb c "/" then basename_from EmptyString r
      else basename_from (cur +:+ String c EmptyString) r
  end.

Definition basename (p : string) : string := basename_from EmptyString p.

(** POSIX [os.path.join] of two components. *)
Fixpoint ends_with_slash (s : string) : bool :=
  match s with
  | EmptyString => false
  | String c EmptyString => Ascii.eqb c "/"
  | String _ r => ends_with_slash r
  end.

Definition path_join (a b : string) : string :=
  match b with
  | String "/"%char _ => b
  | _ => if String.eqb a EmptyString || ends_with_slash a then a +:+ b
         else a +:+ "/" +:+ b
  end.

(** [s.rfind(c)]: the index of the last [c], or -1. *)
Fixpoint rfind_from (c : ascii) (s : string) (i : Z) (found : Z) : Z :=
  match s with
  | EmptyString => found
  | String x r => rfind_from c r (i + 1) (if Ascii.eqb x c then i else found)
  end.

Definition rfind (c : ascii) (s : string) : Z := rfind_from c s 0 (-1).

Fixpoint all_dots (s : string) : bool :=
  match s with
  | EmptyString => true
  | String c r => Ascii.eqb c "." && all_dots r
  end.

(** POSIX [os.path.splitext(p)[0]]: [p] without its extension; the leading
    dots of the last component do not start an extension. *)
Definition splitext_root (p : string) : string :=
  let sepIndex := rfind "/" p in
  let dotIndex := rfind "." p in
  if sepIndex <? dotIndex then
    let filenameIndex := sepIndex + 1 in
    if all_dots (substring (Z.to_nat filenameIndex)
                           (Z.to_nat (dotIndex - filenameIndex)) p)
    then p
    else substring 0 (Z.to_nat dotIndex) p
  else p.

(** ** The regular expression [!\[\]\(([^)]+)\)] *)

Fixpoint span_not_paren (s : string) : string * string :=
  match s with
  | String c r =>
      if Ascii.eqb c ")" then (EmptyString, s)
      else let '(body, rest) := span_not_paren r in (String c body, rest)
  | EmptyString => (EmptyString, EmptyString)
  end.

(** The pattern anchored at the head of [s]: group 1 and the text after the
    match.  The greedy [[^)]+] stops at the first closing parenthesis. *)
Definition match_image_ref (s : string) : option (string * string) :=
  match s with
  | String "!"%char (String "["%char (String "]"%char (String "("%char r))) =>
      match span_not_paren r with
      | (String c body, String ")"%char rest) => Some (String c body, rest)
      | _ => None
      end
  | _ => None
  end.

Fixpoint findall_image_refs_fuel (fuel : nat) (s : string) : list string :=
  match fuel with
  | O => []
  | S fuel' =>
      match s with
      | EmptyString => []
      | String _ r =>
          match match_image_ref s with
          | Some (g, rest) => g :: findall_image_refs_fuel fuel' rest
          | None => findall_image_refs_fuel fuel' r
          end
      end
  end.

(** [re.findall(r'!\[\]\(([^)]+)\)', text)] *)
Definition findall_image_refs (text : string) : list string :=
  findall_image_refs_fuel (String.length text) text.

(** ** Source passages and the state the code reads *)

(** A source node: [None] is an attribute the object does not have. *)
Record source_node : Type := {
  src_text : option pyval;
  src_metadata : option pyval;
}.

(** What [os.path.exists], [os.path.abspath] and [glob.glob] answer on the
    disk as it is. *)
Record filesystem : Type := {
  os_path_exists : string → bool;
  os_path_abspath : string → string;
  glob_glob : string → list string;
}.

(** An entry of [st.session_state['document_responses']]: the empty dict
    [process_query] puts there before the first answer, or a stored
    answer. *)
Inductive stored_response : Type :=
  | EmptyResponse
  | StoredResponse (last_query answer : string)
                   (sources : list source_node) (images : list pydict).

(** [last_response.get('answer', '')] *)
Definition response_answer (r : stored_response) : string :=
  match r with
  | EmptyResponse => EmptyString
  | StoredResponse _ answer _ _ => answer
  end.

(** The part of [st.session_state] the code reads; [None] is a key that is
    not in the session state. *)
Record session_state : Type := {
  file_document_id : gmap string string;
  document_responses : option (gmap string stored_response);
  document_image_map : option (gmap string (list string));
}.

(** ** [src/utils/image.py] *)

Section ImageUtils.

(** [json.loads] of the Python library on a [str]: the decoded value, or the
    exception it raises ([json.JSONDecodeError] for a text that is not JSON,
    [ValueError] for an integer of more than 4300 digits, [RecursionError]
    for a text nested too deep).  The values it returns hold no [int]
    beyond the limit of digits. *)
Variable json_loads : string → result pyval.

(** [IMAGES_PATH] of [src/config.py], which is not part of the sources at
    hand. *)
Variable IMAGES_PATH : string.

Variable fs : filesystem.

(** [json.loads(v)]: anything but a string is a [TypeError]. *)
Definition py_json_loads (v : pyval) : result pyval :=
  match v with
  | VStr s => json_loads s
  | _ => Raise TypeError
  end.

(** [page_num + 1 if isinstance(page_num, int) else 1] *)
Definition page_display (page_num : pyval) : Z :=
  match as_int page_num with
  | Some n => n + 1
  | None => 1
  end.

(** [{'path': path, 'caption': f"Image from page {page_display}"}] *)
Definition image_info (path : pyval) (page_num : pyval) : pydict :=
  [("path"%string, path);
   ("caption"%string, VStr ("Image from page " +:+ py_str (page_display page_num)))].

(** Each record is built after a log line that writes [page_display], and
    with a caption that writes it (lines 65 and 69, 85 and 89, 117 and 121).
    All records of one call have the same [page_display], so the first
    record a loop would build raises [ValueError] when [page_display] is
    beyond the limit of digits, and otherwise the loop builds its records:
    [images] is the list of records the loop builds when the f-strings
    return. *)
Definition written_with_page (page_num : pyval) (images : list pydict)
  : result (list pydict) :=
  if bool_decide (images = []) || int_writable (page_display page_num)
  then Ok images
  else Raise ValueError.

(** The body of [for img_path in image_matches] (lines 53-93): what one
    inline reference appends to [images]. *)
Definition images_of_reference (page_num : pyval) (available_images : list string)
           (img_path : string) : list pydict :=
  let img_path := strip img_path in
  if bool_decide (img_path ∈ available_images) then
    [image_info (VStr img_path) page_num]
  else
    let img_filename := basename img_path in
    match find (fun avail_img => py_contains avail_img img_filename) available_images with
    | Some avail_img => [image_info (VStr avail_img) page_num]
    | None => []
    end.

(** Lines 44-93: the images of the Markdown references of [text]. *)
Definition images_of_text (text : pyval) (page_num : pyval)
           (available_images : list string) : result (list pydict) :=
  if py_truthy text then
    match text with
    | VStr s =>
        written_with_page page_num
          (flat_map (images_of_reference page_num available_images)
                    (findall_image_refs s))
    | _ => Raise TypeError
    end
  else Ok [].

(** The loop of lines 102-125: the first entry that is a dict with a
    ['file_path'] found in [available_images]. *)
Fixpoint first_metadata_image (page_num : pyval) (available_images : list string)
         (image_list : list pyval) : list pydict :=
  match image_list with
  | [] => []
  | VDict img_meta :: rest =>
      match dict_lookup "file_path" img_meta with
      | Some file_path =>
          if py_in_strs file_path available_images then
            [image_info file_path page_num]
          else first_metadata_image page_num available_images rest
      | None => first_metadata_image page_num available_images rest
      end
  | _ :: rest => first_metadata_image page_num available_images rest
  end.

(** Lines 96-127: the metadata fallback; only [json.JSONDecodeError] is
    handled, of which [ValueError] is not a subclass. *)
Definition images_of_metadata (metadata : pydict) (page_num : pyval)
           (available_images : list string) : result (list pydict) :=
  match py_json_loads (dict_get metadata "images") with
  | Ok (VList image_list) =>
      written_with_page page_num
        (first_metadata_image page_num available_images image_list)
  | Ok _ => Ok []
  | Raise JSONDecodeError => Ok []
  | Raise e => Raise e
  end.

Definition process_source_for_images (source : source_node) (current_doc_id : string)
           (available_images : list string) : result (list pydict) :=
  match src_metadata source, src_text source with
  | Some metadata, Some text =>
      match metadata with
      | VDict metadata =>
          let page_num := dict_get metadata "page" in
          (* line 41: the log line writes [page_num] *)
          if py_writable page_num then
            images ← images_of_text text page_num available_images;
            if bool_decide (images = []) && dict_has metadata "images"
               && py_truthy (dict_get metadata "images")
            then images_of_metadata metadata page_num available_images
            else Ok images
          else Raise ValueError
      | _ => Raise AttributeError
      end
  | _, _ => Ok []
  end.

(** The body of [for img_path in images] of [get_document_images]
    (lines 154-204), on the pair of [valid_images] and [invalid_images].
    The [try] around it guards the library calls, which do not raise on
    strings. *)
Definition verify_image_path (doc_id : string) (acc : list string * Z)
           (img_path : string) : list string * Z :=
  let '(valid_images, invalid_images) := acc in
  let abs_path := os_path_abspath fs img_path in
  if os_path_exists fs abs_path then (valid_images ++ [abs_path], invalid_images)
  else if os_path_exists fs img_path then (valid_images ++ [img_path], invalid_images)
  else
    let doc_dir := path_join IMAGES_PATH doc_id in
    if os_path_exists fs doc_dir then
      let img_filename := basename img_path in
      let exact_path := path_join doc_dir img_filename in
      if os_path_exists fs exact_path then
        (valid_images ++ [exact_path], invalid_images)
      else
        let file_name := basename img_filename in
        let pattern :=
          path_join doc_dir ("*" +:+ splitext_root file_name +:+ "*.jpg") in
        match glob_glob fs pattern with
        | first_match :: _ => (valid_images ++ [first_match], invalid_images)
        | [] => (valid_images, invalid_images + 1)
        end
    else (valid_images, invalid_images + 1).

(** [valid_images] and [invalid_images] when the loop is over. *)
Definition verify_image_paths (doc_id : string) (images : list string)
  : list string * Z :=
  fold_left (verify_image_path doc_id) images ([], 0).

Definition get_document_images (st : session_state) (doc_id : string) : list string :=
  match default ∅ (document_image_map st) !! doc_id with
  | Some images => fst (verify_image_paths doc_id images)
  | None => []
  end.

End ImageUtils.

(** ** [ChatEngine._extract_images_from_sources] *)

Section ImageCorrelator.

Variable json_loads : string → result pyval.
Variable IMAGES_PATH : string.
Variable fs : filesystem.

(** [extract_citation_indices] of [src/utils/source.py]. *)
Variable extract_citation_indices : string → list Z.

(** Lines 220-223:
    [[
    for idx in cited_indices:
        if 1 <= idx <= len(source_nodes):
            cited_sources.append(source_nodes[idx-1])
    ]] *)
Definition cite_source (source_nodes : list source_node)
           (cited_sources : list source_node) (idx : Z) : result (list source_node) :=
  if (1 <=? idx) && (idx <=? Z.of_nat (length source_nodes)) then
    source ← py_index source_nodes (idx - 1);
    Ok (cited_sources ++ [source])
  else Ok cited_sources.

Fixpoint select_cited_sources (source_nodes : list source_node)
         (cited_indices : list Z) (cited_sources : list source_node)
  : result (list source_node) :=
  match cited_indices with
  | [] => Ok cited_sources
  | idx :: rest =>
      cited_sources ← cite_source source_nodes cited_sources idx;
      select_cited_sources source_nodes rest cited_sources
  end.

(** [any(img.get('file_path') == p for img in images)] *)
Definition has_file_path (images : list pydict) (p : pyval) : bool :=
  existsb (fun img => py_eq (dict_get img "file_path") p) images.

(** The body of [for img_meta in image_meta_list] (lines 260-267). *)
Definition add_metadata_image (images : list pydict) (img_meta : pyval)
  : result (list pydict) :=
  match img_meta with
  | VDict img_meta =>
      let img_path := py_or (dict_get img_meta "file_path") (dict_get img_meta "path") in
      let caption := dict_get_default img_meta "caption" (VStr EmptyString) in
      if py_truthy img_path && negb (has_file_path images img_path) then
        Ok (images ++ [[("file_path"%string, img_path); ("caption"%string, caption)]])
      else Ok images
  | _ => Raise AttributeError
  end.

(** [json.loads(meta.get('images', '[]')) if isinstance(meta, dict) else []];
    [json.loads('[]')] is the empty list. *)
Definition image_meta_list (meta : pyval) : result pyval :=
  match meta with
  | VDict meta =>
      match dict_lookup "images" meta with
      | Some v => py_json_loads json_loads v
      | None => Ok (VList [])
      end
  | _ => Ok (VList [])
  end.

(** Lines 255-269: the [try] block around the metadata of one source;
    [except Exception] only logs. *)
Definition add_metadata_images (images : list pydict) (meta : pyval) : list pydict :=
  try_except
    (parsed ← image_meta_list meta;
     entries ← py_iter parsed;
     Ok (fst (for_each add_metadata_image entries images)))
    (fun _ => images).

(** The body of [for img_info in source_images] (lines 272-275). *)
Definition add_source_image (images : list pydict) (img_info : pydict) : list pydict :=
  if negb (has_file_path images (dict_get img_info "file_path")) then
    images ++ [img_info]
  else images.

(** The body of [for i, source in enumerate(sources_to_process)]
    (lines 240-275).  The call of [process_source_for_images] is outside
    the [try] blocks. *)
Definition process_cited_source (doc_id : string) (available_images : list string)
           (images : list pydict) (source : source_node) : result (list pydict) :=
  source_images ← process_source_for_images json_loads source doc_id available_images;
  let meta := default (VDict []) (src_metadata source) in
  let images := add_metadata_images images meta in
  Ok (fold_left add_source_image source_images images).

Fixpoint process_cited_sources (doc_id : string) (available_images : list string)
         (sources_to_process : list source_node) (images : list pydict)
  : result (list pydict) :=
  match sources_to_process with
  | [] => Ok images
  | source :: rest =>
      images ← process_cited_source doc_id available_images images source;
      process_cited_sources doc_id available_images rest images
  end.

(** Lines 208-223: [cited_indices] and [cited_sources]. *)
Definition cited_in_stored_answer (st : session_state)
           (source_nodes : list source_node) (file_name : string)
  : result (list Z * list source_node) :=
  match default ∅ (document_responses st) !! file_name with
  | Some last_response =>
      let answer_text := response_answer last_response in
      let cited_indices := extract_citation_indices answer_text in
      cited_sources ← select_cited_sources source_nodes cited_indices [];
      Ok (cited_indices, cited_sources)
  | None => Ok ([], [])
  end.

Definition _extract_images_from_sources (st : session_state)
           (source_nodes : list source_node) (file_name : string)
  : result (list pydict) :=
  let images : list pydict := [] in
  if bool_decide (source_nodes = []) then Ok images
  else
    match file_document_id st !! file_name with
    | None => Ok images
    | Some doc_id =>
        if String.eqb doc_id EmptyString then Ok images
        else
          let available_images := get_document_images IMAGES_PATH fs st doc_id in
          '(cited_indices, cited_sources) ←
            cited_in_stored_answer st source_nodes file_name;
          if bool_decide (cited_sources = []) && negb (bool_decide (cited_indices = []))
          then Ok images
          else
            let sources_to_process := cited_sources in
            if bool_decide (sources_to_process = []) then Ok images
            else process_cited_sources doc_id available_images
                                       sources_to_process images
    end.

End ImageCorrelator.

(** ** A sample document *)

Module Sample.

Definition quote : string := String (ascii_of_nat 34) EmptyString.

(** The JSON text [[{"file_path": "/app/images/doc1/a.jpg"}]]. *)
Definition images_json : string :=
  "[{" +:+ quote +:+ "file_path" +:+ quote +:+ ": "
       +:+ quote +:+ "/app/images/doc1/a.jpg" +:+ quote +:+ "}]".

(** The JSON text [["junk", {"file_path": "/app/images/doc1/a.jpg"}]]. *)
Definition junk_json : string :=
  "[" +:+ quote +:+ "junk" +:+ quote +:+ ", {" +:+ quote +:+ "file_path" +:+ quote
      +:+ ": " +:+ quote +:+ "/app/images/doc1/a.jpg" +:+ quote +:+ "}]".

(** The JSON text [[{"path": "/tmp/c.jpg", "caption": "Chart"}]]. *)
Definition other_json : string :=
  "[{" +:+ quote +:+ "path" +:+ quote +:+ ": " +:+ quote +:+ "/tmp/c.jpg" +:+ quote
       +:+ ", " +:+ quote +:+ "caption" +:+ quote +:+ ": " +:+ quote +:+ "Chart"
       +:+ quote +:+ "}]".

(** [json.loads] on the texts the sample uses. *)
Definition json_loads (s : string) : result pyval :=
  if String.eqb s images_json then
    Ok (VList [VDict [("file_path"%string, VStr "/app/images/doc1/a.jpg")]])
  else if String.eqb s junk_json then
    Ok (VList [VStr "junk";
               VDict [("file_path"%string, VStr "/app/images/doc1/a.jpg")]])
  else if String.eqb s other_json then
    Ok (VList [VDict [("path"%string, VStr "/tmp/c.jpg");
                      ("caption"%string, VStr "Chart")]])
  else if String.eqb s "[]" then Ok (VList [])
  else Raise JSONDecodeError.

Definition IMAGES_PATH : string := "/app/images".

(** A disk that holds [/app/images/doc1/a.jpg] and
    [/app/images/doc1/b-2-0_1743486037.jpg]; the working directory is
    [/app]. *)
Definition fs : filesystem := {|
  os_path_exists p :=
    bool_decide (p ∈ ["/app/images/doc1"; "/app/images/doc1/a.jpg";
                      "/app/images/doc1/b-2-0_1743486037.jpg"]%string);
  os_path_abspath p :=
    match p with
    | String "/"%char _ => p
    | _ => "/app/" +:+ p
    end;
  glob_glob pattern :=
    if String.eqb pattern "/app/images/doc1/*b-2-0*.jpg" then
      ["/app/images/doc1/b-2-0_1743486037.jpg"%string]
    else [];
|}.

(** A passage of page 1 (0-based 0) with an inline reference to [a.jpg]
    and the same image in its metadata. *)
Definition passage1 : source_node := {|
  src_text := Some (VStr "Figure 1 ![](images/doc1/a.jpg) shows it.");
  src_metadata := Some (VDict [("page"%string, VInt 0);
                               ("images"%string, VStr images_json)]);
|}.

Definition passage2 : source_node := {|
  src_text := Some (VStr "No figure here.");
  src_metadata := Some (VDict [("page"%string, VInt 4)]);
|}.

(** A passage whose [images] metadata holds the decoded list, not its
    JSON text. *)
Definition passage3 : source_node := {|
  src_text := Some (VStr "Plain text.");
  src_metadata :=
    Some (VDict [("page"%string, VInt 2);
                 ("images"%string,
                  VList [VDict [("file_path"%string, VStr "/app/images/doc1/a.jpg")]])]);
|}.

(** A passage with an inline reference to the second image, whose
    [images] metadata starts with an entry that is not an object. *)
Definition passage4 : source_node := {|
  src_text := Some (VStr "See ![](/app/images/doc1/b-2-0_1743486037.jpg).");
  src_metadata := Some (VDict [("page"%string, VInt 1);
                               ("images"%string, VStr junk_json)]);
|}.

(** A passage whose [images] metadata names a file that is not among the
    images of the document. *)
Definition passage5 : source_node := {|
  src_text := Some (VStr "A chart.");
  src_metadata := Some (VDict [("page"%string, VInt 6);
                               ("images"%string, VStr other_json)]);
|}.

(** Two passages for one image: the first names it inline, the second in
    its metadata. *)
Definition passage6 : source_node := {|
  src_text := Some (VStr "Figure 1: ![](/app/images/doc1/a.jpg)");
  src_metadata := Some (VDict [("page"%string, VInt 0)]);
|}.

Definition passage7 : source_node := {|
  src_text := Some (VStr "As Figure 1 shows.");
  src_metadata := Some (VDict [("page"%string, VInt 4);
                               ("images"%string, VStr images_json)]);
|}.

Definition session (answer : string) : session_state := {|
  file_document_id := {[ "paper.pdf"%string := "doc1"%string ]};
  document_responses :=
    Some {[ "paper.pdf"%string := StoredResponse "What is shown?" answer [] [] ]};
  document_image_map :=
    Some {[ "doc1"%string := ["images/doc1/a.jpg"; "old/b-2-0.jpg"]%string ]};
|}.

End Sample.

(** ** Notions used to state the properties *)

Definition starts_with_digit (s : string) : bool :=
  match s with
  | String c _ => is_digit c
  | EmptyString => false
  end.

Definition head_char (s : string) : option ascii :=
  match s with
  | String c _ => Some c
  | EmptyString => None
  end.

(** A token whose marker digits are rewritten by [f]; literal characters
    stay. *)
Definition retag (f : string → string) (t : token) : token :=
  match t with
  | TLit c => TLit c
  | TCite ds => TCite (f ds)
  end.

(** [citation_map.get(n, n)] *)
Definition new_number (citation_map : gmap Z Z) (n : Z) : Z :=
  default n (citation_map !! n).

(** The digits [replace_citation] writes for the digits [ds]. *)
Definition new_digits (citation_map : gmap Z Z) (ds : string) : string :=
  py_str (new_number citation_map (decimal_value ds)).

(** The replacement text of a marker whose new digits are [body ds]. *)
Definition bracketed (body : string → string) (ds : string) : string :=
  "[" +:+ body ds +:+ "]".

(** The text of a list of tokens in which each marker is replaced by [repl]
    of its digits. *)
Fixpoint substitute (repl : string → string) (ts : list token) : string :=
  match ts with
  | [] => EmptyString
  | TLit c :: ts' => String c (substitute repl ts')
  | TCite ds :: ts' => repl ds +:+ substitute repl ts'
  end.

Definition substitute_markers (repl : string → string) (text : string) : string :=
  substitute repl (tokenize text).

(** The text in which each marker [[n]] is rewritten to
    [[citation_map.get(n, n)]]. *)
Definition rewrite_markers (citation_map : gmap Z Z) (text : string) : string :=
  substitute_markers (bracketed (new_digits citation_map)) text.

(** No marker of the text has more digits than [int] reads. *)
Definition marker_within_limit (t : token) : bool :=
  match t with
  | TLit _ => true
  | TCite ds => (String.length ds <=? int_max_str_digits)%nat
  end.

Definition markers_within_limit (text : string) : bool :=
  forallb marker_within_limit (tokenize text).

(** [citation_map] numbers the values of [d] from 1, in the order of [d]. *)
Definition numbers_in_order (citation_map : gmap Z Z) (d : list Z) : Prop :=
  NoDup d ∧ size citation_map = length d ∧
  ∀ n v, citation_map !! n = Some v ↔
         ∃ k : nat, d !! k = Some n ∧ v = Z.of_nat k + 1.

(** The digits of a marker: at least one, and digits only. *)
Definition marker_digits (t : token) : Prop :=
  match t with
  | TLit _ => True
  | TCite ds => all_digits ds = true ∧ ds ≠ EmptyString
  end.

(** The passage a citation index stands for: the one at position [i - 1]
    when [1 <= i <= len(source_nodes)], none otherwise. *)
Definition cited_passage (source_nodes : list source_node) (i : Z)
  : option source_node :=
  if bool_decide (1 ≤ i ≤ Z.of_nat (length source_nodes))
  then source_nodes !! Z.to_nat (i - 1)
  else None.

(** The citation indices of the answer stored for [file_name]; none when
    nothing is stored for it. *)
Definition stored_citation_indices (extract_citation_indices : string → list Z)
           (st : session_state) (file_name : string) : list Z :=
  match default ∅ (document_responses st) !! file_name with
  | Some last_response => extract_citation_indices (response_answer last_response)
  | None => []
  end.

(** The path of a metadata entry or of an image record: its ['file_path'],
    or else its ['path']. *)
Definition entry_path (img : pydict) : pyval :=
  py_or (dict_get img "file_path") (dict_get img "path").

Definition is_dict (v : pyval) : Prop := ∃ d, v = VDict d.

(** An entry the metadata fallback of [process_source_for_images] accepts:
    an object whose ['file_path'] is one of the available images. *)
Definition indexed_entry (available_images : list string) (v : pyval) : Prop :=
  ∃ d file_path, v = VDict d ∧ dict_lookup "file_path" d = Some file_path
                 ∧ py_in_strs file_path available_images = true.

(** ** Resolution of a recorded image path, after section 4.3 of the spec *)

Section Resolution.

Variable IMAGES_PATH : string.
Variable fs : filesystem.
Variable doc_id : string.

(** The image directory of the document, the recorded file name in it, and
    the wildcard pattern built from the stem of the file name. *)
Definition document_directory : string := path_join IMAGES_PATH doc_id.

Definition exact_candidate (img_path : string) : string :=
  path_join document_directory (basename img_path).

Definition wildcard_pattern (img_path : string) : string :=
  path_join document_directory
            ("*" +:+ splitext_root (basename (basename img_path)) +:+ "*.jpg").

(** [resolves_to img_path (Some p)]: [img_path] resolves to [p] by the first
    step that succeeds; [resolves_to img_path None]: no step succeeds, the
    path is dropped. *)
Inductive resolves_to (img_path : string) : option string → Prop :=
  | by_absolute_path :
      os_path_exists fs (os_path_abspath fs img_path) = true →
      resolves_to img_path (Some (os_path_abspath fs img_path))
  | by_relative_path :
      os_path_exists fs (os_path_abspath fs img_path) = false →
      os_path_exists fs img_path = true →
      resolves_to img_path (Some img_path)
  | by_exact_name :
      os_path_exists fs (os_path_abspath fs img_path) = false →
      os_path_exists fs img_path = false →
      os_path_exists fs document_directory = true →
      os_path_exists fs (exact_candidate img_path) = true →
      resolves_to img_path (Some (exact_candidate img_path))
  | by_wildcard first_match others :
      os_path_exists fs (os_path_abspath fs img_path) = false →
      os_path_exists fs img_path = false →
      os_path_exists fs document_directory = true →
      os_path_exists fs (exact_candidate img_path) = false →
      glob_glob fs (wildcard_pattern img_path) = first_match :: others →
      resolves_to img_path (Some first_match)
  | unresolved_no_match :
      os_path_exists fs (os_path_abspath fs img_path) = false →
      os_path_exists fs img_path = false →
      os_path_exists fs document_directory = true →
      os_path_exists fs (exact_candidate img_path) = false →
      glob_glob fs (wildcard_pattern img_path) = [] →
      resolves_to img_path None
  | unresolved_no_directory :
      os_path_exists fs (os_path_abspath fs img_path) = false →
      os_path_exists fs img_path = false →
      os_path_exists fs document_directory = false →
      resolves_to img_path None.

End Resolution.

(** ** [ChatEngine.process_query] *)

(** The object the query engine returns: its [response] attribute when it
    has one (a string), [str(response)], and its [source_nodes] attribute
    when it has one. *)
Record query_response : Type := {
  resp_response : option string;
  resp_str : string;
  resp_source_nodes : option (list source_node);
}.

(** What [process_query] returns. *)
Record query_result : Type := {
  res_answer : string;
  res_sources : list source_node;
  res_images : list pydict;
}.

(** The exceptions the [try] of [process_query] can meet: the call of the
    engine raises; the log line of the second logging loop (lines 116-120,
    outside any inner [try]) raises on the value [bad] of a source; the
    renumbering raises; the image correlator raises. *)
Inductive query_failure : Type :=
  | EngineRaised (file_name prompt : string)
  | PreviewRaised (bad : pyval)
  | RenumberingRaised (e : exn)
  | CorrelatorRaised (e : exn).

(** Lines 116-120:
    [[
    meta = getattr(src, 'metadata', {})
    page = meta.get('page') if isinstance(meta, dict) else None
    text = getattr(src, 'text', '')
    Logger.info(f"... page {page}, length {len(text)}, preview: {text[:200].replace(...)}")
    ]]
    The f-string writes [page] first, then [len(text)] and
    [text[:200].replace(...)], which go through for a string only.  The
    value that makes the line raise, if any. *)
Definition preview_raises (src : source_node) : option pyval :=
  let page :=
    match default (VDict []) (src_metadata src) with
    | VDict meta => dict_get meta "page"
    | _ => VNone
    end in
  if py_writable page then
    match default (VStr EmptyString) (src_text src) with
    | VStr _ => None
    | text => Some text
    end
  else Some page.

(** Lines 146-149:
    [[
    if 'document_responses' not in st.session_state:
        st.session_state['document_responses'] = {}
    if file_name not in st.session_state['document_responses']:
        st.session_state['document_responses'][file_name] = {}
    ]] *)
Definition init_document_response (st : session_state) (file_name : string)
  : session_state :=
  let responses := default ∅ (document_responses st) in
  {| file_document_id := file_document_id st;
     document_responses :=
       Some (match responses !! file_name with
             | Some _ => responses
             | None => <[file_name := EmptyResponse]> responses
             end);
     document_image_map := document_image_map st |}.

(** Lines 155-161: [st.session_state['document_responses'][file_name] = ...] *)
Definition store_document_response (st : session_state) (file_name : string)
           (r : stored_response) : session_state :=
  {| file_document_id := file_document_id st;
     document_responses :=
       Some (<[file_name := r]> (default ∅ (document_responses st)));
     document_image_map := document_image_map st |}.

Definition error_result (message : string) : query_result :=
  {| res_answer := message; res_sources := []; res_images := [] |}.

Section ProcessQuery.

Variable json_loads : string → result pyval.
Variable IMAGES_PATH : string.
Variable fs : filesystem.
Variable extract_citation_indices : string → list Z.

(** [str(e)] of the exception the [except] clause catches. *)
Variable failure_text : query_failure → string.

(** [st.session_state.query_engine]: for each file name the [query] method
    of its engine; [None] is a call that raises. *)
Variable query_engine : gmap string (string → option query_response).

(** The body of the [try] once the engine has answered (lines 93-167): the
    outcome and the session state it leaves. *)
Definition process_response (st : session_state) (prompt file_name : string)
           (response : query_response) : (query_failure + query_result) * session_state :=
  let synthesized_answer := default (resp_str response) (resp_response response) in
  let source_nodes := default [] (resp_source_nodes response) in
  match head (omap preview_raises source_nodes) with
  | Some bad => (inl (PreviewRaised bad), st)
  | None =>
      match renumber_citations extract_citation_indices synthesized_answer with
      | Raise e => (inl (RenumberingRaised e), st)
      | Ok (synthesized_answer, _) =>
          let st := init_document_response st file_name in
          match _extract_images_from_sources json_loads IMAGES_PATH fs
                  extract_citation_indices st source_nodes file_name with
          | Raise e => (inl (CorrelatorRaised e), st)
          | Ok images =>
              (inr {| res_answer := synthesized_answer;
                      res_sources := source_nodes;
                      res_images := images |},
               store_document_response st file_name
                 (StoredResponse prompt synthesized_answer source_nodes images))
          end
      end
  end.

Definition process_query (st : session_state) (prompt file_name : string)
  : query_result * session_state :=
  match query_engine !! file_name with
  | None => (error_result "Error: File not loaded or processed correctly.", st)
  | Some query =>
      let '(outcome, st') :=
        match query prompt with
        | Some response => process_response st prompt file_name response
        | None => (inl (EngineRaised file_name prompt), st)
        end in
      match outcome with
      | inr result => (result, st')
      | inl e =>
          (error_result ("Error processing your query: " +:+ failure_text e), st')
      end
  end.

End ProcessQuery.

(** ** [src/ui/components.py]: the page label of [display_document_images] *)

(** [s.split(sep)] for a one-character separator; [cur] is the part being
    read. *)
Fixpoint split_from (sep : ascii) (cur s : string) : list string :=
  match s with
  | EmptyString => [cur]
  | String c r =>
      if Ascii.eqb c sep then cur :: split_from sep EmptyString r
      else split_from sep (cur +:+ String c EmptyString) r
  end.

Definition py_split (sep : ascii) (s : string) : list string :=
  split_from sep EmptyString s.

(** The digits of a decimal literal of [int(s)]: at least one digit, and
    single underscores between digits only. *)
Fixpoint int_digits (after_digit : bool) (acc : Z) (s : string) : option Z :=
  match s with
  | EmptyString => if after_digit then Some acc else None
  | String c r =>
      if is_digit c then int_digits true (10 * acc + digit_value c) r
      else if Ascii.eqb c "_" && after_digit then int_digits false acc r
      else None
  end.

(** [int(s)] for a string: surrounding white space is dropped, a sign may
    come first; [None] is [ValueError].  The limit of 4300 digits is left
    out here: the strings [page_label] reads are parts of the name of a file
    that exists (line 114), and a file name has at most 255 bytes. *)
Definition int_of_string (s : string) : option Z :=
  match int_rstrip (int_lstrip s) with
  | String c r =>
      if Ascii.eqb c "-" then Z.opp <$> int_digits false 0 r
      else if Ascii.eqb c "+" then int_digits false 0 r
      else int_digits false 0 (String c r)
  | EmptyString => None
  end.

(** Lines 116-124 of [display_document_images]:
    [[
    page_num = "Unknown"
    try:
        parts = os.path.basename(img_path).split('-')
        if len(parts) >= 2:
            page_part = parts[-2]
            page_num = int(page_part) + 1
    except Exception as e: ...
    ]]
    [None] is ["Unknown"]: fewer than two parts, or an exception, which the
    [except] clause swallows. *)
Definition page_label (img_path : string) : option Z :=
  let parts := py_split "-" (basename img_path) in
  if (2 <=? length parts)%nat then
    match py_index parts (-2) with
    | Ok page_part =>
        match int_of_string page_part with
        | Some n => Some (n + 1)
        | None => None
        end
    | Raise _ => None
    end
  else None.

(** ** More notions used to state the properties *)

(** A source as the retrieval library builds it: its text, when it has one,
    is a string, and its metadata, when it has one, is a dict whose
    ['images'] value, when there is one, is a string, and whose ['page']
    value, and the page number displayed for it, are within the limit of
    digits an f-string writes. *)
Definition well_typed_source (source : source_node) : Prop :=
  match src_text source with
  | Some text => ∃ s, text = VStr s
  | None => True
  end
  ∧ match src_metadata source with
    | Some metadata =>
        ∃ d, metadata = VDict d
             ∧ py_writable (dict_get d "page") = true
             ∧ int_writable (page_display (dict_get d "page")) = true
             ∧ match dict_lookup "images" d with
               | Some v => ∃ s, v = VStr s
               | None => True
               end
    | None => True
    end.

(** [json.loads] decodes the [images] text of the source, or rejects it as
    a text that is not JSON. *)
Definition images_text_decodes (json_loads : string → result pyval)
           (source : source_node) : Prop :=
  ∀ d s, src_metadata source = Some (VDict d) →
         dict_lookup "images" d = Some (VStr s) →
         (∃ v, json_loads s = Ok v) ∨ json_loads s = Raise JSONDecodeError.

(** No record has a ['file_path'] value equal to the one of a record before
    it; a record without the key counts with the value [None]. *)
Definition file_path_distinct (images : list pydict) : Prop :=
  ∀ pre img post, images = pre ++ img :: post →
                  has_file_path pre (dict_get img "file_path") = false.

(** A record of [process_source_for_images] for one of the images of
    [available_images]. *)
Definition available_image_record (available_images : list string)
           (img : pydict) : Prop :=
  ∃ path page_num, path ∈ available_images ∧ img = image_info (VStr path) page_num.

(** The record of the metadata block of the correlator for the entry [d]
    of the [images] metadata of the passage [source]: the list decoded from
    the JSON text holds [d], the path of [d] is truthy, and the record has
    that path and the caption of [d] (the empty string when [d] has none). *)
Definition metadata_record_of (json_loads : string → result pyval)
           (source : source_node) (img : pydict) : Prop :=
  ∃ meta s entries d,
    src_metadata source = Some (VDict meta)
    ∧ dict_lookup "images" meta = Some (VStr s)
    ∧ json_loads s = Ok (VList entries)
    ∧ VDict d ∈ entries
    ∧ py_truthy (entry_path d) = true
    ∧ img = [("file_path"%string, entry_path d);
             ("caption"%string, dict_get_default d "caption" (VStr EmptyString))].

(** A record of [process_source_for_images] for the passage [source]: one
    of the available images, with the caption of the page of [source]. *)
Definition source_record_of (available_images : list string)
           (source : source_node) (img : pydict) : Prop :=
  ∃ metadata path,
    src_metadata source = Some (VDict metadata)
    ∧ path ∈ available_images
    ∧ img = [("path"%string, VStr path);
             ("caption"%string,
              VStr ("Image from page "
                    +:+ py_str (page_display (dict_get metadata "page"))))].

(** ** More sample data *)

Module Sample2.

(** A passage with inline references to both images of the document. *)
Definition two_figures : source_node := {|
  src_text :=
    Some (VStr ("Left: ![](/app/images/doc1/a.jpg) "
                +:+ "Right: ![](/app/images/doc1/b-2-0_1743486037.jpg)"));
  src_metadata := Some (VDict [("page"%string, VInt 7)]);
|}.

(** A session in which nothing is stored for any file yet. *)
Definition fresh_session : session_state := {|
  file_document_id := {[ "paper.pdf"%string := "doc1"%string ]};
  document_responses := None;
  document_image_map :=
    Some {[ "doc1"%string := ["images/doc1/a.jpg"; "old/b-2-0.jpg"]%string ]};
|}.

(** An engine for [paper.pdf] that answers every prompt with three markers
    and three passages. *)
Definition response : query_response := {|
  resp_response := Some "The method [12] extends [4]; see [12] and [7]."%string;
  resp_str := "Response";
  resp_source_nodes :=
    Some [Sample.passage6; Sample.passage7; Sample.passage2];
|}.

Definition query_engine : gmap string (string → option query_response) :=
  {[ "paper.pdf"%string := λ _, Some response;
     "broken.pdf"%string := λ _, None ]}.

Definition failure_text (e : query_failure) : string :=
  match e with
  | EngineRaised _ _ => "engine failure"
  | PreviewRaised _ => "object of type 'NoneType' has no len()"
  | RenumberingRaised _ =>
      "Exceeds the limit (4300 digits) for integer string conversion"
  | CorrelatorRaised _ => "the JSON object must be str, bytes or bytearray, not list"
  end.

End Sample2.

(** [c in s] for a character [c]. *)
Fixpoint has_char (c : ascii) (s : string) : bool :=
  match s with
  | EmptyString => false
  | String x r => Ascii.eqb x c || has_char c r
  end.

(** ** Sample data beyond the limit of digits *)

Module Sample3.

(** 4301 digits: one more than [int] reads. *)
Definition long_number : string := string_of_list_ascii (repeat "1"%char 4301).

(** An answer with a marker of 4301 digits. *)
Definition long_marker_answer : string := "As shown in [" +:+ long_number +:+ "].".

Definition response : query_response := {|
  resp_response := Some long_marker_answer;
  resp_str := "Response";
  resp_source_nodes := Some [Sample.passage2];
|}.

Definition query_engine : gmap string (string → option query_response) :=
  {[ "paper.pdf"%string := λ _, Some response ]}.

(** [json.loads] on the texts of [Sample], and on the JSON text of an
    integer of 4301 digits, for which it raises [ValueError]. *)
Definition json_loads (s : string) : result pyval :=
  if String.eqb s long_number then Raise ValueError else Sample.json_loads s.

(** A passage without an inline image whose [images] metadata is the text
    of that integer. *)
Definition passage8 : source_node := {|
  src_text := Some (VStr "A table of constants.");
  src_metadata := Some (VDict [("page"%string, VInt 3);
                               ("images"%string, VStr long_number)]);
|}.

(** A helper that also reads the integer of a signed marker, as in [+2],
    on the two texts used below. *)
Definition signed_extract (text : string) : list Z :=
  if String.eqb text "[+2] and [5], [7]" then [2; 5; 7]
  else if String.eqb text "[+2] and [2], [3]" then [2; 3]
  else Source.extract_citation_indices text.

End Sample3.

(** * Properties *)

(** ** Strings *)

Lemma append_cons x (a b : string) : String x a +:+ b = String x (a +:+ b).
Proof. reflexivity. Qed.

Lemma append_nil_l (b : string) : EmptyString +:+ b = b.
Proof. reflexivity. Qed.

Lemma append_assoc (a b c : string) : (a +:+ b) +:+ c = a +:+ (b +:+ c).
Proof.
  induction a as [|x a IH]; [reflexivity|].
  rewrite !append_cons. by rewrite IH.
Qed.

Lemma length_append (a b : string) :
  String.length (a +:+ b) = (String.length a + String.length b)%nat.
Proof.
  induction a as [|x a IH]; [reflexivity|].
  rewrite append_cons. simpl. by rewrite IH.
Qed.

(** ** Decimal numerals *)

Lemma is_digit_not_open c : is_digit c = true → Ascii.eqb c "[" = false.
Proof.
  unfold is_digit. intros H. destruct (Ascii.eqb_spec c "[") as [->|]; [|done].
  vm_compute in H. discriminate.
Qed.

Lemma all_digits_append a b :
  all_digits (a +:+ b) = all_digits a && all_digits b.
Proof.
  induction a as [|x a IH]; [reflexivity|].
  rewrite append_cons. simpl. rewrite IH. by rewrite andb_assoc.
Qed.

Lemma string_of_uint_digits d : all_digits (NilEmpty.string_of_uint d) = true.
Proof. induction d; simpl; auto. Qed.

Lemma string_of_uint_empty d : NilEmpty.string_of_uint d = EmptyString → d = Decimal.Nil.
Proof. destruct d; simpl; congruence. Qed.

Lemma int_acc_of_uint_acc d acc :
  int_acc (Z.pos acc) (NilEmpty.string_of_uint d) = Z.pos (Pos.of_uint_acc d acc).
Proof.
  revert acc. induction d; intros acc; simpl; try reflexivity;
    match goal with
    | |- int_acc ?z _ = _ =>
        match goal with
        | |- _ = Z.pos (Pos.of_uint_acc _ ?q) =>
            replace z with (Z.pos q) by (unfold digit_value; simpl; lia)
        end
    end; apply IHd.
Qed.

Lemma int_acc_of_uint d :
  int_acc 0 (NilEmpty.string_of_uint d) = Z.of_N (Pos.of_uint d).
Proof.
  induction d; simpl; try reflexivity; try exact IHd;
    match goal with
    | |- int_acc ?z _ = _ => change z with (Z.pos 1) || change z with (Z.pos 2)
        || change z with (Z.pos 3) || change z with (Z.pos 4)
        || change z with (Z.pos 5) || change z with (Z.pos 6)
        || change z with (Z.pos 7) || change z with (Z.pos 8)
        || change z with (Z.pos 9)
    end; apply int_acc_of_uint_acc.
Qed.

Lemma py_str_digits n : 0 ≤ n → all_digits (py_str n) = true.
Proof.
  intros Hn. unfold py_str. destruct n as [|p|p]; [reflexivity| |lia].
  simpl. apply string_of_uint_digits.
Qed.

Lemma py_str_nonempty n : 0 ≤ n → py_str n ≠ EmptyString.
Proof.
  intros Hn. unfold py_str. destruct n as [|p|p]; [discriminate| |lia].
  simpl. intros H%string_of_uint_empty.
  by apply (Unsigned.to_uint_nonnil p).
Qed.

Lemma decimal_value_py_str n : 0 ≤ n → decimal_value (py_str n) = n.
Proof.
  intros Hn. unfold py_str, decimal_value. destruct n as [|p|p]; [reflexivity| |lia].
  simpl. rewrite int_acc_of_uint, Unsigned.of_to. reflexivity.
Qed.

Lemma digit_value_nonneg c : is_digit c = true → 0 ≤ digit_value c.
Proof.
  unfold is_digit, digit_value. intros [H1 H2]%andb_true_iff.
  apply N.leb_le in H1. lia.
Qed.

Lemma int_acc_nonneg s acc : all_digits s = true → 0 ≤ acc → 0 ≤ int_acc acc s.
Proof.
  revert acc. induction s as [|c s IH]; intros acc Hs Hacc; simpl in *; [done|].
  apply andb_true_iff in Hs as [Hc Hs]. apply IH; [done|].
  pose proof (digit_value_nonneg c Hc). lia.
Qed.

Lemma decimal_value_nonneg s : all_digits s = true → 0 ≤ decimal_value s.
Proof. intros Hs. by apply int_acc_nonneg. Qed.

(** ** The citation pattern *)

Lemma span_digits_spec s ds rest :
  span_digits s = (ds, rest) →
  s = ds +:+ rest ∧ all_digits ds = true ∧ starts_with_digit rest = false.
Proof.
  revert ds rest. induction s as [|c s IH]; intros ds rest; simpl.
  - intros [= <- <-]. done.
  - destruct (is_digit c) eqn:Hc.
    + destruct (span_digits s) as [ds' rest'] eqn:Hs. intros [= <- <-].
      destruct (IH _ _ eq_refl) as (-> & Hd & Hr).
      rewrite append_cons. simpl. rewrite Hc. done.
    + intros [= <- <-]. simpl. rewrite Hc. done.
Qed.

Lemma span_digits_append ds rest :
  all_digits ds = true → starts_with_digit rest = false →
  span_digits (ds +:+ rest) = (ds, rest).
Proof.
  induction ds as [|c ds IH]; intros Hd Hr.
  - rewrite append_nil_l. destruct rest as [|c r]; [done|].
    simpl in *. by rewrite Hr.
  - rewrite append_cons. simpl in *.
    apply andb_true_iff in Hd as [-> Hd]. by rewrite IH.
Qed.

Lemma match_citation_Some s ds rest :
  match_citation s = Some (ds, rest) ↔
  s = "[" +:+ ds +:+ "]" +:+ rest ∧ all_digits ds = true ∧ ds ≠ EmptyString.
Proof.
  split.
  - destruct s as [|c s]; [done|]. simpl.
    destruct (Ascii.eqb_spec c "[") as [->|]; [|done].
    destruct (span_digits s) as [[|d ds'] [|c' rest']] eqn:Hs; try done.
    destruct (Ascii.eqb_spec c' "]") as [->|]; [|done].
    intros [= <- <-]. apply span_digits_spec in Hs as (-> & Hd & _). done.
  - intros (-> & Hd & Hne). destruct ds as [|d ds]; [done|].
    change ("[" +:+ String d ds +:+ "]" +:+ rest)
      with (String "[" (String d ds +:+ String "]" rest)).
    unfold match_citation. rewrite Ascii.eqb_refl.
    rewrite span_digits_append by done. by rewrite Ascii.eqb_refl.
Qed.

Lemma match_citation_shorter s ds rest :
  match_citation s = Some (ds, rest) → (String.length rest < String.length s)%nat.
Proof.
  intros (-> & _ & _)%match_citation_Some. rewrite !length_append.
  change (String.length "[") with 1%nat. change (String.length "]") with 1%nat. lia.
Qed.

Lemma length_cons c s : String.length (String c s) = S (String.length s).
Proof. reflexivity. Qed.

Lemma tokenize_fuel_stable n m s :
  (String.length s ≤ n)%nat → (String.length s ≤ m)%nat →
  tokenize_fuel n s = tokenize_fuel m s.
Proof.
  revert m s. induction n as [|n IH]; intros m s Hn Hm.
  - destruct s as [|c s]; [by destruct m|]. rewrite length_cons in Hn. lia.
  - destruct s as [|c s]; [by destruct m|].
    destruct m as [|m]; [rewrite length_cons in Hm; lia|].
    cbn [tokenize_fuel].
    destruct (match_citation (String c s)) as [[ds rest]|] eqn:Hmatch.
    + apply match_citation_shorter in Hmatch as Hlen.
      rewrite length_cons in Hn, Hm, Hlen. f_equal. apply IH; lia.
    + rewrite length_cons in Hn, Hm. f_equal. apply IH; lia.
Qed.

Lemma tokenize_fuel_enough n s :
  (String.length s ≤ n)%nat → tokenize_fuel n s = tokenize s.
Proof. intros Hn. by apply tokenize_fuel_stable. Qed.

Lemma tokenize_nil : tokenize EmptyString = [].
Proof. reflexivity. Qed.

Lemma tokenize_cite s ds rest :
  match_citation s = Some (ds, rest) → tokenize s = TCite ds :: tokenize rest.
Proof.
  intros Hmatch. apply match_citation_shorter in Hmatch as Hlen.
  destruct s as [|c s]; [done|].
  rewrite length_cons in Hlen.
  unfold tokenize at 1. rewrite length_cons.
  cbn [tokenize_fuel]. rewrite Hmatch.
  f_equal. apply tokenize_fuel_enough. lia.
Qed.

Lemma tokenize_lit c s :
  match_citation (String c s) = None → tokenize (String c s) = TLit c :: tokenize s.
Proof.
  intros Hmatch. unfold tokenize at 1. rewrite length_cons.
  cbn [tokenize_fuel]. by rewrite Hmatch.
Qed.

Lemma tokenize_digit c s :
  is_digit c = true → tokenize (String c s) = TLit c :: tokenize s.
Proof.
  intros Hc. apply tokenize_lit. simpl. by rewrite is_digit_not_open.
Qed.

(** ** Rewriting the markers keeps the token structure *)

Section Rewriting.

Variable body : string → string.

Hypothesis body_digits : ∀ ds,
  all_digits ds = true → ds ≠ EmptyString →
  all_digits (body ds) = true ∧ body ds ≠ EmptyString.

Lemma substitute_markers_nil : substitute_markers (bracketed body) EmptyString = EmptyString.
Proof. reflexivity. Qed.

Lemma substitute_markers_cite s ds rest :
  match_citation s = Some (ds, rest) →
  substitute_markers (bracketed body) s
  = "[" +:+ body ds +:+ "]" +:+ substitute_markers (bracketed body) rest.
Proof.
  intros Hmatch. unfold substitute_markers. rewrite (tokenize_cite _ _ _ Hmatch).
  cbn [substitute]. unfold bracketed. by rewrite !append_assoc.
Qed.

Lemma substitute_markers_lit c s :
  match_citation (String c s) = None →
  substitute_markers (bracketed body) (String c s) = String c (substitute_markers (bracketed body) s).
Proof. intros Hmatch. unfold substitute_markers. by rewrite (tokenize_lit _ _ Hmatch). Qed.

Lemma substitute_markers_head s : head_char (substitute_markers (bracketed body) s) = head_char s.
Proof.
  destruct s as [|c s]; [done|].
  destruct (match_citation (String c s)) as [[ds rest]|] eqn:Hmatch.
  - rewrite (substitute_markers_cite _ _ _ Hmatch).
    apply match_citation_Some in Hmatch as (Hs & _). by rewrite Hs.
  - by rewrite substitute_markers_lit.
Qed.

Lemma substitute_markers_span s ds rest :
  span_digits s = (ds, rest) →
  substitute_markers (bracketed body) s = ds +:+ substitute_markers (bracketed body) rest.
Proof.
  revert ds rest. induction s as [|c s IH]; intros ds rest; simpl.
  - by intros [= <- <-].
  - destruct (is_digit c) eqn:Hc.
    + destruct (span_digits s) as [ds' rest'] eqn:Hs. intros [= <- <-].
      rewrite substitute_markers_lit by (simpl; by rewrite is_digit_not_open).
      rewrite (IH _ _ eq_refl). by rewrite append_cons.
    + by intros [= <- <-].
Qed.

Lemma starts_with_digit_head s t :
  head_char s = head_char t → starts_with_digit s = starts_with_digit t.
Proof. destruct s, t; simpl; congruence. Qed.

Lemma substitute_markers_no_match c s :
  match_citation (String c s) = None →
  match_citation (String c (substitute_markers (bracketed body) s)) = None.
Proof.
  simpl. destruct (Ascii.eqb c "["); [|done].
  destruct (span_digits s) as [ds rest] eqn:Hs.
  rewrite (substitute_markers_span _ _ _ Hs).
  apply span_digits_spec in Hs as (_ & Hd & Hr).
  rewrite span_digits_append; [|done|].
  2:{ rewrite <- Hr. apply starts_with_digit_head, substitute_markers_head. }
  destruct ds as [|d ds]; [done|].
  destruct rest as [|c' rest]; [by rewrite substitute_markers_nil|].
  pose proof (substitute_markers_head (String c' rest)) as Hhead.
  destruct (substitute_markers (bracketed body) (String c' rest)) as [|c'' rest'']; [done|].
  injection Hhead as ->. by destruct (Ascii.eqb c' "]").
Qed.

Lemma tokenize_substitute_markers s :
  tokenize (substitute_markers (bracketed body) s) = map (retag body) (tokenize s).
Proof using body_digits.
  remember (String.length s) as n eqn:Hn. revert s Hn.
  induction n as [n IH] using lt_wf_ind. intros s ->.
  destruct s as [|c s]; [done|].
  destruct (match_citation (String c s)) as [[ds rest]|] eqn:Hmatch.
  - rewrite (substitute_markers_cite _ _ _ Hmatch), (tokenize_cite _ _ _ Hmatch).
    apply match_citation_shorter in Hmatch as Hlen.
    apply match_citation_Some in Hmatch as (_ & Hd & Hne).
    destruct (body_digits ds Hd Hne) as [Hbd Hbne].
    rewrite (tokenize_cite _ (body ds) (substitute_markers (bracketed body) rest))
      by (by apply match_citation_Some).
    cbn [map retag]. f_equal. by apply (IH (String.length rest)).
  - rewrite (substitute_markers_lit _ _ Hmatch), (tokenize_lit _ _ Hmatch).
    rewrite tokenize_lit by (by apply substitute_markers_no_match).
    cbn [map retag]. f_equal. apply (IH (String.length s)); [|done].
    rewrite length_cons. lia.
Qed.

End Rewriting.

(** ** First occurrences *)

Lemma first_occurrences_from_cons d x l :
  Source.first_occurrences_from d (x :: l)
  = Source.first_occurrences_from (if decide (x ∈ d) then d else d ++ [x]) l.
Proof. reflexivity. Qed.

Lemma first_occurrences_from_app d l1 l2 :
  Source.first_occurrences_from d (l1 ++ l2)
  = Source.first_occurrences_from (Source.first_occurrences_from d l1) l2.
Proof. apply fold_left_app. Qed.

Lemma first_occurrences_from_spec d l :
  NoDup d →
  NoDup (Source.first_occurrences_from d l)
  ∧ (∀ x, x ∈ Source.first_occurrences_from d l ↔ x ∈ d ∨ x ∈ l)
  ∧ d `prefix_of` Source.first_occurrences_from d l.
Proof.
  revert d. induction l as [|x l IH]; intros d Hd.
  - split_and!; [done| |done]. intros x. rewrite elem_of_nil. tauto.
  - rewrite first_occurrences_from_cons. destruct (decide (x ∈ d)) as [Hx|Hx].
    + destruct (IH d Hd) as (Hnd & Hel & Hpre). split_and!; [done| |done].
      intros y. rewrite Hel, elem_of_cons. naive_solver.
    + assert (NoDup (d ++ [x])) as Hd'.
      { apply NoDup_app. split_and!; [done| |apply NoDup_singleton].
        intros y Hy ->%list_elem_of_singleton. done. }
      destruct (IH _ Hd') as (Hnd & Hel & Hpre). split_and!; [done| |].
      * intros y. rewrite Hel, elem_of_app, list_elem_of_singleton, elem_of_cons.
        tauto.
      * etrans; [|exact Hpre]. by apply prefix_app_r.
Qed.

Lemma first_occurrences_from_nodup d l :
  NoDup (d ++ l) → Source.first_occurrences_from d l = d ++ l.
Proof.
  revert d. induction l as [|x l IH]; intros d Hd.
  - by rewrite app_nil_r.
  - rewrite first_occurrences_from_cons.
    apply NoDup_app in Hd as Hd'. destruct Hd' as (_ & Hdisj & _).
    destruct (decide (x ∈ d)) as [Hx|Hx].
    + exfalso. apply (Hdisj x Hx). left.
    + rewrite IH; rewrite <- app_assoc; done.
Qed.

Lemma first_occurrences_from_map (f : Z → Z) d l :
  (∀ x y, x ∈ d ++ l → y ∈ d ++ l → f x = f y → x = y) →
  Source.first_occurrences_from (f <$> d) (f <$> l)
  = f <$> Source.first_occurrences_from d l.
Proof.
  revert d. induction l as [|x l IH]; intros d Hinj; [done|].
  rewrite fmap_cons, !first_occurrences_from_cons.
  destruct (decide (x ∈ d)) as [Hx|Hx].
  - rewrite decide_True by (by apply list_elem_of_fmap_2).
    apply IH. intros a b Ha Hb. apply Hinj; set_solver.
  - rewrite decide_False.
    + change [f x] with (f <$> [x]). rewrite <- fmap_app. apply IH.
      intros a b Ha Hb. apply Hinj; set_solver.
    + intros (y & Hxy & Hy)%list_elem_of_fmap.
      apply Hinj in Hxy; [by subst| set_solver | set_solver].
Qed.

(** ** The citation map *)

Lemma numbers_in_order_empty : numbers_in_order ∅ [].
Proof.
  split_and!; [apply NoDup_nil_2|done|].
  intros n v. rewrite lookup_empty. split; [done|].
  by intros (k & Hk & _).
Qed.

Lemma numbers_in_order_elem m d n :
  numbers_in_order m d → n ∈ d ↔ is_Some (m !! n).
Proof.
  intros (_ & _ & Hm). rewrite list_elem_of_lookup. split.
  - intros [k Hk]. exists (Z.of_nat k + 1). apply Hm. eauto.
  - intros [v (k & Hk & _)%Hm]. eauto.
Qed.

Lemma numbers_in_order_step m d x :
  numbers_in_order m d →
  numbers_in_order (citation_map_step m x) (if decide (x ∈ d) then d else d ++ [x]).
Proof.
  intros Hmd. pose proof (numbers_in_order_elem m d x Hmd) as Hx.
  destruct Hmd as (Hnd & Hsize & Hm). unfold citation_map_step.
  destruct (decide (x ∈ d)) as [Hin|Hin].
  - apply Hx in Hin as [v ->]. done.
  - destruct (m !! x) as [v|] eqn:Hmx; [exfalso; apply Hin, Hx; eauto|].
    split_and!.
    + apply NoDup_app. split_and!; [done| |apply NoDup_singleton].
      intros y Hy ->%list_elem_of_singleton. done.
    + rewrite map_size_insert_None by done. rewrite length_app. simpl. lia.
    + intros n v. destruct (decide (x = n)) as [<-|Hne].
      * rewrite lookup_insert_eq. split.
        -- intros [= <-]. exists (length d). split; [|lia].
           by rewrite list_lookup_middle.
        -- intros (k & Hk & ->). f_equal.
           destruct (decide (k < length d)%nat) as [Hlt|Hge].
           ++ rewrite lookup_app_l in Hk by done.
              exfalso. apply Hin. by eapply list_elem_of_lookup_2.
           ++ apply lookup_lt_Some in Hk. rewrite length_app in Hk.
              simpl in Hk. lia.
      * rewrite lookup_insert_ne by done. rewrite Hm. split.
        -- intros (k & Hk & ->). exists k. split; [|done].
           by apply lookup_app_l_Some.
        -- intros (k & Hk & ->). exists k. split; [|done].
           apply lookup_app_Some in Hk as [Hk|[_ Hk]]; [done|].
           apply list_lookup_singleton_Some in Hk as [_ ?]. done.
Qed.

Lemma numbers_in_order_fold l m d :
  numbers_in_order m d →
  numbers_in_order (fold_left citation_map_step l m)
                   (Source.first_occurrences_from d l).
Proof.
  revert m d. induction l as [|x l IH]; intros m d Hmd; [done|].
  rewrite first_occurrences_from_cons. simpl. by apply IH, numbers_in_order_step.
Qed.

Lemma build_citation_map_spec l :
  numbers_in_order (build_citation_map l) (Source.first_occurrences_from [] l).
Proof. apply numbers_in_order_fold, numbers_in_order_empty. Qed.

Lemma numbers_in_order_new_number m d k n :
  numbers_in_order m d → d !! k = Some n → new_number m n = Z.of_nat k + 1.
Proof.
  intros (_ & _ & Hm) Hk. unfold new_number.
  assert (m !! n = Some (Z.of_nat k + 1)) as -> by (apply Hm; eauto). done.
Qed.

Lemma numbers_in_order_nonneg m d n v :
  numbers_in_order m d → m !! n = Some v → 0 ≤ v.
Proof. intros (_ & _ & Hm) (k & _ & ->)%Hm. lia. Qed.

(** ** Renumbering *)

Lemma tokenize_fuel_marker_digits n s : Forall marker_digits (tokenize_fuel n s).
Proof.
  revert s. induction n as [|n IH]; intros s; [constructor|].
  destruct s as [|c s]; [constructor|]. cbn [tokenize_fuel].
  destruct (match_citation (String c s)) as [[ds rest]|] eqn:Hmatch.
  - constructor; [|apply IH].
    by apply match_citation_Some in Hmatch as (_ & ? & ?).
  - constructor; [done|apply IH].
Qed.

Lemma tokenize_marker_digits s : Forall marker_digits (tokenize s).
Proof. apply tokenize_fuel_marker_digits. Qed.

Lemma py_int_within_limit ds :
  (String.length ds ≤ int_max_str_digits)%nat → py_int ds = Ok (decimal_value ds).
Proof. intros Hlen. unfold py_int. by apply Nat.leb_le in Hlen as ->. Qed.

Lemma py_int_beyond_limit ds :
  (int_max_str_digits < String.length ds)%nat → py_int ds = Raise ValueError.
Proof. intros Hlen. unfold py_int. by apply Nat.leb_gt in Hlen as ->. Qed.

Lemma replace_citation_within_limit m ds :
  (String.length ds ≤ int_max_str_digits)%nat →
  replace_citation m ds = Ok (bracketed (new_digits m) ds).
Proof.
  intros Hlen. unfold replace_citation. by rewrite py_int_within_limit.
Qed.

Lemma replace_citation_beyond_limit m ds :
  (int_max_str_digits < String.length ds)%nat →
  replace_citation m ds = Raise ValueError.
Proof.
  intros Hlen. unfold replace_citation. by rewrite py_int_beyond_limit.
Qed.

Lemma render_within_limit m ts :
  forallb marker_within_limit ts = true →
  render (replace_citation m) ts = Ok (substitute (bracketed (new_digits m)) ts).
Proof.
  induction ts as [|t ts IH]; [done|]. cbn [forallb].
  intros [Ht Hts]%andb_true_iff. destruct t as [c|ds]; cbn [render substitute].
  - by rewrite IH.
  - apply Nat.leb_le in Ht. rewrite replace_citation_within_limit by done.
    by rewrite IH.
Qed.

Lemma render_beyond_limit m ts :
  forallb marker_within_limit ts = false →
  render (replace_citation m) ts = Raise ValueError.
Proof.
  induction ts as [|t ts IH]; [done|]. cbn [forallb].
  destruct t as [c|ds]; cbn [render marker_within_limit andb].
  - intros Hts. by rewrite IH.
  - destruct (Nat.leb_spec (String.length ds) int_max_str_digits) as [Hle|Hgt].
    + cbn [andb]. intros Hts. rewrite replace_citation_within_limit by done.
      by rewrite IH.
    + intros _. by rewrite replace_citation_beyond_limit.
Qed.

Lemma renumber_citations_within_limit extract text :
  markers_within_limit text = true →
  renumber_citations extract text
  = Ok (rewrite_markers (build_citation_map (extract text)) text,
        build_citation_map (extract text)).
Proof.
  intros Hlimit. unfold renumber_citations, re_sub.
  by rewrite render_within_limit.
Qed.

Lemma renumber_citations_beyond_limit extract text :
  markers_within_limit text = false →
  renumber_citations extract text = Raise ValueError.
Proof.
  intros Hlimit. unfold renumber_citations, re_sub.
  by rewrite render_beyond_limit.
Qed.

Lemma renumber_citations_Ok extract text rewritten citation_map :
  renumber_citations extract text = Ok (rewritten, citation_map) →
  markers_within_limit text = true
  ∧ citation_map = build_citation_map (extract text)
  ∧ rewritten = rewrite_markers citation_map text.
Proof.
  destruct (markers_within_limit text) eqn:Hlimit.
  - rewrite renumber_citations_within_limit by done. by intros [= <- <-].
  - by rewrite renumber_citations_beyond_limit.
Qed.

Lemma new_number_nonneg m d n :
  numbers_in_order m d → 0 ≤ n → 0 ≤ new_number m n.
Proof.
  intros Hmd Hn. unfold new_number.
  destruct (m !! n) as [v|] eqn:Hv; [|done].
  by eapply numbers_in_order_nonneg.
Qed.

Lemma new_digits_marker m d ds :
  numbers_in_order m d → all_digits ds = true → ds ≠ EmptyString →
  all_digits (new_digits m ds) = true ∧ new_digits m ds ≠ EmptyString.
Proof.
  intros Hmd Hds _.
  pose proof (new_number_nonneg m d _ Hmd (decimal_value_nonneg ds Hds)).
  split; [by apply py_str_digits | by apply py_str_nonempty].
Qed.

Lemma decimal_value_new_digits m d ds :
  numbers_in_order m d → all_digits ds = true →
  decimal_value (new_digits m ds) = new_number m (decimal_value ds).
Proof.
  intros Hmd Hds. apply decimal_value_py_str.
  eapply new_number_nonneg; [done|]. by apply decimal_value_nonneg.
Qed.

Lemma tokenize_renumbered m d s :
  numbers_in_order m d →
  tokenize (rewrite_markers m s) = retag (new_digits m) <$> tokenize s.
Proof.
  intros Hmd. apply tokenize_substitute_markers.
  intros ds. by apply new_digits_marker with d.
Qed.

Lemma cited_numbers_renumbered m d s :
  numbers_in_order m d →
  cited_numbers (rewrite_markers m s) = new_number m <$> cited_numbers s.
Proof.
  intros Hmd. unfold cited_numbers. rewrite (tokenize_renumbered m d) by done.
  induction (tokenize_marker_digits s) as [|t ts Ht _ IH]; [done|].
  destruct t as [c|ds]; cbn; [done|].
  destruct Ht as [Hds _]. rewrite (decimal_value_new_digits m d) by done.
  f_equal. exact IH.
Qed.

Lemma first_occurrence_index pre n post :
  n ∉ pre →
  Source.first_occurrences_from [] (pre ++ n :: post)
    !! length (Source.first_occurrences_from [] pre) = Some n.
Proof.
  intros Hn. rewrite first_occurrences_from_app, first_occurrences_from_cons.
  destruct (first_occurrences_from_spec [] pre) as (Hnd & Hel & _);
    [apply NoDup_nil_2|].
  rewrite decide_False by (rewrite Hel, elem_of_nil; tauto).
  assert (NoDup (Source.first_occurrences_from [] pre ++ [n])) as Hnd'.
  { apply NoDup_app. split_and!; [done| |apply NoDup_singleton].
    intros y Hy ->%list_elem_of_singleton. apply Hel in Hy. rewrite elem_of_nil in Hy.
    tauto. }
  destruct (first_occurrences_from_spec _ post Hnd') as (_ & _ & [ext ->]).
  rewrite <- app_assoc. simpl. by apply list_lookup_middle.
Qed.

Lemma first_occurrences_length l :
  length (Source.first_occurrences_from [] l) = size (list_to_set l : gset Z).
Proof.
  destruct (first_occurrences_from_spec [] l) as (Hnd & Hel & _);
    [apply NoDup_nil_2|].
  rewrite <- (size_list_to_set (C:=gset Z)) by done. f_equal.
  apply set_eq. intros x. rewrite !elem_of_list_to_set, Hel, elem_of_nil. tauto.
Qed.

Lemma extract_citation_indices_spec text :
  numbers_in_order (build_citation_map (Source.extract_citation_indices text))
                   (Source.extract_citation_indices text).
Proof.
  pose proof (build_citation_map_spec (Source.extract_citation_indices text)) as H.
  rewrite first_occurrences_from_nodup in H; [done|].
  rewrite app_nil_l. unfold Source.extract_citation_indices.
  apply first_occurrences_from_spec, NoDup_nil_2.
Qed.

(** C1.  Citation renumbering, for every answer text whose markers have at
    most 4300 digits, the most [int] reads.  The citation indices are the
    distinct bracketed integers of the text; the citation map sends the
    index at (0-based) position [k] of their first-occurrence order to
    [k + 1], that is, an integer whose first occurrence comes after [pre] is
    sent to one more than the number of distinct integers in [pre]; the
    rewritten text has the tokens of the text, each marker carrying the
    mapped value of its integer.  For markers [3], [1], [3], [2] in that
    order the map is {3:1, 1:2, 2:3} and the rewritten markers are [1], [2],
    [1], [3]. *)
Theorem citation_renumbering_first_occurrence (text : string) :
  markers_within_limit text = true →
  let citation_indices := Source.extract_citation_indices text in
  ∃ rewritten citation_map,
    renumber_citations Source.extract_citation_indices text
    = Ok (rewritten, citation_map)
    ∧ (NoDup citation_indices ∧ ∀ n, n ∈ citation_indices ↔ n ∈ cited_numbers text)
    ∧ (∀ n v, citation_map !! n = Some v ↔
              ∃ k : nat, citation_indices !! k = Some n ∧ v = Z.of_nat k + 1)
    ∧ (∀ pre n post, cited_numbers text = pre ++ n :: post → n ∉ pre →
         citation_map !! n = Some (Z.of_nat (size (list_to_set pre : gset Z)) + 1))
    ∧ tokenize rewritten = retag (new_digits citation_map) <$> tokenize text
    ∧ cited_numbers rewritten = new_number citation_map <$> cited_numbers text
    ∧ (cited_numbers text = [3; 1; 3; 2] →
         citation_map = {[ 3 := 1; 1 := 2; 2 := 3 ]}
         ∧ cited_numbers rewritten = [1; 2; 1; 3]).
Proof.
  intros Hlimit. cbn zeta.
  rewrite renumber_citations_within_limit by done.
  pose proof (extract_citation_indices_spec text) as Hspec.
  set (m := build_citation_map (Source.extract_citation_indices text)) in *.
  exists (rewrite_markers m text), m. split; [done|].
  destruct (first_occurrences_from_spec [] (cited_numbers text))
    as (Hnd & Hel & _); [apply NoDup_nil_2|].
  split_and!.
  - exact Hnd.
  - intros n. unfold Source.extract_citation_indices.
    rewrite Hel, elem_of_nil. tauto.
  - by destruct Hspec as (_ & _ & Hm).
  - intros pre n post Hcited Hn. destruct Hspec as (_ & _ & Hm). apply Hm.
    exists (length (Source.first_occurrences_from [] pre)). split.
    + unfold Source.extract_citation_indices. rewrite Hcited.
      by apply first_occurrence_index.
    + by rewrite first_occurrences_length.
  - by apply tokenize_renumbered with (Source.extract_citation_indices text).
  - by apply cited_numbers_renumbered with (Source.extract_citation_indices text).
  - intros Hcited.
    rewrite (cited_numbers_renumbered m (Source.extract_citation_indices text))
      by done.
    subst m. unfold Source.extract_citation_indices. rewrite Hcited.
    split; vm_compute; reflexivity.
Qed.

Lemma citation_renumbering_first_occurrence_witness :
  markers_within_limit "As shown [3], and in [1]; again [3], then [2]." = true
  ∧ cited_numbers "As shown [3], and in [1]; again [3], then [2]." = [3; 1; 3; 2]
  ∧ ∃ rewritten citation_map,
      renumber_citations Source.extract_citation_indices
        "As shown [3], and in [1]; again [3], then [2]."
      = Ok (rewritten, citation_map)
      ∧ citation_map = {[ 3 := 1; 1 := 2; 2 := 3 ]}
      ∧ cited_numbers rewritten = [1; 2; 1; 3].
Proof.
  split; [vm_compute; reflexivity|]. split; [vm_compute; reflexivity|].
  destruct (citation_renumbering_first_occurrence
              "As shown [3], and in [1]; again [3], then [2].")
    as (rewritten & citation_map & Hrun & _ & _ & _ & _ & _ & Hexample);
    [vm_compute; reflexivity|].
  exists rewritten, citation_map. split; [exact Hrun|].
  apply Hexample. vm_compute. reflexivity.
Defined.

(** ** Renumbering twice *)

Lemma new_numbers_consecutive m d :
  numbers_in_order m d → new_number m <$> d = seqZ 1 (Z.of_nat (length d)).
Proof.
  intros Hmd. apply list_eq. intros k. rewrite list_lookup_fmap.
  destruct (d !! k) as [n|] eqn:Hk; simpl.
  - rewrite (numbers_in_order_new_number m d k n) by done.
    apply lookup_lt_Some in Hk as Hlt.
    symmetry. rewrite lookup_seqZ. split; lia.
  - apply lookup_ge_None in Hk. symmetry. apply lookup_seqZ_ge. lia.
Qed.

Section Idempotence.

(** Any extraction helper that lists the bracketed integers of a text so
    that their first occurrences are the ones of the text. *)
Variable extract_citation_indices : string → list Z.

Hypothesis extract_first_occurrences : ∀ text,
  Source.first_occurrences_from [] (extract_citation_indices text)
  = Source.first_occurrences_from [] (cited_numbers text).

Lemma substitute_renumbered_twice m1 m2 d1 ts :
  numbers_in_order m1 d1 → (∀ v, new_number m2 v = v) →
  Forall marker_digits ts →
  substitute (bracketed (new_digits m2)) (retag (new_digits m1) <$> ts)
  = substitute (bracketed (new_digits m1)) ts.
Proof.
  intros Hm1 Hm2 Hts. induction Hts as [|t ts Ht _ IH]; [done|].
  destruct t as [c|ds]; cbn [fmap list_fmap retag substitute]; [by rewrite IH|].
  destruct Ht as [Hds _]. rewrite IH. f_equal.
  unfold bracketed, new_digits at 1.
  rewrite Hm2, (decimal_value_new_digits m1 d1) by done. reflexivity.
Qed.

Lemma second_citation_map text :
  let m1 := build_citation_map (extract_citation_indices text) in
  let once := rewrite_markers m1 text in
  let m2 := build_citation_map (extract_citation_indices once) in
  numbers_in_order m1 (Source.first_occurrences_from [] (cited_numbers text))
  ∧ Source.first_occurrences_from [] (cited_numbers once)
    = seqZ 1 (Z.of_nat (size m1))
  ∧ ∀ v, new_number m2 v = v.
Proof using extract_first_occurrences.
  cbn zeta.
  set (m1 := build_citation_map (extract_citation_indices text)).
  set (d1 := Source.first_occurrences_from [] (cited_numbers text)).
  assert (numbers_in_order m1 d1) as Hm1.
  { subst m1 d1. rewrite <- extract_first_occurrences.
    apply build_citation_map_spec. }
  split; [done|].
  set (t1 := rewrite_markers m1 text).
  set (m2 := build_citation_map (extract_citation_indices t1)).
  assert (Source.first_occurrences_from [] (cited_numbers t1)
          = new_number m1 <$> d1) as Hd2.
  { subst t1. rewrite (cited_numbers_renumbered m1 d1) by done.
    change (@nil Z) with (new_number m1 <$> @nil Z).
    rewrite first_occurrences_from_map; [done|].
    intros x y Hx Hy Hxy. rewrite app_nil_l in Hx, Hy.
    destruct (first_occurrences_from_spec [] (cited_numbers text))
      as (_ & Hel & _); [apply NoDup_nil_2|].
    assert (x ∈ d1) as [kx Hkx]%list_elem_of_lookup by (apply Hel; by right).
    assert (y ∈ d1) as [ky Hky]%list_elem_of_lookup by (apply Hel; by right).
    rewrite (numbers_in_order_new_number m1 d1 kx x) in Hxy by done.
    rewrite (numbers_in_order_new_number m1 d1 ky y) in Hxy by done.
    assert (kx = ky) as -> by lia. congruence. }
  split.
  { rewrite Hd2, (new_numbers_consecutive m1 d1) by done.
    destruct Hm1 as (_ & -> & _). done. }
  assert (numbers_in_order m2 (new_number m1 <$> d1)) as Hm2.
  { pose proof (build_citation_map_spec (extract_citation_indices t1)) as H.
    by rewrite extract_first_occurrences, Hd2 in H. }
  intros v. unfold new_number. destruct (m2 !! v) as [w|] eqn:Hw; [|done].
  destruct Hm2 as (_ & _ & Hm2). apply Hm2 in Hw as (k & Hk & ->).
  apply list_lookup_fmap_Some in Hk as (n & -> & Hn).
  simpl. symmetry. by eapply numbers_in_order_new_number.
Qed.

Lemma rewrite_markers_idempotent text :
  let once := rewrite_markers (build_citation_map (extract_citation_indices text))
                              text in
  rewrite_markers (build_citation_map (extract_citation_indices once)) once = once.
Proof using extract_first_occurrences.
  cbn zeta. destruct (second_citation_map text) as (Hm1 & _ & Hm2).
  set (m1 := build_citation_map (extract_citation_indices text)) in *.
  set (d1 := Source.first_occurrences_from [] (cited_numbers text)) in *.
  unfold rewrite_markers at 1, substitute_markers at 1.
  rewrite (tokenize_renumbered m1 d1) by done.
  apply (substitute_renumbered_twice m1 _ d1); [done|done|].
  apply tokenize_marker_digits.
Qed.

End Idempotence.

Lemma extract_first_occurrences_unchanged text :
  Source.first_occurrences_from [] (Source.extract_citation_indices text)
  = Source.first_occurrences_from [] (cited_numbers text).
Proof.
  unfold Source.extract_citation_indices.
  apply first_occurrences_from_nodup. rewrite app_nil_l.
  apply first_occurrences_from_spec, NoDup_nil_2.
Qed.

Lemma extract_renumbered text :
  Source.extract_citation_indices
    (rewrite_markers (build_citation_map (Source.extract_citation_indices text))
                     text)
  = seqZ 1 (Z.of_nat (length (Source.extract_citation_indices text))).
Proof.
  pose proof (extract_citation_indices_spec text) as Hspec.
  set (d := Source.extract_citation_indices text) in *.
  unfold Source.extract_citation_indices at 1.
  rewrite (cited_numbers_renumbered _ d) by done.
  change (@nil Z) with (new_number (build_citation_map d) <$> @nil Z).
  rewrite first_occurrences_from_map.
  - fold (Source.extract_citation_indices text). fold d.
    by apply new_numbers_consecutive.
  - intros x y Hx Hy Hxy. rewrite app_nil_l in Hx, Hy.
    destruct (first_occurrences_from_spec [] (cited_numbers text))
      as (_ & Hel & _); [apply NoDup_nil_2|].
    assert (x ∈ d) as [kx Hkx]%list_elem_of_lookup by (apply Hel; by right).
    assert (y ∈ d) as [ky Hky]%list_elem_of_lookup by (apply Hel; by right).
    rewrite (numbers_in_order_new_number _ d kx x) in Hxy by done.
    rewrite (numbers_in_order_new_number _ d ky y) in Hxy by done.
    assert (kx = ky) as -> by lia. congruence.
Qed.

(** ** Cited passages *)

Lemma py_index_in_range {A} (l : list A) k :
  0 ≤ k < Z.of_nat (length l) →
  ∃ x, l !! Z.to_nat k = Some x ∧ py_index l k = Ok x.
Proof.
  intros Hk. unfold py_index.
  destruct (k <? 0) eqn:Hneg; [apply Z.ltb_lt in Hneg; lia|].
  assert ((0 <=? k) && (k <? Z.of_nat (length l)) = true) as ->.
  { apply andb_true_iff. split; [apply Z.leb_le|apply Z.ltb_lt]; lia. }
  destruct (lookup_lt_is_Some_2 l (Z.to_nat k)) as [x Hx]; [lia|].
  exists x. by rewrite Hx.
Qed.

Lemma cite_source_spec source_nodes cited_sources idx :
  cite_source source_nodes cited_sources idx
  = Ok (cited_sources ++ option_list (cited_passage source_nodes idx)).
Proof.
  unfold cite_source, cited_passage.
  destruct (decide (1 ≤ idx ≤ Z.of_nat (length source_nodes))) as [Hin|Hout].
  - rewrite bool_decide_eq_true_2 by done.
    assert ((1 <=? idx) && (idx <=? Z.of_nat (length source_nodes)) = true) as ->.
    { apply andb_true_iff. split; apply Z.leb_le; lia. }
    destruct (py_index_in_range source_nodes (idx - 1)) as (x & -> & ->); [lia|].
    done.
  - rewrite bool_decide_eq_false_2 by done.
    assert ((1 <=? idx) && (idx <=? Z.of_nat (length source_nodes)) = false) as ->.
    { apply andb_false_iff.
      destruct (decide (1 ≤ idx)); [right|left]; apply Z.leb_gt; lia. }
    by rewrite app_nil_r.
Qed.

Lemma select_cited_sources_spec source_nodes cited_indices cited_sources :
  select_cited_sources source_nodes cited_indices cited_sources
  = Ok (cited_sources ++ omap (cited_passage source_nodes) cited_indices).
Proof.
  revert cited_sources.
  induction cited_indices as [|idx rest IH]; intros cited_sources.
  - by rewrite app_nil_r.
  - cbn [select_cited_sources]. rewrite cite_source_spec. cbn. rewrite IH.
    rewrite <- app_assoc. by destruct (cited_passage source_nodes idx).
Qed.

Lemma cited_in_stored_answer_spec extract st source_nodes file_name :
  cited_in_stored_answer extract st source_nodes file_name
  = Ok (stored_citation_indices extract st file_name,
        omap (cited_passage source_nodes)
             (stored_citation_indices extract st file_name)).
Proof.
  unfold cited_in_stored_answer, stored_citation_indices.
  destruct (default ∅ (document_responses st) !! file_name) as [r|]; [|done].
  by rewrite select_cited_sources_spec.
Qed.

(** C2.  For every list of source passages and every list of citation
    indices, the loop of lines 220-223 never raises and keeps, in order, the
    passage at position [i - 1] for exactly the indices [i] with
    [1 <= i <= len(source_nodes)]; the other indices are dropped.  This is
    what the correlator does with the indices of the stored answer, whatever
    the extraction helper returns.  With two passages and the indices
    [1, 2, 5] only the two passages are kept. *)
Theorem cited_sources_in_range (source_nodes : list source_node)
        (cited_indices : list Z) :
  select_cited_sources source_nodes cited_indices []
  = Ok (omap (cited_passage source_nodes) cited_indices)
  ∧ (∀ i, is_Some (cited_passage source_nodes i)
          ↔ 1 ≤ i ≤ Z.of_nat (length source_nodes))
  ∧ (∀ i p, cited_passage source_nodes i = Some p
            ↔ 1 ≤ i ≤ Z.of_nat (length source_nodes)
              ∧ source_nodes !! Z.to_nat (i - 1) = Some p)
  ∧ (∀ extract st file_name,
       cited_in_stored_answer extract st source_nodes file_name
       = Ok (stored_citation_indices extract st file_name,
             omap (cited_passage source_nodes)
                  (stored_citation_indices extract st file_name)))
  ∧ (∀ p1 p2, select_cited_sources [p1; p2] [1; 2; 5] [] = Ok [p1; p2]).
Proof.
  split_and!.
  - by rewrite select_cited_sources_spec.
  - intros i. unfold cited_passage. case_bool_decide as Hi.
    + split; [done|]. intros _. apply lookup_lt_is_Some_2. lia.
    + split; [by intros [? ?]|done].
  - intros i p. unfold cited_passage. case_bool_decide as Hi; [tauto|].
    split; [done|tauto].
  - intros. apply cited_in_stored_answer_spec.
  - reflexivity.
Qed.

(** C3.  When no citation index of the stored answer is in range, which
    includes the case of no citation index at all, the correlator returns
    the empty image list, whatever the passages hold. *)
Theorem no_cited_passage_no_images
        (json_loads : string → result pyval) (IMAGES_PATH : string)
        (fs : filesystem) (extract : string → list Z)
        (st : session_state) (source_nodes : list source_node)
        (file_name : string) :
  (∀ i, i ∈ stored_citation_indices extract st file_name →
        ¬ (1 ≤ i ≤ Z.of_nat (length source_nodes))) →
  _extract_images_from_sources json_loads IMAGES_PATH fs extract
                               st source_nodes file_name = Ok [].
Proof.
  intros Hout. unfold _extract_images_from_sources.
  case_bool_decide; [done|].
  destruct (file_document_id st !! file_name) as [doc_id|]; [|done].
  destruct (String.eqb doc_id EmptyString); [done|].
  rewrite cited_in_stored_answer_spec. cbn.
  assert (omap (cited_passage source_nodes)
               (stored_citation_indices extract st file_name) = []) as ->.
  { induction (stored_citation_indices extract st file_name) as [|i l IH];
      [done|].
    cbn. unfold cited_passage at 1.
    rewrite bool_decide_eq_false_2 by (apply Hout; left).
    apply IH. intros j Hj. apply Hout. by right. }
  by destruct (bool_decide (stored_citation_indices extract st file_name = [])).
Qed.

Lemma no_cited_passage_no_images_witness :
  _extract_images_from_sources Sample.json_loads Sample.IMAGES_PATH Sample.fs
    Source.extract_citation_indices (Sample.session "As discussed in [7].")
    [Sample.passage1; Sample.passage2] "paper.pdf" = Ok []
  ∧ _extract_images_from_sources Sample.json_loads Sample.IMAGES_PATH Sample.fs
      Source.extract_citation_indices (Sample.session "No marker at all.")
      [Sample.passage1; Sample.passage2] "paper.pdf" = Ok [].
Proof.
  split; apply no_cited_passage_no_images; intros i Hi; vm_compute in Hi.
  - apply list_elem_of_singleton in Hi as ->. simpl. lia.
  - by apply elem_of_nil in Hi.
Defined.

(** ** [process_source_for_images] *)

(** C10.  A source object without a [text] attribute or without a
    [metadata] attribute yields the empty list, and nothing is raised,
    whatever the document identifier and the available images. *)
Theorem source_without_attributes (json_loads : string → result pyval)
        (source : source_node) (current_doc_id : string)
        (available_images : list string) :
  src_text source = None ∨ src_metadata source = None →
  process_source_for_images json_loads source current_doc_id available_images
  = Ok [].
Proof.
  intros [H|H]; unfold process_source_for_images; rewrite H; [|done].
  by destruct (src_metadata source).
Qed.

Lemma source_without_attributes_witness :
  process_source_for_images Sample.json_loads
    {| src_text := None;
       src_metadata := Some (VDict [("images"%string, VInt 3)]) |}
    "doc1" ["/app/images/doc1/a.jpg"%string] = Ok []
  ∧ process_source_for_images Sample.json_loads
      {| src_text := Some (VStr "![](/app/images/doc1/a.jpg)");
         src_metadata := None |}
      "doc1" ["/app/images/doc1/a.jpg"%string] = Ok [].
Proof.
  split; apply source_without_attributes; simpl; [by left | by right].
Defined.

(** ** Captions *)

Lemma image_info_caption path page_num :
  dict_lookup "caption" (image_info path page_num)
  = Some (VStr ("Image from page " +:+ py_str (page_display page_num))).
Proof. reflexivity. Qed.

Lemma images_of_reference_info page_num available_images img_path :
  Forall (λ img, ∃ path, img = image_info path page_num)
         (images_of_reference page_num available_images img_path).
Proof.
  unfold images_of_reference. case_bool_decide.
  - repeat constructor. eauto.
  - destruct (find _ available_images); repeat constructor. eauto.
Qed.

Lemma written_with_page_Ok page_num images result :
  written_with_page page_num images = Ok result →
  result = images
  ∧ (images = [] ∨ int_writable (page_display page_num) = true).
Proof.
  unfold written_with_page. case_bool_decide as Hnil; cbn [orb].
  - intros [= <-]. auto.
  - destruct (int_writable _); [|done]. intros [= <-]. auto.
Qed.

Lemma written_with_page_writable page_num images :
  int_writable (page_display page_num) = true →
  written_with_page page_num images = Ok images.
Proof. intros Hpage. unfold written_with_page. by rewrite Hpage, orb_true_r. Qed.

Lemma written_with_page_nil page_num : written_with_page page_num [] = Ok [].
Proof. reflexivity. Qed.

Lemma images_of_text_info text page_num available_images images :
  images_of_text text page_num available_images = Ok images →
  Forall (λ img, ∃ path, img = image_info path page_num) images.
Proof.
  unfold images_of_text. destruct (py_truthy text); [|by intros [= <-]].
  destruct text as [| | |s| |]; try done.
  intros [-> _]%written_with_page_Ok.
  induction (findall_image_refs s) as [|r rs IH]; [constructor|].
  cbn [flat_map]. apply Forall_app. split; [|exact IH].
  apply images_of_reference_info.
Qed.

Lemma first_metadata_image_info page_num available_images image_list :
  Forall (λ img, ∃ path, img = image_info path page_num)
         (first_metadata_image page_num available_images image_list).
Proof.
  induction image_list as [|e rest IH]; [constructor|].
  destruct e as [| | | | |d]; cbn [first_metadata_image]; try exact IH.
  destruct (dict_lookup "file_path" d) as [fp|]; [|exact IH].
  destruct (py_in_strs fp available_images); [|exact IH].
  repeat constructor. eauto.
Qed.

Lemma images_of_metadata_info json_loads metadata page_num available_images images :
  images_of_metadata json_loads metadata page_num available_images = Ok images →
  Forall (λ img, ∃ path, img = image_info path page_num) images.
Proof.
  unfold images_of_metadata.
  destruct (py_json_loads json_loads (dict_get metadata "images"))
    as [[| | | |l|]|[]]; try done; try (intros [= <-]; constructor).
  intros [-> _]%written_with_page_Ok.
  apply first_metadata_image_info.
Qed.

Lemma process_source_for_images_info json_loads source doc_id available_images images :
  process_source_for_images json_loads source doc_id available_images = Ok images →
  images = [] ∨
  ∃ metadata, src_metadata source = Some (VDict metadata)
    ∧ Forall (λ img, ∃ path, img = image_info path (dict_get metadata "page")) images.
Proof.
  unfold process_source_for_images.
  destruct (src_metadata source) as [[| | | | |metadata]|]; try done;
    try (destruct (src_text source); by (intros [= <-]; left)); try by destruct (src_text source).
  destruct (src_text source) as [text|]; [|intros [= <-]; by left].
  destruct (py_writable (dict_get metadata "page")); [|done].
  destruct (images_of_text text (dict_get metadata "page") available_images)
    as [imgs|e] eqn:Htext; [|done].
  cbn. intros Hres. right. exists metadata. split; [done|].
  destruct (bool_decide (imgs = []) && dict_has metadata "images"
            && py_truthy (dict_get metadata "images")).
  - by eapply images_of_metadata_info.
  - injection Hres as <-. by eapply images_of_text_info.
Qed.

(** C7.  Every image record [process_source_for_images] produces for a
    passage, and so every inline or filename-matched one, has the caption
    "Image from page P", where P is the [page] value of the metadata plus 1
    when that value is an [int] (Python's [bool] is an [int]: [True] counts
    as 1), and P is 1 when [page] is absent or is not an [int]. *)
Theorem caption_from_page_metadata (json_loads : string → result pyval)
        (source : source_node) (current_doc_id : string)
        (available_images : list string) (images : list pydict) (img : pydict) :
  process_source_for_images json_loads source current_doc_id available_images
  = Ok images →
  img ∈ images →
  ∃ metadata P,
    src_metadata source = Some (VDict metadata)
    ∧ dict_lookup "caption" img = Some (VStr ("Image from page " +:+ py_str P))
    ∧ (∀ n, dict_lookup "page" metadata = Some (VInt n) → P = n + 1)
    ∧ (∀ b, dict_lookup "page" metadata = Some (VBool b) → P = Z.b2z b + 1)
    ∧ (dict_lookup "page" metadata = None → P = 1)
    ∧ (∀ v, dict_lookup "page" metadata = Some v → as_int v = None → P = 1).
Proof.
  intros Hres Himg.
  apply process_source_for_images_info in Hres as [->|(metadata & Hmeta & Hall)];
    [by apply elem_of_nil in Himg|].
  rewrite Forall_forall in Hall. destruct (Hall img Himg) as [path ->].
  exists metadata, (page_display (dict_get metadata "page")).
  split_and!; [done|apply image_info_caption|..];
    unfold dict_get, page_display.
  - by intros n ->.
  - by intros b ->.
  - by intros ->.
  - intros v ->. simpl. by intros ->.
Qed.

Lemma caption_from_page_metadata_witness :
  ∃ metadata P,
    src_metadata Sample.passage1 = Some (VDict metadata)
    ∧ dict_lookup "caption"
        (image_info (VStr "/app/images/doc1/a.jpg") (VInt 0))
      = Some (VStr ("Image from page " +:+ py_str P))
    ∧ (∀ n, dict_lookup "page" metadata = Some (VInt n) → P = n + 1)
    ∧ (∀ b, dict_lookup "page" metadata = Some (VBool b) → P = Z.b2z b + 1)
    ∧ (dict_lookup "page" metadata = None → P = 1)
    ∧ (∀ v, dict_lookup "page" metadata = Some v → as_int v = None → P = 1).
Proof.
  apply (caption_from_page_metadata Sample.json_loads Sample.passage1 "doc1"
           ["/app/images/doc1/a.jpg"%string]
           [image_info (VStr "/app/images/doc1/a.jpg") (VInt 0)]).
  - vm_compute. reflexivity.
  - left.
Defined.

(** ** [get_document_images] *)

Section ResolutionProperties.

Variable IMAGES_PATH : string.
Variable fs : filesystem.
Variable doc_id : string.

Lemma resolves_to_deterministic img_path o1 o2 :
  resolves_to IMAGES_PATH fs doc_id img_path o1 →
  resolves_to IMAGES_PATH fs doc_id img_path o2 → o1 = o2.
Proof. intros H1 H2. destruct H1; inversion H2; congruence. Qed.

Lemma resolves_to_all_deterministic images outcomes1 outcomes2 :
  Forall2 (resolves_to IMAGES_PATH fs doc_id) images outcomes1 →
  Forall2 (resolves_to IMAGES_PATH fs doc_id) images outcomes2 →
  outcomes1 = outcomes2.
Proof.
  intros H1. revert outcomes2.
  induction H1 as [|p o ps os Hp _ IH]; intros outcomes2 H2.
  - by apply Forall2_nil_inv_l in H2.
  - apply Forall2_cons_inv_l in H2 as (o' & os' & Hp' & Hps' & ->).
    f_equal; [by eapply resolves_to_deterministic | by apply IH].
Qed.

Lemma verify_image_path_spec valid_images invalid_images img_path :
  ∃ outcome,
    resolves_to IMAGES_PATH fs doc_id img_path outcome
    ∧ verify_image_path IMAGES_PATH fs doc_id (valid_images, invalid_images) img_path
      = (valid_images ++ option_list outcome,
         invalid_images + match outcome with Some _ => 0 | None => 1 end).
Proof.
  unfold verify_image_path.
  fold (document_directory IMAGES_PATH doc_id).
  fold (exact_candidate IMAGES_PATH doc_id img_path).
  fold (wildcard_pattern IMAGES_PATH doc_id img_path).
  destruct (os_path_exists fs (os_path_abspath fs img_path)) eqn:Habs.
  { eexists (Some _). split; [by apply by_absolute_path|].
    by rewrite Z.add_0_r. }
  destruct (os_path_exists fs img_path) eqn:Hrel.
  { eexists (Some _). split; [by apply by_relative_path|].
    by rewrite Z.add_0_r. }
  destruct (os_path_exists fs (document_directory IMAGES_PATH doc_id)) eqn:Hdir.
  2:{ exists None. split; [by apply unresolved_no_directory|].
      by rewrite app_nil_r. }
  destruct (os_path_exists fs (exact_candidate IMAGES_PATH doc_id img_path))
    eqn:Hexact.
  { eexists (Some _). split; [by apply by_exact_name|].
    by rewrite Z.add_0_r. }
  destruct (glob_glob fs (wildcard_pattern IMAGES_PATH doc_id img_path))
    as [|first_match others] eqn:Hglob.
  - exists None. split; [by apply unresolved_no_match|].
    by rewrite app_nil_r.
  - exists (Some first_match). split; [by eapply by_wildcard|].
    by rewrite Z.add_0_r.
Qed.

Lemma verify_image_paths_from images valid_images invalid_images :
  ∃ outcomes,
    Forall2 (resolves_to IMAGES_PATH fs doc_id) images outcomes
    ∧ fold_left (verify_image_path IMAGES_PATH fs doc_id) images
                (valid_images, invalid_images)
      = (valid_images ++ omap id outcomes,
         invalid_images + Z.of_nat (length (filter (λ o, o = None) outcomes))).
Proof.
  revert valid_images invalid_images.
  induction images as [|p ps IH]; intros valid_images invalid_images.
  - exists []. split; [constructor|]. cbn. by rewrite app_nil_r, Z.add_0_r.
  - destruct (verify_image_path_spec valid_images invalid_images p)
      as (o & Ho & Hstep).
    cbn [fold_left]. rewrite Hstep.
    destruct (IH (valid_images ++ option_list o)
                 (invalid_images + match o with Some _ => 0 | None => 1 end))
      as (os & Hos & Hfold).
    exists (o :: os). split; [by constructor|]. rewrite Hfold.
    destruct o as [q|].
    + rewrite filter_cons_False by done. cbn. f_equal; [|lia].
      by rewrite <- app_assoc.
    + rewrite filter_cons_True by done. cbn [omap list_omap id option_list length].
      rewrite app_nil_r. f_equal. lia.
Qed.

End ResolutionProperties.

(** C8.  For every document identifier with recorded image paths, each
    recorded path has one outcome, fixed by the first step that succeeds:
    (1) the absolute form of the path exists: that absolute path; (2) the
    path exists as given: the path; (3) the document's image directory holds
    a file of that name: that file; (4) the wildcard pattern built from the
    stem of the file name has matches: the first match the directory search
    returns; otherwise the path is dropped.  [get_document_images] returns
    the resolved paths in order, and the count of unresolved paths is the
    number of dropped ones.  The outcomes are a function of what the disk
    answers. *)
Theorem image_path_resolution_order (IMAGES_PATH : string) (fs : filesystem)
        (st : session_state) (doc_id : string) (images : list string) :
  default ∅ (document_image_map st) !! doc_id = Some images →
  ∃ outcomes,
    Forall2 (resolves_to IMAGES_PATH fs doc_id) images outcomes
    ∧ get_document_images IMAGES_PATH fs st doc_id = omap id outcomes
    ∧ snd (verify_image_paths IMAGES_PATH fs doc_id images)
      = Z.of_nat (length (filter (λ o, o = None) outcomes))
    ∧ (∀ outcomes',
         Forall2 (resolves_to IMAGES_PATH fs doc_id) images outcomes' →
         outcomes' = outcomes).
Proof.
  intros Hmap.
  destruct (verify_image_paths_from IMAGES_PATH fs doc_id images [] 0)
    as (outcomes & Hout & Hfold).
  exists outcomes. unfold get_document_images, verify_image_paths.
  rewrite Hmap, Hfold. split_and!; [done|done|done|].
  intros outcomes' Hout'. by eapply resolves_to_all_deterministic.
Qed.

Lemma image_path_resolution_order_witness :
  ∃ outcomes,
    Forall2 (resolves_to Sample.IMAGES_PATH Sample.fs "doc1")
            ["images/doc1/a.jpg"; "old/b-2-0.jpg"]%string outcomes
    ∧ get_document_images Sample.IMAGES_PATH Sample.fs
        (Sample.session "Summary [1].") "doc1" = omap id outcomes
    ∧ snd (verify_image_paths Sample.IMAGES_PATH Sample.fs "doc1"
             ["images/doc1/a.jpg"; "old/b-2-0.jpg"]%string)
      = Z.of_nat (length (filter (λ o, o = None) outcomes))
    ∧ (∀ outcomes',
         Forall2 (resolves_to Sample.IMAGES_PATH Sample.fs "doc1")
                 ["images/doc1/a.jpg"; "old/b-2-0.jpg"]%string outcomes' →
         outcomes' = outcomes).
Proof.
  apply (image_path_resolution_order Sample.IMAGES_PATH Sample.fs
           (Sample.session "Summary [1].") "doc1").
  vm_compute. reflexivity.
Defined.

(** ** The image records of the correlator *)

(** C4.  The claim (no two image records with the same path) fails on the
    code.  The metadata records are stored under ['file_path'], the records
    of [process_source_for_images] under ['path'], and the duplicate test of
    lines 272-275 compares ['file_path'] on both sides.  So two cited
    passages that name one image, the first inline and the second in its
    metadata, yield two records of that path, and so does one passage that
    names it both ways. *)
Theorem same_path_under_two_keys :
  let two_passages :=
    _extract_images_from_sources Sample.json_loads Sample.IMAGES_PATH Sample.fs
      Source.extract_citation_indices
      (Sample.session "Figure 1 [1] is discussed again in [2].")
      [Sample.passage6; Sample.passage7] "paper.pdf" in
  let one_passage :=
    _extract_images_from_sources Sample.json_loads Sample.IMAGES_PATH Sample.fs
      Source.extract_citation_indices
      (Sample.session "Figure 1 shows the result [1].")
      [Sample.passage1; Sample.passage2] "paper.pdf" in
  two_passages
  = Ok [ [("path"%string, VStr "/app/images/doc1/a.jpg");
          ("caption"%string, VStr "Image from page 1")];
         [("file_path"%string, VStr "/app/images/doc1/a.jpg");
          ("caption"%string, VStr EmptyString)] ]
  ∧ one_passage
    = Ok [ [("file_path"%string, VStr "/app/images/doc1/a.jpg");
            ("caption"%string, VStr EmptyString)];
           [("path"%string, VStr "/app/images/doc1/a.jpg");
            ("caption"%string, VStr "Image from page 1")] ]
  ∧ (∀ images, two_passages = Ok images ∨ one_passage = Ok images →
       entry_path <$> images
       = [VStr "/app/images/doc1/a.jpg"; VStr "/app/images/doc1/a.jpg"]).
Proof.
  cbn zeta. split_and!; [vm_compute; reflexivity..|].
  intros images. vm_compute. by intros [[= <-]|[= <-]].
Qed.

(** C5.  The claim (no exception leaves the correlator) fails on the code:
    [process_source_for_images] is called outside the [try] blocks of the
    loop and handles [json.JSONDecodeError] only.  For a cited passage whose
    [images] metadata is a list instead of a JSON text, [json.loads] raises
    [TypeError], which leaves the correlator, whereas the metadata block of
    the correlator itself swallows the same error; a cited passage whose
    [metadata] is not a dict raises [AttributeError] in the same way. *)
Theorem exception_leaves_correlator (json_loads : string → result pyval) :
  _extract_images_from_sources json_loads Sample.IMAGES_PATH Sample.fs
    Source.extract_citation_indices (Sample.session "Stated in [1].")
    [Sample.passage3; Sample.passage2] "paper.pdf" = Raise TypeError
  ∧ add_metadata_images json_loads []
      (default (VDict []) (src_metadata Sample.passage3)) = []
  ∧ _extract_images_from_sources json_loads Sample.IMAGES_PATH Sample.fs
      Source.extract_citation_indices (Sample.session "Stated in [1].")
      [{| src_text := Some (VStr "Plain text."); src_metadata := Some VNone |}]
      "paper.pdf" = Raise AttributeError.
Proof. split_and!; vm_compute; reflexivity. Qed.

(** ** Metadata entries *)

Lemma py_eq_str_refl s : py_eq (VStr s) (VStr s) = true.
Proof. apply String.eqb_refl. Qed.

Lemma py_eq_str v s : py_eq v (VStr s) = true → v = VStr s.
Proof. destruct v; simpl; try done. by intros ->%String.eqb_eq. Qed.

Lemma py_in_strs_elem v available_images :
  py_in_strs v available_images = true ↔ ∃ s, v = VStr s ∧ s ∈ available_images.
Proof.
  unfold py_in_strs. rewrite existsb_exists. split.
  - intros (s & Hs%list_elem_of_In & ->%py_eq_str). eauto.
  - intros (s & -> & Hs%list_elem_of_In). exists s. by rewrite py_eq_str_refl.
Qed.

Lemma has_file_path_app images1 images2 p :
  has_file_path (images1 ++ images2) p
  = has_file_path images1 p || has_file_path images2 p.
Proof. apply existsb_app. Qed.

Lemma add_metadata_image_keeps images entry images' p :
  add_metadata_image images entry = Ok images' →
  has_file_path images p = true → has_file_path images' p = true.
Proof.
  unfold add_metadata_image. destruct entry as [| | | | |d]; try done.
  destruct (_ && _); intros [= <-] Hp; [|done].
  by rewrite has_file_path_app, Hp.
Qed.

Lemma add_metadata_image_includes images d p :
  entry_path d = VStr p → p ≠ EmptyString →
  ∃ images', add_metadata_image images (VDict d) = Ok images'
             ∧ has_file_path images' (VStr p) = true.
Proof.
  intros Hpath Hp. unfold add_metadata_image. fold (entry_path d).
  rewrite Hpath. cbn [py_truthy].
  assert (String.eqb p EmptyString = false) as -> by (by apply String.eqb_neq).
  cbn [negb andb].
  destruct (has_file_path images (VStr p)) eqn:Hhas; cbn [negb].
  - by exists images.
  - eexists. split; [done|]. rewrite has_file_path_app. cbn.
    by rewrite String.eqb_refl, orb_true_r.
Qed.

Lemma for_each_app {A S} (body : S → A → result S) l1 l2 s :
  for_each body (l1 ++ l2) s
  = match for_each body l1 s with
    | (s', None) => for_each body l2 s'
    | stopped => stopped
    end.
Proof.
  revert s. induction l1 as [|x l1 IH]; intros s; [done|].
  cbn. destruct (body s x); [apply IH|done].
Qed.

Lemma for_each_metadata_keeps entries images p :
  has_file_path images p = true →
  has_file_path (fst (for_each add_metadata_image entries images)) p = true.
Proof.
  revert images. induction entries as [|e entries IH]; intros images Hp; [done|].
  cbn. destruct (add_metadata_image images e) as [images'|] eqn:He; [|done].
  apply IH. by eapply add_metadata_image_keeps.
Qed.

Lemma for_each_metadata_dicts entries images :
  Forall is_dict entries →
  ∃ images', for_each add_metadata_image entries images = (images', None).
Proof.
  intros Hall. revert images.
  induction Hall as [|e entries [d ->] _ IH]; intros images; [by eexists|].
  cbn. destruct (_ && _); apply IH.
Qed.

Lemma for_each_metadata_includes pre d post images p :
  Forall is_dict pre → entry_path d = VStr p → p ≠ EmptyString →
  has_file_path
    (fst (for_each add_metadata_image (pre ++ VDict d :: post) images))
    (VStr p) = true.
Proof.
  intros Hpre Hpath Hp. rewrite for_each_app.
  destruct (for_each_metadata_dicts pre images Hpre) as [images1 ->].
  destruct (add_metadata_image_includes images1 d p Hpath Hp)
    as (images2 & Hadd & Hhas).
  cbn [for_each]. rewrite Hadd. by apply for_each_metadata_keeps.
Qed.

Lemma add_source_images_keep source_images images p :
  has_file_path images p = true →
  has_file_path (fold_left add_source_image source_images images) p = true.
Proof.
  revert images. induction source_images as [|x xs IH]; intros images Hp; [done|].
  cbn [fold_left]. apply IH. unfold add_source_image.
  destruct (negb _); [|done]. by rewrite has_file_path_app, Hp.
Qed.

Section MetadataEntries.

Variable json_loads : string → result pyval.
Variable doc_id : string.
Variable available_images : list string.

Lemma add_metadata_images_keeps images meta p :
  has_file_path images p = true →
  has_file_path (add_metadata_images json_loads images meta) p = true.
Proof.
  intros Hp. unfold add_metadata_images.
  destruct (image_meta_list json_loads meta) as [parsed|]; [|done].
  cbn. destruct (py_iter parsed) as [entries|]; [|done].
  cbn. by apply for_each_metadata_keeps.
Qed.

Lemma add_metadata_images_includes images meta s pre d post p :
  dict_lookup "images" meta = Some (VStr s) →
  json_loads s = Ok (VList (pre ++ VDict d :: post)) →
  Forall is_dict pre → entry_path d = VStr p → p ≠ EmptyString →
  has_file_path (add_metadata_images json_loads images (VDict meta)) (VStr p)
  = true.
Proof.
  intros Hmeta Hjson Hpre Hpath Hp.
  unfold add_metadata_images, image_meta_list. rewrite Hmeta.
  cbn. rewrite Hjson. cbn. by apply for_each_metadata_includes.
Qed.

Lemma process_cited_source_keeps images source images' p :
  process_cited_source json_loads doc_id available_images images source
  = Ok images' →
  has_file_path images p = true → has_file_path images' p = true.
Proof.
  unfold process_cited_source.
  destruct (process_source_for_images _ _ _ _) as [source_images|]; [|done].
  cbn. intros [= <-] Hp.
  by apply add_source_images_keep, add_metadata_images_keeps.
Qed.

Lemma process_cited_sources_keep sources images result p :
  process_cited_sources json_loads doc_id available_images sources images
  = Ok result →
  has_file_path images p = true → has_file_path result p = true.
Proof.
  revert images. induction sources as [|x xs IH]; intros images.
  - by intros [= <-].
  - cbn [process_cited_sources].
    destruct (process_cited_source _ _ _ images x) as [images'|] eqn:Hx; [|done].
    cbn. intros Hres Hp. apply (IH images' Hres).
    by eapply process_cited_source_keeps.
Qed.

Lemma process_cited_sources_include sources images result source meta s
      pre d post p :
  process_cited_sources json_loads doc_id available_images sources images
  = Ok result →
  source ∈ sources →
  src_metadata source = Some (VDict meta) →
  dict_lookup "images" meta = Some (VStr s) →
  json_loads s = Ok (VList (pre ++ VDict d :: post)) →
  Forall is_dict pre → entry_path d = VStr p → p ≠ EmptyString →
  has_file_path result (VStr p) = true.
Proof.
  intros Hres Hin Hsrc Hmeta Hjson Hpre Hpath Hp. revert images Hres.
  induction sources as [|x xs IH]; intros images;
    [by apply elem_of_nil in Hin|].
  cbn [process_cited_sources].
  destruct (process_cited_source _ _ _ images x) as [images'|] eqn:Hx; [|done].
  cbn. intros Hres. apply elem_of_cons in Hin as [->|Hin].
  - apply (process_cited_sources_keep _ _ _ _ Hres).
    unfold process_cited_source in Hx.
    destruct (process_source_for_images _ _ _ _) as [source_images|]; [|done].
    cbn in Hx. injection Hx as <-. apply add_source_images_keep.
    rewrite Hsrc. cbn. by eapply add_metadata_images_includes.
  - by apply (IH Hin images').
Qed.

Lemma first_metadata_image_spec page_num image_list :
  (first_metadata_image page_num available_images image_list = []
   ∧ Forall (λ e, ¬ indexed_entry available_images e) image_list)
  ∨ ∃ pre d file_path post,
      image_list = pre ++ VDict d :: post
      ∧ Forall (λ e, ¬ indexed_entry available_images e) pre
      ∧ dict_lookup "file_path" d = Some (VStr file_path)
      ∧ file_path ∈ available_images
      ∧ first_metadata_image page_num available_images image_list
        = [image_info (VStr file_path) page_num].
Proof.
  induction image_list as [|e rest IH].
  { left. split; [done|constructor]. }
  assert (¬ indexed_entry available_images e →
          first_metadata_image page_num available_images (e :: rest)
          = first_metadata_image page_num available_images rest →
          (first_metadata_image page_num available_images (e :: rest) = []
           ∧ Forall (λ e, ¬ indexed_entry available_images e) (e :: rest))
          ∨ ∃ pre d file_path post,
              e :: rest = pre ++ VDict d :: post
              ∧ Forall (λ e, ¬ indexed_entry available_images e) pre
              ∧ dict_lookup "file_path" d = Some (VStr file_path)
              ∧ file_path ∈ available_images
              ∧ first_metadata_image page_num available_images (e :: rest)
                = [image_info (VStr file_path) page_num]) as Hskip.
  { intros He ->. destruct IH as [[Hnil Hall]|(pre & d & fp & post & -> & Hpre & Hd & Hfp & Hres)].
    - left. split; [done|by constructor].
    - right. exists (e :: pre), d, fp, post. split_and!; try done.
      by constructor. }
  destruct e as [| | | | |d];
    try (apply Hskip; [by intros (? & ? & ? & _)|done]).
  destruct (dict_lookup "file_path" d) as [fp|] eqn:Hd.
  2:{ apply Hskip; [|by cbn; rewrite Hd].
      intros (d' & fp' & [= <-] & Hd' & _). congruence. }
  destruct (py_in_strs fp available_images) eqn:Hfp.
  2:{ apply Hskip; [|by cbn; rewrite Hd, Hfp].
      intros (d' & fp' & [= <-] & Hd' & Hfp'). congruence. }
  apply py_in_strs_elem in Hfp as Hin. destruct Hin as (file_path & -> & Hin).
  right. exists [], d, file_path, rest. split_and!; try done.
  cbn. by rewrite Hd, Hfp.
Qed.

Lemma images_of_metadata_spec metadata page_num images s entries :
  dict_get metadata "images" = VStr s →
  json_loads s = Ok (VList entries) →
  images_of_metadata json_loads metadata page_num available_images = Ok images →
  (images = [] ∧ Forall (λ e, ¬ indexed_entry available_images e) entries)
  ∨ ∃ pre d file_path post,
      entries = pre ++ VDict d :: post
      ∧ Forall (λ e, ¬ indexed_entry available_images e) pre
      ∧ dict_lookup "file_path" d = Some (VStr file_path)
      ∧ file_path ∈ available_images
      ∧ images = [image_info (VStr file_path) page_num].
Proof.
  intros Himages Hjson. unfold images_of_metadata, py_json_loads.
  rewrite Himages, Hjson. intros [-> _]%written_with_page_Ok.
  destruct (first_metadata_image_spec page_num entries)
    as [[-> Hnone]|(pre & d & fp & post & -> & Hpre & Hd & Hfp & ->)];
    [by left|].
  right. by exists pre, d, fp, post.
Qed.

End MetadataEntries.

Lemma cited_passage_in_range source_nodes i source :
  cited_passage source_nodes i = Some source → source_nodes ≠ [].
Proof.
  unfold cited_passage. case_bool_decide as Hi; [|done].
  intros _ ->. simpl in Hi. lia.
Qed.

Lemma correlator_processes_cited json_loads IMAGES_PATH fs extract st
      source_nodes file_name doc_id i source :
  file_document_id st !! file_name = Some doc_id → doc_id ≠ EmptyString →
  i ∈ stored_citation_indices extract st file_name →
  cited_passage source_nodes i = Some source →
  source ∈ omap (cited_passage source_nodes)
               (stored_citation_indices extract st file_name)
  ∧ _extract_images_from_sources json_loads IMAGES_PATH fs extract
      st source_nodes file_name
    = process_cited_sources json_loads doc_id
        (get_document_images IMAGES_PATH fs st doc_id)
        (omap (cited_passage source_nodes)
              (stored_citation_indices extract st file_name)) [].
Proof.
  intros Hdoc Hne Hi Hsource.
  assert (source ∈ omap (cited_passage source_nodes)
                        (stored_citation_indices extract st file_name)) as Hin.
  { apply list_elem_of_omap. eauto. }
  split; [done|]. unfold _extract_images_from_sources.
  rewrite bool_decide_eq_false_2 by (by eapply cited_passage_in_range).
  rewrite Hdoc. apply String.eqb_neq in Hne as ->.
  rewrite cited_in_stored_answer_spec. cbn.
  destruct (omap (cited_passage source_nodes)
                 (stored_citation_indices extract st file_name)) as [|x xs];
    [by apply elem_of_nil in Hin|].
  done.
Qed.

Lemma has_file_path_record images p :
  has_file_path images (VStr p) = true →
  ∃ img, img ∈ images ∧ dict_get img "file_path" = VStr p.
Proof.
  intros (img & Himg%list_elem_of_In & Heq%py_eq_str)%existsb_exists. eauto.
Qed.

(** C6.  For a cited passage whose [images] metadata is the JSON text of a
    list of objects.  In the chat engine the list is parsed whatever the
    text of the passage holds, inline references or not, and every entry
    whose path (its ['file_path'], or else its ['path']) is in the image
    index of the document has a record with that path among the records the
    correlator returns.  In [process_source_for_images] the metadata yields
    at most one record: the one of the first entry whose ['file_path'] is,
    as it stands, one of the available images, and none when no entry has
    such a ['file_path']; the metadata is read there when the text of the
    passage gave no image. *)
Theorem metadata_entries_of_cited_passage
        (json_loads : string → result pyval) (IMAGES_PATH : string)
        (fs : filesystem) (extract : string → list Z) :
  (∀ st source_nodes file_name doc_id result i source meta s entries d p,
     file_document_id st !! file_name = Some doc_id → doc_id ≠ EmptyString →
     i ∈ stored_citation_indices extract st file_name →
     cited_passage source_nodes i = Some source →
     src_metadata source = Some (VDict meta) →
     dict_lookup "images" meta = Some (VStr s) →
     json_loads s = Ok (VList entries) →
     Forall is_dict entries →
     VDict d ∈ entries →
     entry_path d = VStr p → p ≠ EmptyString →
     p ∈ get_document_images IMAGES_PATH fs st doc_id →
     _extract_images_from_sources json_loads IMAGES_PATH fs extract
       st source_nodes file_name = Ok result →
     ∃ img, img ∈ result ∧ dict_get img "file_path" = VStr p)
  ∧ (∀ available_images metadata page_num images s entries,
       dict_get metadata "images" = VStr s →
       json_loads s = Ok (VList entries) →
       images_of_metadata json_loads metadata page_num available_images
       = Ok images →
       (images = [] ∧ Forall (λ e, ¬ indexed_entry available_images e) entries)
       ∨ ∃ pre d file_path post,
           entries = pre ++ VDict d :: post
           ∧ Forall (λ e, ¬ indexed_entry available_images e) pre
           ∧ dict_lookup "file_path" d = Some (VStr file_path)
           ∧ file_path ∈ available_images
           ∧ images = [image_info (VStr file_path) page_num])
  ∧ (∀ available_images source current_doc_id text metadata images result,
       src_text source = Some text →
       src_metadata source = Some (VDict metadata) →
       images_of_text text (dict_get metadata "page") available_images
       = Ok images →
       process_source_for_images json_loads source current_doc_id
                                 available_images = Ok result →
       if bool_decide (images = []) && dict_has metadata "images"
          && py_truthy (dict_get metadata "images")
       then images_of_metadata json_loads metadata
              (dict_get metadata "page") available_images = Ok result
       else result = images).
Proof.
  split_and!.
  - intros st source_nodes file_name doc_id result i source meta s entries d p
      Hdoc Hne Hi Hsource Hmeta Himages Hjson Hall Hd Hpath Hp _.
    destruct (correlator_processes_cited json_loads IMAGES_PATH fs extract st
                source_nodes file_name doc_id i source Hdoc Hne Hi Hsource)
      as [Hin ->].
    intros Hres. apply has_file_path_record.
    apply list_elem_of_split in Hd as (pre & post & ->).
    apply Forall_app in Hall as [Hpre _].
    by eapply process_cited_sources_include.
  - intros available_images metadata page_num images s entries Himages Hjson.
    by apply (images_of_metadata_spec json_loads available_images metadata
                page_num images s entries).
  - intros available_images source current_doc_id text metadata images result
      Htext Hmeta Himages.
    unfold process_source_for_images. rewrite Hmeta, Htext.
    destruct (py_writable (dict_get metadata "page")); [|done].
    rewrite Himages. cbn.
    destruct (bool_decide (images = []) && dict_has metadata "images"
              && py_truthy (dict_get metadata "images")); [done|].
    by intros [= <-].
Qed.

Lemma metadata_entries_of_cited_passage_witness :
  (∀ result,
     _extract_images_from_sources Sample.json_loads Sample.IMAGES_PATH Sample.fs
       Source.extract_citation_indices
       (Sample.session "Figure 1 shows the result [1].")
       [Sample.passage1; Sample.passage2] "paper.pdf" = Ok result →
     ∃ img, img ∈ result
            ∧ dict_get img "file_path" = VStr "/app/images/doc1/a.jpg")
  ∧ (images_of_metadata Sample.json_loads
       [("page"%string, VInt 0); ("images"%string, VStr Sample.images_json)]
       (VInt 0) ["/app/images/doc1/a.jpg"%string]
     = Ok [image_info (VStr "/app/images/doc1/a.jpg") (VInt 0)]).
Proof.
  destruct (metadata_entries_of_cited_passage Sample.json_loads
              Sample.IMAGES_PATH Sample.fs Source.extract_citation_indices)
    as (Hengine & _ & _).
  split; [|vm_compute; reflexivity].
  intros result.
  apply (Hengine (Sample.session "Figure 1 shows the result [1].")
           [Sample.passage1; Sample.passage2] "paper.pdf"%string "doc1"%string
           result 1 Sample.passage1
           [("page"%string, VInt 0); ("images"%string, VStr Sample.images_json)]
           Sample.images_json
           [VDict [("file_path"%string, VStr "/app/images/doc1/a.jpg")]]
           [("file_path"%string, VStr "/app/images/doc1/a.jpg")]
           "/app/images/doc1/a.jpg"%string).
  - vm_compute. reflexivity.
  - discriminate.
  - vm_compute. left.
  - vm_compute. reflexivity.
  - reflexivity.
  - reflexivity.
  - vm_compute. reflexivity.
  - repeat constructor. by eexists.
  - left.
  - vm_compute. reflexivity.
  - discriminate.
  - vm_compute. left.
Defined.

(** The correlator does not consult the image index for metadata entries:
    [/tmp/c.jpg] is not an image of the document and its record is
    returned. *)
Example unindexed_entry_included :
  _extract_images_from_sources Sample.json_loads Sample.IMAGES_PATH Sample.fs
    Source.extract_citation_indices (Sample.session "Shown in [1].")
    [Sample.passage5] "paper.pdf"
  = Ok [ [("file_path"%string, VStr "/tmp/c.jpg"); ("caption"%string, VStr "Chart")] ].
Proof. vm_compute. reflexivity. Qed.

(** * Further properties of the code *)

(** ** The renumbering block *)

Lemma substitute_markers_unchanged s :
  substitute (bracketed (λ ds, ds)) (tokenize s) = s.
Proof.
  remember (String.length s) as n eqn:Hn. revert s Hn.
  induction n as [n IH] using lt_wf_ind. intros s ->.
  destruct s as [|c s]; [done|].
  destruct (match_citation (String c s)) as [[ds rest]|] eqn:Hmatch.
  - rewrite (tokenize_cite _ _ _ Hmatch). cbn [substitute].
    apply match_citation_shorter in Hmatch as Hlen.
    apply match_citation_Some in Hmatch as (-> & _ & _).
    rewrite (IH (String.length rest)) by done.
    unfold bracketed. by rewrite !append_assoc.
  - rewrite (tokenize_lit _ _ Hmatch). cbn [substitute]. f_equal.
    apply (IH (String.length s)); [|done]. rewrite length_cons. lia.
Qed.

Lemma substitute_without_markers repl s :
  cited_numbers s = [] → substitute repl (tokenize s) = s.
Proof.
  intros Hnone. rewrite <- (substitute_markers_unchanged s) at 2.
  unfold cited_numbers in Hnone.
  induction (tokenize s) as [|t ts IH]; [done|].
  destruct t as [c|ds]; [|done]. cbn in *. f_equal. by apply IH.
Qed.

Lemma without_markers_within_limit s :
  cited_numbers s = [] → markers_within_limit s = true.
Proof.
  unfold cited_numbers, markers_within_limit.
  induction (tokenize s) as [|t ts IH]; [done|].
  destruct t as [c|ds]; [|done]. cbn. exact IH.
Qed.

(** X1.  A text without citation markers is returned as it is, whatever the
    extraction helper; the citation map is empty when the helper finds no
    index. *)
Theorem renumbering_without_markers (extract : string → list Z) (text : string) :
  cited_numbers text = [] →
  ∃ citation_map,
    renumber_citations extract text = Ok (text, citation_map)
    ∧ (extract text = [] → citation_map = ∅).
Proof.
  intros Hnone. exists (build_citation_map (extract text)).
  rewrite renumber_citations_within_limit
    by (by apply without_markers_within_limit).
  unfold rewrite_markers, substitute_markers.
  rewrite substitute_without_markers by done. split; [done|]. by intros ->.
Qed.

Lemma renumbering_without_markers_witness :
  ∃ citation_map,
    renumber_citations Source.extract_citation_indices
      "Arrays a[i] and b[] are [not] cited [1a]."
    = Ok ("Arrays a[i] and b[] are [not] cited [1a]."%string, citation_map)
    ∧ (Source.extract_citation_indices
         "Arrays a[i] and b[] are [not] cited [1a]." = [] →
       citation_map = ∅).
Proof.
  apply renumbering_without_markers. vm_compute. reflexivity.
Defined.

(** X2.  The citation map built from any list of indices, duplicates or not
    (lines 131-134): its keys are the indices of the list, its values are
    exactly 1, ..., K for K the number of keys, and no two keys share a
    value. *)
Theorem citation_map_gapless (citation_indices : list Z) :
  let citation_map := build_citation_map citation_indices in
  (∀ n, is_Some (citation_map !! n) ↔ n ∈ citation_indices)
  ∧ (∀ v, (∃ n, citation_map !! n = Some v)
          ↔ 1 ≤ v ≤ Z.of_nat (size citation_map))
  ∧ (∀ n1 n2 v, citation_map !! n1 = Some v → citation_map !! n2 = Some v →
                n1 = n2).
Proof.
  cbn zeta. pose proof (build_citation_map_spec citation_indices) as Hspec.
  set (m := build_citation_map citation_indices) in *.
  set (d := Source.first_occurrences_from [] citation_indices) in *.
  destruct (first_occurrences_from_spec [] citation_indices) as (_ & Hel & _);
    [apply NoDup_nil_2|]. fold d in Hel.
  pose proof (numbers_in_order_elem m d) as Helem.
  destruct Hspec as (Hnd & Hsize & Hm). split_and!.
  - intros n. rewrite <- Helem by done. rewrite Hel, elem_of_nil. tauto.
  - intros v. split.
    + intros (n & (k & Hk & ->)%Hm). apply lookup_lt_Some in Hk. lia.
    + intros Hv. destruct (lookup_lt_is_Some_2 d (Z.to_nat (v - 1))) as [n Hn];
        [lia|].
      exists n. apply Hm. exists (Z.to_nat (v - 1)). split; [done|lia].
  - intros n1 n2 v (k1 & Hk1 & ->)%Hm (k2 & Hk2 & Heq)%Hm.
    assert (k1 = k2) as -> by lia. congruence.
Qed.

(** ** Records of [process_source_for_images] *)

Lemma images_of_reference_available page_num available_images img_path :
  Forall (available_image_record available_images)
         (images_of_reference page_num available_images img_path).
Proof.
  unfold images_of_reference. case_bool_decide as Hin.
  - repeat constructor. by eexists _, _.
  - destruct (find _ available_images) as [a|] eqn:Hfind; [|constructor].
    apply find_some in Hfind as [Ha%list_elem_of_In _].
    repeat constructor. by eexists _, _.
Qed.

Lemma images_of_text_available text page_num available_images images :
  images_of_text text page_num available_images = Ok images →
  Forall (available_image_record available_images) images.
Proof.
  unfold images_of_text. destruct (py_truthy text); [|by intros [= <-]].
  destruct text as [| | |s| |]; try done.
  intros [-> _]%written_with_page_Ok.
  induction (findall_image_refs s) as [|r rs IH]; [constructor|].
  cbn [flat_map]. apply Forall_app. split; [|exact IH].
  apply images_of_reference_available.
Qed.

Lemma first_metadata_image_available page_num available_images image_list :
  Forall (available_image_record available_images)
         (first_metadata_image page_num available_images image_list).
Proof.
  induction image_list as [|e rest IH]; [constructor|].
  destruct e as [| | | | |d]; cbn [first_metadata_image]; try exact IH.
  destruct (dict_lookup "file_path" d) as [fp|]; [|exact IH].
  destruct (py_in_strs fp available_images) eqn:Hfp; [|exact IH].
  apply py_in_strs_elem in Hfp as (path & -> & Hpath).
  repeat constructor. by eexists _, _.
Qed.

Lemma process_source_for_images_available json_loads source doc_id
      available_images images :
  process_source_for_images json_loads source doc_id available_images
  = Ok images →
  Forall (available_image_record available_images) images.
Proof.
  unfold process_source_for_images.
  destruct (src_metadata source) as [metadata|];
    [|destruct (src_text source); by intros [= <-]].
  destruct (src_text source) as [text|]; [|by intros [= <-]].
  destruct metadata as [| | | | |metadata]; try done.
  destruct (py_writable (dict_get metadata "page")); [|done].
  destruct (images_of_text text (dict_get metadata "page") available_images)
    as [imgs|e] eqn:Htext; [|done].
  cbn. destruct (_ && _).
  - unfold images_of_metadata.
    destruct (py_json_loads json_loads (dict_get metadata "images"))
      as [[| | | |l|]|[]]; try done; try (intros [= <-]; constructor).
    intros [-> _]%written_with_page_Ok.
    apply first_metadata_image_available.
  - intros [= <-]. by eapply images_of_text_available.
Qed.

(** X3.  [process_source_for_images] returns images of [available_images]
    only: every record it returns has, under ['path'], one of the available
    paths, and has no ['file_path'] key. *)
Theorem source_images_are_available (json_loads : string → result pyval)
        (source : source_node) (current_doc_id : string)
        (available_images : list string) (images : list pydict) (img : pydict) :
  process_source_for_images json_loads source current_doc_id available_images
  = Ok images →
  img ∈ images →
  ∃ path, path ∈ available_images
          ∧ dict_lookup "path" img = Some (VStr path)
          ∧ dict_lookup "file_path" img = None.
Proof.
  intros Hres Himg. apply process_source_for_images_available in Hres.
  rewrite Forall_forall in Hres.
  destruct (Hres img Himg) as (path & page_num & Hpath & ->). eauto.
Qed.

Lemma source_images_are_available_witness :
  ∃ path, path ∈ ["/app/images/doc1/a.jpg"; "/app/images/doc1/c.jpg"]%string
          ∧ dict_lookup "path"
              (image_info (VStr "/app/images/doc1/a.jpg") (VInt 0))
            = Some (VStr path)
          ∧ dict_lookup "file_path"
              (image_info (VStr "/app/images/doc1/a.jpg") (VInt 0)) = None.
Proof.
  apply (source_images_are_available Sample.json_loads Sample.passage1 "doc1"
           ["/app/images/doc1/a.jpg"; "/app/images/doc1/c.jpg"]%string
           [image_info (VStr "/app/images/doc1/a.jpg") (VInt 0)]).
  - vm_compute. reflexivity.
  - left.
Defined.

Lemma process_source_for_images_well_typed json_loads source doc_id
      available_images :
  well_typed_source source → images_text_decodes json_loads source →
  ∃ images,
    process_source_for_images json_loads source doc_id available_images
    = Ok images.
Proof.
  intros [Htext Hmeta] Hdecodes. unfold process_source_for_images.
  destruct (src_metadata source) as [metadata|] eqn:Hsrc;
    [|destruct (src_text source); by eexists].
  destruct (src_text source) as [text|]; [|by eexists].
  destruct Hmeta as (d & -> & Hpage & Hdisplay & Himages).
  destruct Htext as [s ->]. rewrite Hpage.
  unfold images_of_text. cbn [py_truthy].
  set (imgs := if negb (String.eqb s EmptyString)
               then written_with_page _ _ else Ok []).
  assert (∃ l, imgs = Ok l) as [l ->].
  { subst imgs. destruct (negb _); [|by eexists].
    rewrite written_with_page_writable by done. by eexists. }
  cbn. destruct (_ && _) eqn:Hcond; [|by eexists].
  apply andb_true_iff in Hcond as [[_ Hhas]%andb_true_iff _].
  unfold dict_has in Hhas. apply bool_decide_eq_true in Hhas as [v Hv].
  rewrite Hv in Himages. destruct Himages as [s' ->].
  unfold images_of_metadata, dict_get. rewrite Hv. cbn.
  destruct (Hdecodes d s' Hsrc Hv) as [[parsed ->]| ->]; [|by eexists].
  destruct parsed as [| | | |entries|]; try by eexists.
  rewrite written_with_page_writable by done. by eexists.
Qed.

(** X4.  For a source whose text is a string and whose metadata is a dict
    with a string (or nothing) under ['images'] and a ['page'] within the
    limit of digits, and for whose [images] text [json.loads] returns a
    value or raises [json.JSONDecodeError], [process_source_for_images]
    raises nothing; when the text names no available image and the JSON text
    does not decode, the result is empty. *)
Theorem well_typed_source_never_raises (json_loads : string → result pyval)
        (source : source_node) (current_doc_id : string)
        (available_images : list string) :
  well_typed_source source →
  images_text_decodes json_loads source →
  (∃ images,
     process_source_for_images json_loads source current_doc_id available_images
     = Ok images)
  ∧ (∀ text metadata s,
       src_text source = Some text →
       src_metadata source = Some (VDict metadata) →
       images_of_text text (dict_get metadata "page") available_images = Ok [] →
       dict_lookup "images" metadata = Some (VStr s) →
       json_loads s = Raise JSONDecodeError →
       process_source_for_images json_loads source current_doc_id
                                 available_images = Ok []).
Proof.
  intros Hsource Hdecodes.
  split; [by apply process_source_for_images_well_typed|].
  intros text metadata s Htext Hmeta Himgs Himages Hjson.
  destruct Hsource as [_ Hmetadata]. rewrite Hmeta in Hmetadata.
  destruct Hmetadata as (d & [= <-] & Hpage & _).
  unfold process_source_for_images. rewrite Hmeta, Htext, Hpage, Himgs. cbn.
  destruct (_ && _); [|done].
  unfold images_of_metadata, dict_get. rewrite Himages. cbn. by rewrite Hjson.
Qed.

Lemma well_typed_source_never_raises_witness :
  (∃ images,
     process_source_for_images Sample.json_loads
       {| src_text := Some (VStr "No image, and the metadata is broken.");
          src_metadata := Some (VDict [("images"%string, VStr "[{oops")]) |}
       "doc1" ["/app/images/doc1/a.jpg"%string] = Ok images)
  ∧ process_source_for_images Sample.json_loads
      {| src_text := Some (VStr "No image, and the metadata is broken.");
         src_metadata := Some (VDict [("images"%string, VStr "[{oops")]) |}
      "doc1" ["/app/images/doc1/a.jpg"%string] = Ok [].
Proof.
  destruct (well_typed_source_never_raises Sample.json_loads
              {| src_text := Some (VStr "No image, and the metadata is broken.");
                 src_metadata := Some (VDict [("images"%string, VStr "[{oops")]) |}
              "doc1" ["/app/images/doc1/a.jpg"%string]) as [Hok Hempty].
  - split; cbn; [by eexists|]. eexists. split; [reflexivity|].
    split; [reflexivity|]. split; [reflexivity|]. cbn. by eexists.
  - intros d s [= <-] [= <-]. right. reflexivity.
  - split; [exact Hok|].
    eapply Hempty; reflexivity.
Defined.

(** ** What the loop over the cited sources keeps true *)

Lemma py_eq_none v : py_eq v VNone = true ↔ v = VNone.
Proof. destruct v; simpl; split; congruence. Qed.

Lemma image_info_file_path path page_num :
  dict_get (image_info path page_num) "file_path" = VNone.
Proof. reflexivity. Qed.

Section LoopInvariant.

Variable json_loads : string → result pyval.
Variable doc_id : string.
Variable available_images : list string.

(** A property of the list of records that every append of the loop keeps:
    a metadata record is appended only when its path is truthy and is no
    ['file_path'] of the list; a record of [process_source_for_images] is
    for an available image and is appended only when no record of the list
    lacks ['file_path']. *)
Variable inv : list pydict → Prop.

Hypothesis inv_metadata : ∀ images img_path caption,
  inv images → py_truthy img_path = true →
  has_file_path images img_path = false →
  inv (images ++ [[("file_path"%string, img_path); ("caption"%string, caption)]]).

Hypothesis inv_source : ∀ images path page_num,
  inv images → path ∈ available_images →
  has_file_path images VNone = false →
  inv (images ++ [image_info (VStr path) page_num]).

Lemma add_metadata_image_inv images entry images' :
  add_metadata_image images entry = Ok images' → inv images → inv images'.
Proof using inv_metadata.
  unfold add_metadata_image. destruct entry as [| | | | |d]; try done.
  destruct (py_truthy _) eqn:Htruthy; cbn [andb]; [|by intros [= <-]].
  destruct (has_file_path images _) eqn:Hhas; cbn [negb]; intros [= <-] Hinv;
    [done|].
  by apply inv_metadata.
Qed.

Lemma for_each_metadata_inv entries images :
  inv images → inv (fst (for_each add_metadata_image entries images)).
Proof using inv_metadata.
  revert images. induction entries as [|e entries IH]; intros images Hinv;
    [done|].
  cbn. destruct (add_metadata_image images e) as [images'|] eqn:He; [|done].
  apply IH. by eapply add_metadata_image_inv.
Qed.

Lemma add_metadata_images_inv images meta :
  inv images → inv (add_metadata_images json_loads images meta).
Proof using inv_metadata.
  intros Hinv. unfold add_metadata_images.
  destruct (image_meta_list json_loads meta) as [parsed|]; [|done].
  cbn. destruct (py_iter parsed) as [entries|]; [|done].
  cbn. by apply for_each_metadata_inv.
Qed.

Lemma add_source_images_inv source_images images :
  Forall (available_image_record available_images) source_images →
  inv images → inv (fold_left add_source_image source_images images).
Proof using inv_source.
  intros Hall. revert images.
  induction Hall as [|x xs (path & page_num & Hpath & ->) _ IH];
    intros images Hinv; [done|].
  cbn [fold_left]. apply IH. unfold add_source_image.
  rewrite image_info_file_path.
  destruct (has_file_path images VNone) eqn:Hhas; cbn [negb]; [done|].
  by apply inv_source.
Qed.

Lemma process_cited_source_inv images source images' :
  process_cited_source json_loads doc_id available_images images source
  = Ok images' →
  inv images → inv images'.
Proof using inv_metadata inv_source.
  unfold process_cited_source.
  destruct (process_source_for_images _ _ _ _) as [source_images|] eqn:Hsrc;
    [|done].
  cbn. intros [= <-] Hinv.
  apply add_source_images_inv;
    [by eapply process_source_for_images_available|].
  by apply add_metadata_images_inv.
Qed.

Lemma process_cited_sources_inv sources images result :
  process_cited_sources json_loads doc_id available_images sources images
  = Ok result →
  inv images → inv result.
Proof using inv_metadata inv_source.
  revert images. induction sources as [|x xs IH]; intros images.
  - by intros [= <-].
  - cbn [process_cited_sources].
    destruct (process_cited_source _ _ _ images x) as [images'|] eqn:Hx; [|done].
    cbn. intros Hres Hinv. apply (IH images' Hres).
    by eapply process_cited_source_inv.
Qed.

End LoopInvariant.

Lemma correlator_cases json_loads IMAGES_PATH fs extract st source_nodes
      file_name result :
  _extract_images_from_sources json_loads IMAGES_PATH fs extract
    st source_nodes file_name = Ok result →
  result = []
  ∨ ∃ doc_id,
      file_document_id st !! file_name = Some doc_id
      ∧ process_cited_sources json_loads doc_id
          (get_document_images IMAGES_PATH fs st doc_id)
          (omap (cited_passage source_nodes)
                (stored_citation_indices extract st file_name)) []
        = Ok result.
Proof.
  unfold _extract_images_from_sources.
  case_bool_decide; [intros [= <-]; by left|].
  destruct (file_document_id st !! file_name) as [doc_id|];
    [|intros [= <-]; by left].
  destruct (String.eqb doc_id EmptyString); [intros [= <-]; by left|].
  rewrite cited_in_stored_answer_spec. cbn.
  destruct (_ && _); [intros [= <-]; by left|].
  case_bool_decide; [intros [= <-]; by left|].
  intros Hres. right. by exists doc_id.
Qed.

Lemma file_path_distinct_nil : file_path_distinct [].
Proof. intros pre img post Heq. by destruct pre. Qed.

Lemma file_path_distinct_snoc images img :
  file_path_distinct images →
  has_file_path images (dict_get img "file_path") = false →
  file_path_distinct (images ++ [img]).
Proof.
  intros Hdistinct Hnew pre x post Heq.
  destruct post as [|y post _] using rev_ind.
  - apply app_inj_tail in Heq as [<- <-]. done.
  - rewrite app_comm_cons, app_assoc in Heq.
    apply app_inj_tail in Heq as [-> _]. by eapply Hdistinct.
Qed.

Lemma correlator_file_path_distinct json_loads IMAGES_PATH fs extract st
      source_nodes file_name result :
  _extract_images_from_sources json_loads IMAGES_PATH fs extract
    st source_nodes file_name = Ok result →
  file_path_distinct result.
Proof.
  intros [->|(doc_id & _ & Hloop)]%correlator_cases;
    [apply file_path_distinct_nil|].
  eapply (process_cited_sources_inv _ _ _ file_path_distinct);
    [..|exact Hloop|apply file_path_distinct_nil].
  - intros images img_path caption Hinv _ Hnew.
    by apply file_path_distinct_snoc.
  - intros images path page_num Hinv _ Hnew.
    apply file_path_distinct_snoc; [done|]. by rewrite image_info_file_path.
Qed.

Lemma has_file_path_false images p :
  has_file_path images p = false →
  ∀ img, img ∈ images → py_eq (dict_get img "file_path") p = false.
Proof.
  intros Hhas img Himg. destruct (py_eq _ p) eqn:Heq; [|done].
  assert (has_file_path images p = true) as Htrue; [|congruence].
  apply existsb_exists. exists img. split; [by apply list_elem_of_In|done].
Qed.

Lemma file_path_distinct_lookup images i j x y :
  file_path_distinct images → (i < j)%nat →
  images !! i = Some x → images !! j = Some y →
  py_eq (dict_get x "file_path") (dict_get y "file_path") = false.
Proof.
  intros Hdistinct Hij Hx Hy.
  pose proof (take_drop_middle images j y Hy) as Hsplit.
  eapply has_file_path_false.
  - eapply Hdistinct. by symmetry.
  - apply list_elem_of_lookup. exists i. by rewrite lookup_take_lt.
Qed.

(** X5.  In the result of the correlator no record has a ['file_path'] value
    equal (Python [==]) to the ['file_path'] value of a record before it,
    where a record without the key counts as [None]. *)
Theorem correlator_file_paths_differ
        (json_loads : string → result pyval) (IMAGES_PATH : string)
        (fs : filesystem) (extract : string → list Z) (st : session_state)
        (source_nodes : list source_node) (file_name : string)
        (result : list pydict) (i j : nat) (x y : pydict) :
  _extract_images_from_sources json_loads IMAGES_PATH fs extract
    st source_nodes file_name = Ok result →
  (i < j)%nat → result !! i = Some x → result !! j = Some y →
  py_eq (dict_get x "file_path") (dict_get y "file_path") = false.
Proof.
  intros Hres. apply file_path_distinct_lookup.
  by eapply correlator_file_path_distinct.
Qed.

Lemma correlator_file_paths_differ_witness :
  py_eq (dict_get [("file_path"%string, VStr "/app/images/doc1/a.jpg");
                   ("caption"%string, VStr EmptyString)] "file_path")
        (dict_get (image_info (VStr "/app/images/doc1/a.jpg") (VInt 0))
                  "file_path") = false.
Proof.
  apply (correlator_file_paths_differ Sample.json_loads Sample.IMAGES_PATH
           Sample.fs Source.extract_citation_indices
           (Sample.session "Figure 1 shows the result [1].")
           [Sample.passage1; Sample.passage2] "paper.pdf"
           [ [("file_path"%string, VStr "/app/images/doc1/a.jpg");
              ("caption"%string, VStr EmptyString)];
             image_info (VStr "/app/images/doc1/a.jpg") (VInt 0) ]
           0%nat 1%nat).
  - vm_compute. reflexivity.
  - lia.
  - reflexivity.
  - reflexivity.
Defined.

Section Provenance.

Variable json_loads : string → result pyval.
Variable doc_id : string.
Variable available_images : list string.

(** What holds of every record of the list, given that it holds of the
    records the loop starts from. *)
Variable P : pydict → Prop.

Lemma for_each_metadata_origin entries images :
  Forall P images →
  (∀ d, VDict d ∈ entries → py_truthy (entry_path d) = true →
        P [("file_path"%string, entry_path d);
           ("caption"%string, dict_get_default d "caption" (VStr EmptyString))]) →
  Forall P (fst (for_each add_metadata_image entries images)).
Proof.
  revert images. induction entries as [|e entries IH]; intros images Himages He;
    [done|].
  cbn [for_each].
  destruct (add_metadata_image images e) as [images'|] eqn:Hadd; [|done].
  apply IH; [|intros d Hd; apply He; by right].
  unfold add_metadata_image in Hadd. destruct e as [| | | | |d]; try done.
  fold (entry_path d) in Hadd.
  destruct (py_truthy (entry_path d)) eqn:Htruthy; cbn [andb] in Hadd;
    [|by injection Hadd as <-].
  destruct (negb _); injection Hadd as <-; [|done].
  apply Forall_app. split; [done|]. constructor; [|constructor].
  apply He; [left|done].
Qed.

Lemma add_metadata_images_origin images source :
  Forall P images →
  (∀ img, metadata_record_of json_loads source img → P img) →
  Forall P (add_metadata_images json_loads images
              (default (VDict []) (src_metadata source))).
Proof.
  intros Himages Hrecord. unfold add_metadata_images, image_meta_list.
  destruct (src_metadata source) as [[| | | | |meta]|] eqn:Hsrc;
    cbn; try exact Himages.
  destruct (dict_lookup "images" meta) as [v|] eqn:Hv; cbn; [|exact Himages].
  destruct v as [| | |s| |]; cbn; try exact Himages.
  destruct (json_loads s) as [parsed|] eqn:Hjson; cbn; [|exact Himages].
  destruct (py_iter parsed) as [entries|] eqn:Hiter; cbn; [|exact Himages].
  apply for_each_metadata_origin; [done|].
  intros d Hd Htruthy.
  destruct parsed as [| | |text|l|dict]; try done; injection Hiter as <-.
  - exfalso. clear -Hd. induction text as [|c text IH]; cbn in Hd.
    + by apply elem_of_nil in Hd.
    + apply elem_of_cons in Hd as [?|Hd]; [done|by apply IH].
  - apply Hrecord. by exists meta, s, l, d.
  - exfalso. by apply list_elem_of_fmap in Hd as (kv & ? & _).
Qed.

Lemma process_source_for_images_origin source source_images :
  process_source_for_images json_loads source doc_id available_images
  = Ok source_images →
  Forall (source_record_of available_images source) source_images.
Proof.
  intros Hres.
  pose proof (process_source_for_images_available _ _ _ _ _ Hres) as Havail.
  apply process_source_for_images_info in Hres
    as [->|(metadata & Hmeta & Hall)]; [constructor|].
  apply Forall_forall. intros img Himg. rewrite Forall_forall in Havail, Hall.
  destruct (Havail img Himg) as (path & page_num & Hpath & Himg1).
  destruct (Hall img Himg) as (path' & ->).
  injection Himg1 as ->. by exists metadata, path.
Qed.

Lemma add_source_images_origin source_images images :
  Forall P images → Forall P source_images →
  Forall P (fold_left add_source_image source_images images).
Proof.
  intros Himages Hsource. revert images Himages.
  induction Hsource as [|x xs Hx _ IH]; intros images Himages; [done|].
  cbn [fold_left]. apply IH. unfold add_source_image.
  destruct (negb _); [|done]. apply Forall_app. split; [done|].
  by constructor.
Qed.

Lemma process_cited_sources_origin sources images result :
  process_cited_sources json_loads doc_id available_images sources images
  = Ok result →
  Forall P images →
  (∀ source img, source ∈ sources →
                 metadata_record_of json_loads source img
                 ∨ source_record_of available_images source img → P img) →
  Forall P result.
Proof.
  revert images. induction sources as [|x xs IH]; intros images.
  - by intros [= <-].
  - cbn [process_cited_sources]. unfold process_cited_source.
    destruct (process_source_for_images _ x _ _) as [source_images|] eqn:Hx;
      [|done].
    cbn. intros Hres Himages Hrecord. apply (IH _ Hres).
    + apply add_source_images_origin.
      * apply add_metadata_images_origin; [done|].
        intros img Himg. apply (Hrecord x); [left|by left].
      * eapply Forall_impl; [by apply process_source_for_images_origin|].
        intros img Himg. apply (Hrecord x); [left|by right].
    + intros source img Hsource. apply Hrecord. by right.
Qed.

End Provenance.

(** X6.  For a file with a document identifier, every record the correlator
    returns comes from a passage the stored answer cites, and it is either
    the record of an entry of the [images] metadata of that passage (the
    truthy path of the entry under ['file_path'], with the caption of the
    entry) or a record of [process_source_for_images] for that passage: one
    of the images [get_document_images] returns for the document, under
    ['path'], with the caption of the page of the passage. *)
Theorem correlator_records
        (json_loads : string → result pyval) (IMAGES_PATH : string)
        (fs : filesystem) (extract : string → list Z) (st : session_state)
        (source_nodes : list source_node) (file_name doc_id : string)
        (result : list pydict) (img : pydict) :
  _extract_images_from_sources json_loads IMAGES_PATH fs extract
    st source_nodes file_name = Ok result →
  file_document_id st !! file_name = Some doc_id →
  img ∈ result →
  ∃ i source,
    i ∈ stored_citation_indices extract st file_name
    ∧ cited_passage source_nodes i = Some source
    ∧ ((∃ meta s entries d,
          src_metadata source = Some (VDict meta)
          ∧ dict_lookup "images" meta = Some (VStr s)
          ∧ json_loads s = Ok (VList entries)
          ∧ VDict d ∈ entries
          ∧ py_truthy (entry_path d) = true
          ∧ img = [("file_path"%string, entry_path d);
                   ("caption"%string,
                    dict_get_default d "caption" (VStr EmptyString))])
       ∨ (∃ metadata path,
            src_metadata source = Some (VDict metadata)
            ∧ path ∈ get_document_images IMAGES_PATH fs st doc_id
            ∧ img = [("path"%string, VStr path);
                     ("caption"%string,
                      VStr ("Image from page "
                            +:+ py_str (page_display
                                          (dict_get metadata "page"))))])).
Proof.
  intros [->|(doc_id' & Hdoc' & Hloop)]%correlator_cases Hdoc Himg;
    [by apply elem_of_nil in Himg|].
  assert (doc_id' = doc_id) as -> by congruence.
  eapply (process_cited_sources_origin _ _ _
            (λ img, ∃ i source,
               i ∈ stored_citation_indices extract st file_name
               ∧ cited_passage source_nodes i = Some source
               ∧ (metadata_record_of json_loads source img
                  ∨ source_record_of
                      (get_document_images IMAGES_PATH fs st doc_id)
                      source img))) in Hloop.
  - rewrite Forall_forall in Hloop. exact (Hloop img Himg).
  - constructor.
  - intros source img' (i & Hi & Hsource)%list_elem_of_omap Hrecord.
    by exists i, source.
Qed.

Lemma correlator_records_witness :
  ∃ i source,
    i ∈ stored_citation_indices Source.extract_citation_indices
          (Sample.session "Figure 1 shows the result [1].") "paper.pdf"
    ∧ cited_passage [Sample.passage1; Sample.passage2] i = Some source
    ∧ ((∃ meta s entries d,
          src_metadata source = Some (VDict meta)
          ∧ dict_lookup "images" meta = Some (VStr s)
          ∧ Sample.json_loads s = Ok (VList entries)
          ∧ VDict d ∈ entries
          ∧ py_truthy (entry_path d) = true
          ∧ [("file_path"%string, VStr "/app/images/doc1/a.jpg");
             ("caption"%string, VStr EmptyString)]
            = [("file_path"%string, entry_path d);
               ("caption"%string,
                dict_get_default d "caption" (VStr EmptyString))])
       ∨ (∃ metadata path,
            src_metadata source = Some (VDict metadata)
            ∧ path ∈ get_document_images Sample.IMAGES_PATH Sample.fs
                       (Sample.session "Figure 1 shows the result [1].") "doc1"
            ∧ [("file_path"%string, VStr "/app/images/doc1/a.jpg");
               ("caption"%string, VStr EmptyString)]
              = [("path"%string, VStr path);
                 ("caption"%string,
                  VStr ("Image from page "
                        +:+ py_str (page_display
                                      (dict_get metadata "page"))))])).
Proof.
  apply (correlator_records Sample.json_loads Sample.IMAGES_PATH
           Sample.fs Source.extract_citation_indices
           (Sample.session "Figure 1 shows the result [1].")
           [Sample.passage1; Sample.passage2] "paper.pdf" "doc1"
           [ [("file_path"%string, VStr "/app/images/doc1/a.jpg");
              ("caption"%string, VStr EmptyString)];
             image_info (VStr "/app/images/doc1/a.jpg") (VInt 0) ]).
  - vm_compute. reflexivity.
  - vm_compute. reflexivity.
  - left.
Defined.

(** X7.  The result of the correlator holds at most one record of
    [process_source_for_images]: once one is in the list, the test of line
    273 finds a record without ['file_path'] and every later one is skipped,
    also when it is for another image. *)
Theorem correlator_one_source_image
        (json_loads : string → result pyval) (IMAGES_PATH : string)
        (fs : filesystem) (extract : string → list Z) (st : session_state)
        (source_nodes : list source_node) (file_name : string)
        (result : list pydict) (i j : nat) (path1 path2 page1 page2 : pyval) :
  _extract_images_from_sources json_loads IMAGES_PATH fs extract
    st source_nodes file_name = Ok result →
  result !! i = Some (image_info path1 page1) →
  result !! j = Some (image_info path2 page2) →
  i = j.
Proof.
  intros Hres Hi Hj. apply correlator_file_path_distinct in Hres.
  destruct (Nat.lt_trichotomy i j) as [Hlt|[->|Hlt]]; [|done|].
  - pose proof (file_path_distinct_lookup _ _ _ _ _ Hres Hlt Hi Hj) as Hne.
    by rewrite !image_info_file_path in Hne.
  - pose proof (file_path_distinct_lookup _ _ _ _ _ Hres Hlt Hj Hi) as Hne.
    by rewrite !image_info_file_path in Hne.
Qed.

Lemma correlator_one_source_image_witness :
  _extract_images_from_sources Sample.json_loads Sample.IMAGES_PATH Sample.fs
    Source.extract_citation_indices (Sample.session "Both figures [1].")
    [Sample2.two_figures] "paper.pdf"
  = Ok [image_info (VStr "/app/images/doc1/a.jpg") (VInt 7)]
  ∧ process_source_for_images Sample.json_loads Sample2.two_figures "doc1"
      (get_document_images Sample.IMAGES_PATH Sample.fs
         (Sample.session "Both figures [1].") "doc1")
    = Ok [image_info (VStr "/app/images/doc1/a.jpg") (VInt 7);
          image_info (VStr "/app/images/doc1/b-2-0_1743486037.jpg") (VInt 7)]
  ∧ 0%nat = 0%nat.
Proof.
  split_and!; [vm_compute; reflexivity..|].
  apply (correlator_one_source_image Sample.json_loads Sample.IMAGES_PATH
           Sample.fs Source.extract_citation_indices
           (Sample.session "Both figures [1].")
           [Sample2.two_figures] "paper.pdf"
           [image_info (VStr "/app/images/doc1/a.jpg") (VInt 7)]
           0%nat 0%nat (VStr "/app/images/doc1/a.jpg")
           (VStr "/app/images/doc1/a.jpg") (VInt 7) (VInt 7)).
  - vm_compute. reflexivity.
  - reflexivity.
  - reflexivity.
Defined.

Lemma process_cited_sources_well_typed json_loads doc_id available_images
      sources images :
  Forall (λ source, well_typed_source source
                    ∧ images_text_decodes json_loads source) sources →
  ∃ result,
    process_cited_sources json_loads doc_id available_images sources images
    = Ok result.
Proof.
  intros Hall. revert images.
  induction Hall as [|x xs [Hx Hdecodes] _ IH]; intros images; [by eexists|].
  cbn [process_cited_sources]. unfold process_cited_source.
  destruct (process_source_for_images_well_typed json_loads x doc_id
              available_images Hx Hdecodes) as [source_images ->].
  cbn. apply IH.
Qed.

(** X8.  When every source node is well typed (text a string, metadata a
    dict with a string or nothing under ['images'] and a ['page'] within the
    limit of digits) and [json.loads] returns a value or raises
    [json.JSONDecodeError] for the [images] text of each, the correlator
    raises nothing, whatever the stored answer cites. *)
Theorem well_typed_sources_never_raise
        (json_loads : string → result pyval) (IMAGES_PATH : string)
        (fs : filesystem) (extract : string → list Z) (st : session_state)
        (source_nodes : list source_node) (file_name : string) :
  Forall (λ source, well_typed_source source
                    ∧ images_text_decodes json_loads source) source_nodes →
  ∃ result,
    _extract_images_from_sources json_loads IMAGES_PATH fs extract
      st source_nodes file_name = Ok result.
Proof.
  intros Hall. unfold _extract_images_from_sources.
  case_bool_decide; [by eexists|].
  destruct (file_document_id st !! file_name) as [doc_id|]; [|by eexists].
  destruct (String.eqb doc_id EmptyString); [by eexists|].
  rewrite cited_in_stored_answer_spec. cbn.
  destruct (_ && _); [by eexists|].
  case_bool_decide; [by eexists|].
  apply process_cited_sources_well_typed.
  apply Forall_forall. intros x (i & _ & Hx)%list_elem_of_omap.
  rewrite Forall_forall in Hall. apply Hall.
  unfold cited_passage in Hx. case_bool_decide; [|done].
  by eapply list_elem_of_lookup_2.
Qed.

Lemma well_typed_sources_never_raise_witness :
  ∃ result,
    _extract_images_from_sources Sample.json_loads Sample.IMAGES_PATH Sample.fs
      Source.extract_citation_indices (Sample.session "See [1], [2] and [9].")
      [Sample.passage4; Sample.passage5] "paper.pdf" = Ok result.
Proof.
  apply well_typed_sources_never_raise.
  constructor; [|constructor; [|constructor]]; split;
    try (split; cbn; [by eexists|]; eexists; split; [reflexivity|];
         split; [reflexivity|]; split; [reflexivity|]; cbn; by eexists);
    intros d s [= <-] [= <-]; left; by eexists.
Defined.

(** ** More on [get_document_images] *)

Lemma resolved_paths_origin {A} (R : A → option string → Prop) l outcomes p :
  Forall2 R l outcomes → p ∈ omap id outcomes →
  ∃ x, x ∈ l ∧ R x (Some p).
Proof.
  intros Hall (o & Ho & Hid)%list_elem_of_omap. simpl in Hid. subst o.
  apply list_elem_of_lookup in Ho as [i Hi].
  destruct (Forall2_lookup_r _ _ _ _ _ Hall Hi) as (x & Hx & HR).
  exists x. split; [by eapply list_elem_of_lookup_2|done].
Qed.

Lemma outcomes_count (outcomes : list (option string)) :
  (length (omap id outcomes) + length (filter (λ o, o = None) outcomes)
   = length outcomes)%nat.
Proof.
  induction outcomes as [|[p|] os IH]; [done|..].
  - rewrite filter_cons_False by done. cbn. lia.
  - rewrite filter_cons_True by done. cbn. lia.
Qed.

(** X9.  Every path [get_document_images] returns comes from a path
    recorded for the document: it is the absolute form of the recorded
    path, the recorded path itself, or the file of that name in the image
    directory of the document, and then it exists on the disk, or it is the
    first match of the wildcard pattern of the recorded path.  A document
    without an entry in the image map has no images; and in the loop every
    recorded path is either kept or counted as invalid. *)
Theorem document_images_exist (IMAGES_PATH : string) (fs : filesystem)
        (st : session_state) (doc_id : string) :
  (∀ p, p ∈ get_document_images IMAGES_PATH fs st doc_id →
        ∃ images img_path,
          default ∅ (document_image_map st) !! doc_id = Some images
          ∧ img_path ∈ images
          ∧ ((os_path_exists fs p = true
              ∧ (p = os_path_abspath fs img_path ∨ p = img_path
                 ∨ p = exact_candidate IMAGES_PATH doc_id img_path))
             ∨ ∃ others,
                 glob_glob fs (wildcard_pattern IMAGES_PATH doc_id img_path)
                 = p :: others))
  ∧ (default ∅ (document_image_map st) !! doc_id = None →
     get_document_images IMAGES_PATH fs st doc_id = [])
  ∧ (∀ images,
       Z.of_nat (length (fst (verify_image_paths IMAGES_PATH fs doc_id images)))
       + snd (verify_image_paths IMAGES_PATH fs doc_id images)
       = Z.of_nat (length images)).
Proof.
  split_and!.
  - intros p. unfold get_document_images, verify_image_paths.
    destruct (default ∅ (document_image_map st) !! doc_id) as [images|];
      [|by intros ?%elem_of_nil].
    destruct (verify_image_paths_from IMAGES_PATH fs doc_id images [] 0)
      as (outcomes & Hout & ->).
    cbn. intros (img_path & Hin & Hres)%(resolved_paths_origin _ _ _ _ Hout).
    exists images, img_path. split; [done|]. split; [done|].
    inversion Hres; subst; eauto 6.
  - unfold get_document_images. by intros ->.
  - intros images. unfold verify_image_paths.
    destruct (verify_image_paths_from IMAGES_PATH fs doc_id images [] 0)
      as (outcomes & Hout & ->).
    cbn. apply Forall2_length in Hout.
    pose proof (outcomes_count outcomes). lia.
Qed.

Lemma document_images_exist_witness :
  ∃ images img_path,
    default ∅ (document_image_map (Sample.session "Summary [1].")) !! "doc1"
    = Some images
    ∧ img_path ∈ images
    ∧ ((os_path_exists Sample.fs "/app/images/doc1/b-2-0_1743486037.jpg" = true
        ∧ ("/app/images/doc1/b-2-0_1743486037.jpg"%string
           = os_path_abspath Sample.fs img_path
           ∨ "/app/images/doc1/b-2-0_1743486037.jpg"%string = img_path
           ∨ "/app/images/doc1/b-2-0_1743486037.jpg"%string
             = exact_candidate Sample.IMAGES_PATH "doc1" img_path))
       ∨ ∃ others,
           glob_glob Sample.fs
             (wildcard_pattern Sample.IMAGES_PATH "doc1" img_path)
           = "/app/images/doc1/b-2-0_1743486037.jpg"%string :: others).
Proof.
  apply (document_images_exist Sample.IMAGES_PATH Sample.fs
           (Sample.session "Summary [1].") "doc1").
  vm_compute. right. left.
Defined.

(** X10.  When the absolute form of every recorded path exists, the images
    of the document are these absolute paths, in the recorded order. *)
Theorem existing_images_kept_in_order (IMAGES_PATH : string) (fs : filesystem)
        (st : session_state) (doc_id : string) (images : list string) :
  default ∅ (document_image_map st) !! doc_id = Some images →
  (∀ p, p ∈ images → os_path_exists fs (os_path_abspath fs p) = true) →
  get_document_images IMAGES_PATH fs st doc_id = os_path_abspath fs <$> images.
Proof.
  intros Hmap Hexist. unfold get_document_images, verify_image_paths.
  rewrite Hmap.
  destruct (verify_image_paths_from IMAGES_PATH fs doc_id images [] 0)
    as (outcomes & Hout & ->).
  cbn. clear Hmap. induction Hout as [|p o ps os Hp _ IH]; [done|].
  assert (o = Some (os_path_abspath fs p)) as ->.
  { eapply resolves_to_deterministic; [exact Hp|].
    apply by_absolute_path, Hexist. left. }
  cbn. f_equal. apply IH. intros q Hq. apply Hexist. by right.
Qed.

Lemma existing_images_kept_in_order_witness :
  get_document_images Sample.IMAGES_PATH Sample.fs
    {| file_document_id := ∅;
       document_responses := None;
       document_image_map :=
         Some {[ "doc1"%string :=
                   ["images/doc1/b-2-0_1743486037.jpg";
                    "/app/images/doc1/a.jpg"]%string ]} |}
    "doc1"
  = os_path_abspath Sample.fs
      <$> ["images/doc1/b-2-0_1743486037.jpg"; "/app/images/doc1/a.jpg"]%string.
Proof.
  apply existing_images_kept_in_order.
  - vm_compute. reflexivity.
  - intros p Hp. apply elem_of_cons in Hp as [->|Hp]; [vm_compute; reflexivity|].
    apply list_elem_of_singleton in Hp as ->. vm_compute. reflexivity.
Defined.

(** ** The page label of an image file name *)

Lemma split_from_append sep cur a b :
  split_from sep cur (a +:+ String sep b)
  = split_from sep cur a ++ split_from sep EmptyString b.
Proof.
  revert cur. induction a as [|c a IH]; intros cur.
  - rewrite append_nil_l. cbn. by rewrite Ascii.eqb_refl.
  - rewrite append_cons. cbn. destruct (Ascii.eqb c sep); [|apply IH].
    by rewrite IH.
Qed.

Lemma split_from_no_separator sep cur s :
  has_char sep s = false → split_from sep cur s = [cur +:+ s].
Proof.
  revert cur. induction s as [|c s IH]; intros cur Hs.
  - cbn. f_equal. induction cur as [|x cur IHcur]; [done|].
    rewrite append_cons. by rewrite <- IHcur.
  - cbn in Hs. apply orb_false_iff in Hs as [Hc Hs]. cbn. rewrite Hc.
    rewrite IH by done. by rewrite append_assoc.
Qed.

Lemma digit_not_special c :
  is_digit c = true →
  is_int_space c = false ∧ Ascii.eqb c "-" = false ∧ Ascii.eqb c "+" = false.
Proof.
  destruct c as [[] [] [] [] [] [] [] []]; vm_compute; intros; try done.
Qed.

Lemma all_digits_no_dash s : all_digits s = true → has_char "-" s = false.
Proof.
  induction s as [|c s IH]; [done|]. cbn.
  intros [Hc Hs]%andb_true_iff.
  destruct (digit_not_special c Hc) as (_ & -> & _). by apply IH.
Qed.

Lemma int_rstrip_digits s : all_digits s = true → int_rstrip s = s.
Proof.
  induction s as [|c s IH]; [done|]. cbn.
  intros [Hc Hs]%andb_true_iff. rewrite (IH Hs).
  destruct (digit_not_special c Hc) as (-> & _ & _). by destruct s.
Qed.

Lemma int_strip_digits s :
  all_digits s = true → int_rstrip (int_lstrip s) = s.
Proof.
  intros Hs. destruct s as [|c s]; [done|].
  cbn [int_lstrip]. cbn in Hs. apply andb_true_iff in Hs as [Hc Hs'].
  destruct (digit_not_special c Hc) as (-> & _ & _).
  apply int_rstrip_digits. cbn. by rewrite Hc.
Qed.

Lemma int_digits_all_digits after_digit acc s :
  all_digits s = true → s ≠ EmptyString →
  int_digits after_digit acc s = Some (int_acc acc s).
Proof.
  revert after_digit acc. induction s as [|c s IH]; intros b acc Hs Hne; [done|].
  cbn in *. apply andb_true_iff in Hs as [Hc Hs]. rewrite Hc.
  destruct s as [|c' s']; [done|]. by apply IH.
Qed.

Lemma int_of_string_digits s :
  all_digits s = true → s ≠ EmptyString → int_of_string s = Some (decimal_value s).
Proof.
  intros Hs Hne. unfold int_of_string. rewrite int_strip_digits by done.
  destruct s as [|c r]; [done|].
  cbn in Hs. apply andb_true_iff in Hs as [Hc Hr].
  destruct (digit_not_special c Hc) as (_ & -> & ->).
  apply int_digits_all_digits; [|done]. cbn. by rewrite Hc.
Qed.

(** X11.  The page label of an image path (lines 116-124 of
    [display_document_images]): for a file name of the form
    [<stem>-<page>-<rest>], with [<page>] the decimal digits of [n] and no
    dash in [<rest>], the label is [n + 1], whatever dashes the stem holds;
    for a file name without a dash it is "Unknown". *)
Theorem page_label_of_file_name (img_path : string) :
  (∀ stem n rest,
     basename img_path = stem +:+ "-" +:+ py_str n +:+ "-" +:+ rest →
     0 ≤ n → has_char "-" rest = false →
     page_label img_path = Some (n + 1))
  ∧ (has_char "-" (basename img_path) = false → page_label img_path = None).
Proof.
  split.
  - intros stem n rest Hname Hn Hrest. unfold page_label, py_split.
    rewrite Hname.
    change (stem +:+ "-" +:+ py_str n +:+ "-" +:+ rest)
      with (stem +:+ String "-" (py_str n +:+ String "-" rest)).
    rewrite split_from_append, split_from_append.
    rewrite (split_from_no_separator _ _ (py_str n))
      by (by apply all_digits_no_dash, py_str_digits).
    rewrite (split_from_no_separator _ _ rest) by done.
    rewrite !append_nil_l.
    set (parts := split_from "-" EmptyString stem).
    change (parts ++ [py_str n] ++ [rest]) with (parts ++ [py_str n; rest]).
    assert ((2 <=? length (parts ++ [py_str n; rest]))%nat = true) as ->.
    { apply Nat.leb_le. rewrite length_app. simpl. lia. }
    assert (py_index (parts ++ [py_str n; rest]) (-2) = Ok (py_str n)) as ->.
    { unfold py_index. cbn [Z.ltb Z.compare].
      rewrite length_app. cbn [length].
      assert ((0 <=? -2 + Z.of_nat (length parts + 2))
              && (-2 + Z.of_nat (length parts + 2)
                  <? Z.of_nat (length parts + 2)) = true) as ->.
      { apply andb_true_iff. split; [apply Z.leb_le|apply Z.ltb_lt]; lia. }
      replace (Z.to_nat (-2 + Z.of_nat (length parts + 2)))
        with (length parts) by lia.
      by rewrite list_lookup_middle. }
    rewrite int_of_string_digits
      by (first [by apply py_str_digits | by apply py_str_nonempty]).
    by rewrite decimal_value_py_str.
  - intros Hnone. unfold page_label, py_split.
    by rewrite split_from_no_separator.
Qed.

Lemma page_label_of_file_name_witness :
  page_label "/app/images/doc1/P19-1044.pdf-3-0.jpg" = Some (3 + 1)
  ∧ page_label "/app/images/doc1/cover.jpg" = None.
Proof.
  destruct (page_label_of_file_name "/app/images/doc1/P19-1044.pdf-3-0.jpg")
    as [Hlabel _].
  destruct (page_label_of_file_name "/app/images/doc1/cover.jpg")
    as [_ Hnone].
  split.
  - apply (Hlabel "P19-1044.pdf"%string 3 "0.jpg"%string);
      [vm_compute; reflexivity|lia|reflexivity].
  - apply Hnone. vm_compute. reflexivity.
Defined.

(** ** [process_query] *)

Lemma init_document_response_lookup st file_name f :
  default ∅ (document_responses (init_document_response st file_name)) !! f
  = if decide (f = file_name)
    then Some (default EmptyResponse
                 (default ∅ (document_responses st) !! file_name))
    else default ∅ (document_responses st) !! f.
Proof.
  unfold init_document_response. cbn.
  destruct (default ∅ (document_responses st) !! file_name) as [r|] eqn:Hr.
  - case_decide as Hf; [by subst|done].
  - case_decide as Hf; [subst; by rewrite lookup_insert_eq|].
    by rewrite lookup_insert_ne.
Qed.

Lemma store_document_response_lookup st file_name r f :
  default ∅ (document_responses (store_document_response st file_name r)) !! f
  = if decide (f = file_name) then Some r
    else default ∅ (document_responses st) !! f.
Proof.
  unfold store_document_response. cbn.
  case_decide as Hf; [subst; by rewrite lookup_insert_eq|].
  by rewrite lookup_insert_ne.
Qed.

Lemma correlator_nothing_cited json_loads IMAGES_PATH fs extract st
      source_nodes file_name :
  omap (cited_passage source_nodes)
       (stored_citation_indices extract st file_name) = [] →
  _extract_images_from_sources json_loads IMAGES_PATH fs extract
    st source_nodes file_name = Ok [].
Proof.
  intros Hnone. unfold _extract_images_from_sources.
  case_bool_decide; [done|].
  destruct (file_document_id st !! file_name) as [doc_id|]; [|done].
  destruct (String.eqb doc_id EmptyString); [done|].
  rewrite cited_in_stored_answer_spec, Hnone. cbn.
  by destruct (bool_decide (stored_citation_indices extract st file_name = [])).
Qed.

Section ProcessQueryProperties.

Variable json_loads : string → result pyval.
Variable IMAGES_PATH : string.
Variable fs : filesystem.
Variable extract : string → list Z.
Variable failure_text : query_failure → string.
Variable query_engine : gmap string (string → option query_response).

Lemma process_response_cases st prompt file_name response :
  (∃ e, process_response json_loads IMAGES_PATH fs extract st prompt file_name
          response = (inl e, st))
  ∨ (∃ e, process_response json_loads IMAGES_PATH fs extract st prompt
            file_name response
          = (inl e, init_document_response st file_name))
  ∨ (∃ answer citation_map images,
       renumber_citations extract
         (default (resp_str response) (resp_response response))
       = Ok (answer, citation_map)
       ∧ _extract_images_from_sources json_loads IMAGES_PATH fs extract
           (init_document_response st file_name)
           (default [] (resp_source_nodes response)) file_name = Ok images
       ∧ process_response json_loads IMAGES_PATH fs extract st prompt file_name
           response
         = (inr {| res_answer := answer;
                   res_sources := default [] (resp_source_nodes response);
                   res_images := images |},
            store_document_response (init_document_response st file_name)
              file_name
              (StoredResponse prompt answer
                 (default [] (resp_source_nodes response)) images))).
Proof.
  unfold process_response.
  destruct (head (omap preview_raises _)) as [bad|]; [left; by eexists|].
  destruct (renumber_citations extract _) as [[answer citation_map]|e];
    [|left; by eexists].
  destruct (_extract_images_from_sources _ _ _ _ _ _ _) as [images|e].
  - right. right. by exists answer, citation_map, images.
  - right. left. by eexists.
Qed.

End ProcessQueryProperties.

(** X12.  [process_query] leaves the document identifiers and the image map
    of the session as they are, and the stored responses of all other
    files. *)
Theorem process_query_frame
        (json_loads : string → result pyval) (IMAGES_PATH : string)
        (fs : filesystem) (extract : string → list Z)
        (failure_text : query_failure → string)
        (query_engine : gmap string (string → option query_response))
        (st : session_state) (prompt file_name : string) :
  let st' := snd (process_query json_loads IMAGES_PATH fs extract failure_text
                    query_engine st prompt file_name) in
  file_document_id st' = file_document_id st
  ∧ document_image_map st' = document_image_map st
  ∧ (∀ f, f ≠ file_name →
          default ∅ (document_responses st') !! f
          = default ∅ (document_responses st) !! f).
Proof.
  cbn zeta. unfold process_query.
  destruct (query_engine !! file_name) as [query|]; [|done].
  destruct (query prompt) as [response|]; [|done].
  destruct (process_response_cases json_loads IMAGES_PATH fs extract st prompt
              file_name response)
    as [[e ->]|[[e ->]|(answer & citation_map & images & _ & _ & ->)]];
    cbn [snd].
  - done.
  - split_and!; [done..|]. intros f Hf.
    rewrite init_document_response_lookup. by rewrite decide_False.
  - split_and!; [done..|]. intros f Hf.
    rewrite store_document_response_lookup, decide_False by done.
    rewrite init_document_response_lookup. by rewrite decide_False.
Qed.

Lemma process_query_frame_witness :
  default ∅ (document_responses
               (snd (process_query Sample.json_loads Sample.IMAGES_PATH Sample.fs
                       Source.extract_citation_indices Sample2.failure_text
                       Sample2.query_engine (Sample.session "Earlier [1].")
                       "What is new?" "paper.pdf"))) !! "other.pdf"
  = default ∅ (document_responses (Sample.session "Earlier [1].")) !! "other.pdf".
Proof.
  apply (process_query_frame Sample.json_loads Sample.IMAGES_PATH Sample.fs
           Source.extract_citation_indices Sample2.failure_text
           Sample2.query_engine (Sample.session "Earlier [1].")
           "What is new?" "paper.pdf").
  discriminate.
Defined.

(** X13.  The images of a query come from the answer stored before it: the
    first query on a file, when nothing (or the empty placeholder) is stored
    for it, returns no images, whatever the passages of the response hold,
    provided the extraction helper finds no index in the empty text. *)
Theorem first_query_has_no_images
        (json_loads : string → result pyval) (IMAGES_PATH : string)
        (fs : filesystem) (extract : string → list Z)
        (failure_text : query_failure → string)
        (query_engine : gmap string (string → option query_response))
        (st : session_state) (prompt file_name : string) :
  extract EmptyString = [] →
  default ∅ (document_responses st) !! file_name = None
  ∨ default ∅ (document_responses st) !! file_name = Some EmptyResponse →
  res_images (fst (process_query json_loads IMAGES_PATH fs extract failure_text
                     query_engine st prompt file_name)) = [].
Proof.
  intros Hempty Hfresh. unfold process_query.
  destruct (query_engine !! file_name) as [query|]; [|done].
  destruct (query prompt) as [response|]; [|done].
  destruct (process_response_cases json_loads IMAGES_PATH fs extract st prompt
              file_name response)
    as [[e ->]|[[e ->]|(answer & citation_map & images & _ & Himages & ->)]];
    [done..|].
  cbn. rewrite correlator_nothing_cited in Himages; [congruence|].
  unfold stored_citation_indices.
  rewrite init_document_response_lookup, decide_True by done.
  by destruct Hfresh as [-> | ->]; cbn; rewrite Hempty.
Qed.

Lemma first_query_has_no_images_witness :
  res_images (fst (process_query Sample.json_loads Sample.IMAGES_PATH Sample.fs
                     Source.extract_citation_indices Sample2.failure_text
                     Sample2.query_engine Sample2.fresh_session
                     "What is new?" "paper.pdf")) = [].
Proof.
  apply first_query_has_no_images.
  - reflexivity.
  - left. reflexivity.
Defined.

(** X14.  [process_query] either returns an error-shaped result (no sources,
    no images) and leaves a response stored for the file as it was, or it
    returns the renumbered answer with the sources of the response and
    stores exactly what it returns, with the prompt, for the file. *)
Theorem process_query_outcome
        (json_loads : string → result pyval) (IMAGES_PATH : string)
        (fs : filesystem) (extract : string → list Z)
        (failure_text : query_failure → string)
        (query_engine : gmap string (string → option query_response))
        (st : session_state) (prompt file_name : string) :
  let result := fst (process_query json_loads IMAGES_PATH fs extract
                       failure_text query_engine st prompt file_name) in
  let st' := snd (process_query json_loads IMAGES_PATH fs extract failure_text
                    query_engine st prompt file_name) in
  (res_sources result = [] ∧ res_images result = []
   ∧ ∀ r, default ∅ (document_responses st) !! file_name = Some r →
          default ∅ (document_responses st') !! file_name = Some r)
  ∨ (∃ query response citation_map,
       query_engine !! file_name = Some query ∧ query prompt = Some response
       ∧ renumber_citations extract
           (default (resp_str response) (resp_response response))
         = Ok (res_answer result, citation_map)
       ∧ res_sources result = default [] (resp_source_nodes response)
       ∧ default ∅ (document_responses st') !! file_name
         = Some (StoredResponse prompt (res_answer result) (res_sources result)
                                (res_images result))).
Proof.
  cbn zeta. unfold process_query.
  destruct (query_engine !! file_name) as [query|] eqn:Hquery; [|by left].
  destruct (query prompt) as [response|] eqn:Hresponse; [|by left].
  destruct (process_response_cases json_loads IMAGES_PATH fs extract st prompt
              file_name response)
    as [[e ->]|[[e ->]|(answer & citation_map & images & Hanswer & _ & ->)]];
    cbn [fst snd].
  - by left.
  - left. split_and!; [done..|]. intros r Hr.
    rewrite init_document_response_lookup, decide_True by done.
    by rewrite Hr.
  - right. exists query, response, citation_map. split_and!; [done..|].
    rewrite store_document_response_lookup. by rewrite decide_True.
Qed.

Lemma cited_passage_succ (source_nodes : list source_node) (k : nat) :
  cited_passage source_nodes (1 + Z.of_nat k) = source_nodes !! k.
Proof.
  unfold cited_passage. replace (Z.to_nat (1 + Z.of_nat k - 1)) with k by lia.
  case_bool_decide as Hk; [done|].
  symmetry. apply lookup_ge_None. lia.
Qed.

Lemma omap_cited_passage_seqZ (source_nodes : list source_node) (k : nat) :
  omap (cited_passage source_nodes) (seqZ 1 (Z.of_nat k)) = take k source_nodes.
Proof.
  induction k as [|k IH]; [done|].
  rewrite seqZ_S, omap_app, IH.
  change (omap (cited_passage source_nodes) [1 + Z.of_nat k])
    with (option_list (cited_passage source_nodes (1 + Z.of_nat k))).
  rewrite cited_passage_succ.
  destruct (source_nodes !! k) as [x|] eqn:Hk.
  - by rewrite (take_S_r _ _ x).
  - apply lookup_ge_None in Hk as Hge.
    rewrite !take_ge by lia. apply app_nil_r.
Qed.

(** X15.  After a query that succeeds, the stored answer has the markers
    1, ..., K (K the number of distinct markers of the engine's answer), so
    for the next response on that file the correlator takes the first K
    source passages, in order, as the cited ones, provided the extraction
    helper returns the distinct bracketed integers in first-occurrence
    order. *)
Theorem next_query_cites_first_passages
        (json_loads : string → result pyval) (IMAGES_PATH : string)
        (fs : filesystem) (extract : string → list Z)
        (st st' : session_state) (prompt file_name : string)
        (response : query_response) (result : query_result)
        (next_source_nodes : list source_node) :
  (∀ text, extract text = Source.extract_citation_indices text) →
  process_response json_loads IMAGES_PATH fs extract st prompt file_name response
  = (inr result, st') →
  let K := length (extract (default (resp_str response)
                                    (resp_response response))) in
  cited_in_stored_answer extract st' next_source_nodes file_name
  = Ok (seqZ 1 (Z.of_nat K), take K next_source_nodes).
Proof.
  intros Hextract Hresponse. cbn zeta.
  destruct (process_response_cases json_loads IMAGES_PATH fs extract st prompt
              file_name response)
    as [[e He]|[[e He]|(answer & citation_map & images & Hanswer & _ & He)]];
    rewrite He in Hresponse; [done..|].
  injection Hresponse as _ <-.
  rewrite cited_in_stored_answer_spec. unfold stored_citation_indices.
  rewrite store_document_response_lookup, decide_True by done.
  cbn [response_answer].
  apply renumber_citations_Ok in Hanswer as (_ & -> & ->).
  rewrite !Hextract.
  rewrite extract_renumbered. by rewrite omap_cited_passage_seqZ.
Qed.

Lemma next_query_cites_first_passages_witness :
  ∃ result st',
    process_response Sample.json_loads Sample.IMAGES_PATH Sample.fs
      Source.extract_citation_indices Sample2.fresh_session
      "What is new?" "paper.pdf" Sample2.response = (inr result, st')
    ∧ res_answer result = "The method [1] extends [2]; see [1] and [3]."%string
    ∧ cited_in_stored_answer Source.extract_citation_indices st'
        [Sample.passage1; Sample.passage2; Sample.passage4; Sample.passage5]
        "paper.pdf"
      = Ok (seqZ 1 (Z.of_nat 3),
            take 3 [Sample.passage1; Sample.passage2; Sample.passage4;
                    Sample.passage5]).
Proof.
  eexists _, _. split_and!.
  - vm_compute. reflexivity.
  - vm_compute. reflexivity.
  - eapply (next_query_cites_first_passages Sample.json_loads
             Sample.IMAGES_PATH Sample.fs Source.extract_citation_indices
             Sample2.fresh_session _ "What is new?" "paper.pdf"
             Sample2.response _
             [Sample.passage1; Sample.passage2; Sample.passage4;
              Sample.passage5]); [done|].
    vm_compute. reflexivity.
Defined.

Lemma process_query_outcome_witness :
  let result := fst (process_query Sample.json_loads Sample.IMAGES_PATH Sample.fs
                       Source.extract_citation_indices Sample2.failure_text
                       Sample2.query_engine Sample2.fresh_session
                       "What is new?" "paper.pdf") in
  let st' := snd (process_query Sample.json_loads Sample.IMAGES_PATH Sample.fs
                    Source.extract_citation_indices Sample2.failure_text
                    Sample2.query_engine Sample2.fresh_session
                    "What is new?" "paper.pdf") in
  res_answer result = "The method [1] extends [2]; see [1] and [3]."%string
  ∧ default ∅ (document_responses st') !! "paper.pdf"
    = Some (StoredResponse "What is new?" (res_answer result)
                           (res_sources result) (res_images result)).
Proof.
  cbn zeta. split; [vm_compute; reflexivity|].
  destruct (process_query_outcome Sample.json_loads Sample.IMAGES_PATH Sample.fs
              Source.extract_citation_indices Sample2.failure_text
              Sample2.query_engine Sample2.fresh_session
              "What is new?" "paper.pdf")
    as [(Hsources & _)|(query & response & m & _ & _ & _ & _ & Hstored)].
  - vm_compute in Hsources. discriminate.
  - exact Hstored.
Defined.

(** X16.  A response with a source whose [text] attribute is not a string
    makes the query fail, cited or not: the logging loop of lines 116-120 is
    outside the inner [try] blocks, so the result is the error answer with no
    sources and no images, and the session state is left as it was. *)
Theorem malformed_passage_fails_query
        (json_loads : string → result pyval) (IMAGES_PATH : string)
        (fs : filesystem) (extract : string → list Z)
        (failure_text : query_failure → string)
        (query_engine : gmap string (string → option query_response))
        (st : session_state) (prompt file_name : string)
        (query : string → option query_response) (response : query_response)
        (source : source_node) (text : pyval) :
  query_engine !! file_name = Some query →
  query prompt = Some response →
  source ∈ default [] (resp_source_nodes response) →
  src_text source = Some text → (∀ s, text ≠ VStr s) →
  ∃ bad,
    process_query json_loads IMAGES_PATH fs extract failure_text query_engine
      st prompt file_name
    = (error_result ("Error processing your query: "
                     +:+ failure_text (PreviewRaised bad)), st).
Proof.
  intros Hquery Hresponse Hsource Htext Hbad.
  unfold process_query. rewrite Hquery, Hresponse. unfold process_response.
  assert (∃ bad, bad ∈ omap preview_raises
                         (default [] (resp_source_nodes response)))
    as [bad Hin].
  { destruct (preview_raises source) as [bad|] eqn:Hraises.
    - exists bad. apply list_elem_of_omap. by exists source.
    - exfalso. unfold preview_raises in Hraises. rewrite Htext in Hraises.
      destruct (py_writable _); [|done].
      destruct text; try done. by destruct (Hbad s). }
  destruct (omap preview_raises (default [] (resp_source_nodes response)))
    as [|bad' rest]; [by apply elem_of_nil in Hin|].
  cbn. by exists bad'.
Qed.

Lemma malformed_passage_fails_query_witness :
  ∃ bad,
    process_query Sample.json_loads Sample.IMAGES_PATH Sample.fs
      Source.extract_citation_indices Sample2.failure_text
      {[ "paper.pdf"%string :=
           λ _, Some {| resp_response := Some "Fine [1]."%string;
                        resp_str := "Response";
                        resp_source_nodes :=
                          Some [Sample.passage2;
                                {| src_text := Some VNone;
                                   src_metadata := Some (VDict []) |}] |} ]}
      Sample2.fresh_session "What is new?" "paper.pdf"
    = (error_result ("Error processing your query: "
                     +:+ Sample2.failure_text (PreviewRaised bad)),
       Sample2.fresh_session).
Proof.
  eapply malformed_passage_fails_query with
    (source := {| src_text := Some VNone; src_metadata := Some (VDict []) |}).
  - vm_compute. reflexivity.
  - reflexivity.
  - right. left.
  - reflexivity.
  - discriminate.
Defined.

(** ** Edge cases of the inline references and of the image index *)

Lemma basename_from_trailing_slash cur q :
  basename_from cur (q +:+ "/") = EmptyString.
Proof.
  revert cur. induction q as [|c q IH]; intros cur; [done|].
  rewrite append_cons. cbn. destruct (Ascii.eqb c "/"); apply IH.
Qed.

Lemma py_contains_empty hay : py_contains hay EmptyString = true.
Proof. destruct hay; reflexivity. Qed.

(** X17.  An inline reference that ends in a slash and is not itself an
    available image has an empty file name, which is a substring of every
    path: it yields a record for the first available image. *)
Theorem reference_to_directory (page_num : pyval)
        (available_images : list string) (img_path q first : string)
        (others : list string) :
  strip img_path = q +:+ "/" →
  strip img_path ∉ available_images →
  available_images = first :: others →
  images_of_reference page_num available_images img_path
  = [image_info (VStr first) page_num].
Proof.
  intros Hstrip Hnot ->. unfold images_of_reference.
  rewrite bool_decide_eq_false_2 by done.
  rewrite Hstrip. unfold basename. rewrite basename_from_trailing_slash.
  cbn [find]. by rewrite py_contains_empty.
Qed.

Lemma reference_to_directory_witness :
  images_of_reference (VInt 2)
    ["/app/images/doc1/a.jpg"; "/app/images/doc1/b.jpg"]%string " images/doc1/ "
  = [image_info (VStr "/app/images/doc1/a.jpg") (VInt 2)].
Proof.
  apply (reference_to_directory (VInt 2) _ " images/doc1/ " "images/doc1"
           "/app/images/doc1/a.jpg" ["/app/images/doc1/b.jpg"%string]).
  - vm_compute. reflexivity.
  - vm_compute. intros Hin.
    apply elem_of_cons in Hin as [Hin|Hin]; [discriminate|].
    apply list_elem_of_singleton in Hin. discriminate.
  - reflexivity.
Defined.

(** X18.  When no recorded path of the document exists, as absolute or as
    given, and the document has no image directory, [get_document_images]
    returns no image and the loop counts every recorded path as invalid. *)
Theorem missing_directory_no_images (IMAGES_PATH : string) (fs : filesystem)
        (st : session_state) (doc_id : string) (images : list string) :
  default ∅ (document_image_map st) !! doc_id = Some images →
  (∀ p, p ∈ images → os_path_exists fs (os_path_abspath fs p) = false
                     ∧ os_path_exists fs p = false) →
  os_path_exists fs (path_join IMAGES_PATH doc_id) = false →
  get_document_images IMAGES_PATH fs st doc_id = []
  ∧ snd (verify_image_paths IMAGES_PATH fs doc_id images)
    = Z.of_nat (length images).
Proof.
  intros Hmap Hmissing Hdir. unfold get_document_images, verify_image_paths.
  rewrite Hmap.
  destruct (verify_image_paths_from IMAGES_PATH fs doc_id images [] 0)
    as (outcomes & Hout & ->).
  cbn [fst snd]. clear Hmap.
  assert (outcomes = replicate (length images) None) as ->.
  { induction Hout as [|p o ps os Hp _ IH]; [done|].
    cbn. f_equal.
    - eapply resolves_to_deterministic; [exact Hp|].
      destruct (Hmissing p) as [Habs Hrel]; [left|].
      by apply unresolved_no_directory.
    - apply IH. intros q Hq. apply Hmissing. by right. }
  clear Hout. induction (length images) as [|n [IH1 IH2]]; [done|].
  cbn [replicate]. rewrite filter_cons_True by done. cbn in *.
  split; [done|lia].
Qed.

Lemma missing_directory_no_images_witness :
  get_document_images Sample.IMAGES_PATH Sample.fs
    {| file_document_id := ∅;
       document_responses := None;
       document_image_map :=
         Some {[ "doc9"%string := ["x/p-0-0.jpg"; "x/p-1-0.jpg"]%string ]} |}
    "doc9" = []
  ∧ snd (verify_image_paths Sample.IMAGES_PATH Sample.fs "doc9"
           ["x/p-0-0.jpg"; "x/p-1-0.jpg"]%string)
    = Z.of_nat (length ["x/p-0-0.jpg"; "x/p-1-0.jpg"]%string).
Proof.
  apply missing_directory_no_images.
  - vm_compute. reflexivity.
  - intros p Hp. apply elem_of_cons in Hp as [->|Hp]; [by vm_compute|].
    apply list_elem_of_singleton in Hp as ->. by vm_compute.
  - vm_compute. reflexivity.
Defined.

(** ** Citing more passages *)

Lemma process_cited_sources_app json_loads doc_id available_images
      sources1 sources2 images :
  process_cited_sources json_loads doc_id available_images
    (sources1 ++ sources2) images
  = (images1 ← process_cited_sources json_loads doc_id available_images
                 sources1 images;
     process_cited_sources json_loads doc_id available_images sources2 images1).
Proof.
  revert images. induction sources1 as [|x xs IH]; intros images; [done|].
  cbn [app process_cited_sources].
  destruct (process_cited_source _ _ _ images x) as [images'|]; [|done].
  cbn. apply IH.
Qed.

(** X19.  The loop over the cited sources only appends: the records found
    for the first cited passages are a prefix of the records found when more
    passages are cited after them, and the records the loop starts from stay
    at the front. *)
Theorem cited_sources_append_only (json_loads : string → result pyval)
        (doc_id : string) (available_images : list string)
        (sources1 sources2 : list source_node) (images result : list pydict) :
  process_cited_sources json_loads doc_id available_images
    (sources1 ++ sources2) images = Ok result →
  ∃ result1,
    process_cited_sources json_loads doc_id available_images sources1 images
    = Ok result1
    ∧ images `prefix_of` result1 ∧ result1 `prefix_of` result.
Proof.
  rewrite process_cited_sources_app.
  destruct (process_cited_sources _ _ _ sources1 images) as [result1|] eqn:H1;
    [|done].
  cbn. intros H2. exists result1. split_and!; [done|..].
  - eapply (process_cited_sources_inv _ _ _ (λ l, images `prefix_of` l));
      [..|exact H1|done];
      intros; by apply prefix_app_r.
  - eapply (process_cited_sources_inv _ _ _ (λ l, result1 `prefix_of` l));
      [..|exact H2|done];
      intros; by apply prefix_app_r.
Qed.

Lemma cited_sources_append_only_witness :
  ∃ result1,
    process_cited_sources Sample.json_loads "doc1"
      ["/app/images/doc1/a.jpg"%string] [Sample.passage6] [] = Ok result1
    ∧ [] `prefix_of` result1
    ∧ result1 `prefix_of`
        [image_info (VStr "/app/images/doc1/a.jpg") (VInt 0);
         [("file_path"%string, VStr "/app/images/doc1/a.jpg");
          ("caption"%string, VStr EmptyString)]].
Proof.
  apply (cited_sources_append_only Sample.json_loads "doc1"
           ["/app/images/doc1/a.jpg"%string] [Sample.passage6] [Sample.passage7]).
  vm_compute. reflexivity.
Defined.

Lemma citation_map_gapless_witness :
  let citation_map := build_citation_map [9; 4; 9; 2; 4] in
  (∀ n, is_Some (citation_map !! n) ↔ n ∈ [9; 4; 9; 2; 4])
  ∧ (∀ v, (∃ n, citation_map !! n = Some v)
          ↔ 1 ≤ v ≤ Z.of_nat (size citation_map))
  ∧ (∀ n1 n2 v, citation_map !! n1 = Some v → citation_map !! n2 = Some v →
                n1 = n2).
Proof. exact (citation_map_gapless [9; 4; 9; 2; 4]). Defined.

(** ** A second renumbering *)

(** X20.  For every extraction helper whose first occurrences are those of
    the bracketed integers of the text: after a renumbering that returns,
    the distinct markers of the rewritten text are 1, ..., K in order of
    first occurrence, K being the size of the citation map, and renumbering
    the rewritten text again returns it unchanged, provided its markers are
    within the limit of digits (they are the numerals of 1, ..., K). *)
Theorem renumbering_is_idempotent (extract : string → list Z)
        (text once : string) (citation_map : gmap Z Z) :
  (∀ t, Source.first_occurrences_from [] (extract t)
        = Source.first_occurrences_from [] (cited_numbers t)) →
  renumber_citations extract text = Ok (once, citation_map) →
  Source.first_occurrences_from [] (cited_numbers once)
  = seqZ 1 (Z.of_nat (size citation_map))
  ∧ (markers_within_limit once = true →
     ∃ citation_map',
       renumber_citations extract once = Ok (once, citation_map')).
Proof.
  intros Hextract (_ & -> & ->)%renumber_citations_Ok.
  destruct (second_citation_map extract Hextract text) as (_ & Hmarkers & _).
  split; [exact Hmarkers|]. intros Hlimit.
  rewrite renumber_citations_within_limit by done.
  eexists. by rewrite (rewrite_markers_idempotent extract Hextract text).
Qed.

Lemma renumbering_is_idempotent_witness :
  Source.first_occurrences_from []
    (cited_numbers "The method [1] extends [2]; see [1] and [3].")
  = seqZ 1 (Z.of_nat (size ({[ 12 := 1; 4 := 2; 7 := 3 ]} : gmap Z Z)))
  ∧ ∃ citation_map',
      renumber_citations Source.extract_citation_indices
        "The method [1] extends [2]; see [1] and [3]."
      = Ok ("The method [1] extends [2]; see [1] and [3]."%string,
            citation_map').
Proof.
  destruct (renumbering_is_idempotent Source.extract_citation_indices
              "The method [12] extends [4]; see [12] and [7]."
              "The method [1] extends [2]; see [1] and [3]."
              {[ 12 := 1; 4 := 2; 7 := 3 ]}) as [Hmarkers Hagain].
  - apply extract_first_occurrences_unchanged.
  - vm_compute. reflexivity.
  - split; [exact Hmarkers|]. apply Hagain. vm_compute. reflexivity.
Defined.

(** What a second renumbering does is not fixed by the block of lines
    127-142 alone: it depends on the helper.  With a helper that also reads
    the integer of a signed marker, which the pattern of [re.sub] does not
    match, the second pass changes the text. *)
Remark second_pass_depends_on_helper :
  renumber_citations Sample3.signed_extract "[+2] and [5], [7]"
  = Ok ("[+2] and [2], [3]"%string, {[ 2 := 1; 5 := 2; 7 := 3 ]})
  ∧ renumber_citations Sample3.signed_extract "[+2] and [2], [3]"
    = Ok ("[+2] and [1], [2]"%string, {[ 2 := 1; 3 := 2 ]}).
Proof. split; vm_compute; reflexivity. Qed.

(** ** The limit of digits *)

(** X21.  An answer with a marker of more than 4300 digits makes the query
    fail: [int] raises [ValueError] in [replace_citation], whatever the
    helper returns, and [process_query] returns the error answer with no
    sources and no images and leaves the session state as it was. *)
Theorem long_marker_fails_query
        (json_loads : string → result pyval) (IMAGES_PATH : string)
        (fs : filesystem) (extract : string → list Z)
        (failure_text : query_failure → string)
        (query_engine : gmap string (string → option query_response))
        (st : session_state) (prompt file_name : string)
        (query : string → option query_response) (response : query_response) :
  query_engine !! file_name = Some query →
  query prompt = Some response →
  markers_within_limit (default (resp_str response) (resp_response response))
  = false →
  renumber_citations extract
    (default (resp_str response) (resp_response response)) = Raise ValueError
  ∧ ∃ e,
      process_query json_loads IMAGES_PATH fs extract failure_text query_engine
        st prompt file_name
      = (error_result ("Error processing your query: " +:+ failure_text e), st).
Proof.
  intros Hquery Hresponse Hlimit.
  split; [by apply renumber_citations_beyond_limit|].
  unfold process_query. rewrite Hquery, Hresponse. unfold process_response.
  destruct (head (omap preview_raises _)) as [bad|]; [by eexists|].
  rewrite renumber_citations_beyond_limit by done. by eexists.
Qed.

Lemma long_marker_fails_query_witness :
  renumber_citations Source.extract_citation_indices Sample3.long_marker_answer
  = Raise ValueError
  ∧ ∃ e,
      process_query Sample.json_loads Sample.IMAGES_PATH Sample.fs
        Source.extract_citation_indices Sample2.failure_text
        Sample3.query_engine (Sample.session "Earlier [1].")
        "What is new?" "paper.pdf"
      = (error_result ("Error processing your query: "
                       +:+ Sample2.failure_text e),
         Sample.session "Earlier [1].").
Proof.
  apply (long_marker_fails_query Sample.json_loads Sample.IMAGES_PATH Sample.fs
           Source.extract_citation_indices Sample2.failure_text
           Sample3.query_engine (Sample.session "Earlier [1].")
           "What is new?" "paper.pdf" (λ _, Some Sample3.response)
           Sample3.response).
  - vm_compute. reflexivity.
  - reflexivity.
  - vm_compute. reflexivity.
Defined.

(** X22.  An exception of [json.loads] other than [json.JSONDecodeError]
    (a [ValueError] for an integer of more than 4300 digits, a
    [RecursionError]) leaves [process_source_for_images] when the text of
    the passage gave no image, and with it the loop of the correlator over
    the cited passages; the metadata block of the correlator swallows the
    same exception and adds nothing. *)
Theorem loader_exception_leaves_correlator
        (json_loads : string → result pyval) (doc_id : string)
        (available_images : list string) (source : source_node)
        (rest : list source_node) (images : list pydict)
        (text : pyval) (metadata : pydict) (s : string) (e : exn) :
  src_text source = Some text →
  src_metadata source = Some (VDict metadata) →
  py_writable (dict_get metadata "page") = true →
  images_of_text text (dict_get metadata "page") available_images = Ok [] →
  dict_lookup "images" metadata = Some (VStr s) → s ≠ EmptyString →
  json_loads s = Raise e → e ≠ JSONDecodeError →
  process_source_for_images json_loads source doc_id available_images = Raise e
  ∧ process_cited_sources json_loads doc_id available_images (source :: rest)
      images = Raise e
  ∧ add_metadata_images json_loads images (VDict metadata) = images.
Proof.
  intros Htext Hmeta Hpage Himgs Himages Hs Hjson He.
  assert (process_source_for_images json_loads source doc_id available_images
          = Raise e) as Hraise.
  { unfold process_source_for_images. rewrite Hmeta, Htext, Hpage, Himgs.
    cbn [mbind result_bind]. unfold dict_has, dict_get. rewrite Himages.
    rewrite bool_decide_eq_true_2 by done.
    rewrite bool_decide_eq_true_2 by (by eexists).
    cbn. apply String.eqb_neq in Hs as ->. cbn.
    unfold images_of_metadata, dict_get. rewrite Himages. cbn. rewrite Hjson.
    by destruct e. }
  split_and!; [done| |].
  - cbn [process_cited_sources]. unfold process_cited_source.
    by rewrite Hraise.
  - unfold add_metadata_images, image_meta_list. rewrite Himages. cbn.
    by rewrite Hjson.
Qed.

Lemma loader_exception_leaves_correlator_witness :
  process_source_for_images Sample3.json_loads Sample3.passage8 "doc1"
    ["/app/images/doc1/a.jpg"%string] = Raise ValueError
  ∧ process_cited_sources Sample3.json_loads "doc1"
      ["/app/images/doc1/a.jpg"%string] [Sample3.passage8; Sample.passage1] []
    = Raise ValueError
  ∧ add_metadata_images Sample3.json_loads []
      (VDict [("page"%string, VInt 3);
              ("images"%string, VStr Sample3.long_number)]) = [].
Proof.
  apply (loader_exception_leaves_correlator Sample3.json_loads "doc1"
           ["/app/images/doc1/a.jpg"%string] Sample3.passage8 [Sample.passage1]
           [] (VStr "A table of constants.")
           [("page"%string, VInt 3); ("images"%string, VStr Sample3.long_number)]
           Sample3.long_number ValueError).
  - reflexivity.
  - reflexivity.
  - vm_compute. reflexivity.
  - vm_compute. reflexivity.
  - reflexivity.
  - vm_compute. discriminate.
  - vm_compute. reflexivity.
  - discriminate.
Defined.

(** ** Entries that are not objects *)

(** X23.  In the metadata block of the correlator an entry that is not an
    object ends the loop over the list: the entries after it are not
    looked at, and the records of the entries before it stay.  The loop of
    [process_source_for_images] over the same list skips such an entry and
    goes on. *)
Theorem non_object_entry_ends_metadata_loop
        (json_loads : string → result pyval) (images : list pydict)
        (meta : pydict) (s : string) (pre post : list pyval) (e : pyval)
        (page_num : pyval) (available_images : list string) :
  dict_lookup "images" meta = Some (VStr s) →
  json_loads s = Ok (VList (pre ++ e :: post)) →
  Forall is_dict pre → ¬ is_dict e →
  add_metadata_images json_loads images (VDict meta)
  = fst (for_each add_metadata_image pre images)
  ∧ first_metadata_image page_num available_images (pre ++ e :: post)
    = first_metadata_image page_num available_images (pre ++ post).
Proof.
  intros Hmeta Hjson Hpre He. split.
  - unfold add_metadata_images, image_meta_list. rewrite Hmeta. cbn.
    rewrite Hjson. cbn. rewrite for_each_app.
    destruct (for_each_metadata_dicts pre images Hpre) as [images' ->].
    cbn. destruct e as [| | | | |d]; try done; destruct He; by eexists.
  - clear Hpre Hjson. induction pre as [|x pre IH]; cbn [app].
    + destruct e as [| | | | |d]; try done; destruct He; by eexists.
    + destruct x as [| | | | |d]; cbn [first_metadata_image]; try exact IH.
      destruct (dict_lookup "file_path" d) as [fp|]; [|exact IH].
      by destruct (py_in_strs fp available_images).
Qed.

Lemma non_object_entry_ends_metadata_loop_witness :
  add_metadata_images Sample.json_loads []
    (VDict [("page"%string, VInt 1); ("images"%string, VStr Sample.junk_json)])
  = fst (for_each add_metadata_image [] [])
  ∧ first_metadata_image (VInt 1) ["/app/images/doc1/a.jpg"%string]
      ([] ++ [VStr "junk";
              VDict [("file_path"%string, VStr "/app/images/doc1/a.jpg")]])
    = first_metadata_image (VInt 1) ["/app/images/doc1/a.jpg"%string]
        ([] ++ [VDict [("file_path"%string, VStr "/app/images/doc1/a.jpg")]]).
Proof.
  apply (non_object_entry_ends_metadata_loop Sample.json_loads []
           [("page"%string, VInt 1); ("images"%string, VStr Sample.junk_json)]
           Sample.junk_json [] 
           [VDict [("file_path"%string, VStr "/app/images/doc1/a.jpg")]]
           (VStr "junk")).
  - reflexivity.
  - vm_compute. reflexivity.
  - constructor.
  - intros [d Hd]. discriminate.
Defined.
